(** * A priority round-robin RTOS scheduler: model and verification

    Shallow embedding of [src/rtos-kernel/scheduler.c] (with the
    configuration and types of [src/rtos-kernel/rtos.h]).

    - [tcb_t*] values are [option nat]: [None] is [NULL], [Some i] is
      [&task_pool[i]].  Every TCB of the program lives in [task_pool].
    - [uint32_t] fields are [Z] with the wrap-around written out ([u32]);
      [uint8_t priority] is a [nat], it is only compared and used as an index.
    - The file-level statics are the fields of [kernel]; every function
      takes the kernel and returns the new one.
    - A dereference of [NULL] and an out-of-range array access are
      undefined behaviour in C: the functions return [None] there.
    - [printf] output is not modelled. *)

From Stdlib Require Import ZArith Lia.
From stdpp Require Import base option list sets functions strings.

Set Warnings "-clear-no-such-hyp".

Open Scope Z_scope.

(** ** Configuration ([rtos.h]) *)

Definition MAX_TASKS : nat := 8.
Definition STACK_SIZE : Z := 1024.
Definition TIME_SLICE_MS : Z := 10.
Definition PRIORITY_LEVELS : nat := 4.

(** [uint32_t] and [uint8_t] wrap-around. *)
Definition u32 (z : Z) : Z := z mod 2 ^ 32.
Definition u8 (z : Z) : Z := z mod 2 ^ 8.

(** ** Types ([rtos.h]) *)

Inductive task_state_t :=
| TASK_READY | TASK_RUNNING | TASK_BLOCKED | TASK_SUSPENDED | TASK_TERMINATED.

#[global] Instance task_state_eq_dec : EqDecision task_state_t.
Proof. solve_decision. Defined.

(** The task control block.  Addresses are kept symbolic: [stack_base] and
    [stack_pointer] are byte offsets into [task_stacks], and the entry
    point and its parameter are the 32-bit values the pointers cast to. *)
Record tcb_t := mk_tcb {
  task_id : Z;
  name : string;
  stack_pointer : Z;
  registers : list Z;
  priority : nat;
  state : task_state_t;
  time_slice_remaining : Z;
  stack_base : Z;
  stack_size : Z;
  total_runtime : Z;
  last_run_time : Z;
  wake_time : Z;
  next : option nat;
  prev : option nat;
  task_function : Z;
  task_parameter : Z
}.

Record scheduler_stats_t := mk_stats {
  total_context_switches : Z;
  total_ticks : Z;
  idle_time : Z;
  tasks_created : Z;
  tasks_deleted : Z
}.

(** The global scheduler state and the task storage of [scheduler.c]. *)
Record kernel := mk_kernel {
  ready_queues : list (option nat);
  current_task : option nat;
  idle_task : option nat;
  next_task_id : Z;
  scheduler_running : bool;
  system_tick_count : Z;
  stats : scheduler_stats_t;
  task_pool : list tcb_t;
  task_pool_used : list bool
}.

(** *** Field assignments *)

Definition set_state (v : task_state_t) (t : tcb_t) : tcb_t :=
  mk_tcb (task_id t) (name t) (stack_pointer t) (registers t) (priority t) v
    (time_slice_remaining t) (stack_base t) (stack_size t) (total_runtime t)
    (last_run_time t) (wake_time t) (next t) (prev t) (task_function t)
    (task_parameter t).

Definition set_time_slice_remaining (v : Z) (t : tcb_t) : tcb_t :=
  mk_tcb (task_id t) (name t) (stack_pointer t) (registers t) (priority t)
    (state t) v (stack_base t) (stack_size t) (total_runtime t)
    (last_run_time t) (wake_time t) (next t) (prev t) (task_function t)
    (task_parameter t).

Definition set_total_runtime (v : Z) (t : tcb_t) : tcb_t :=
  mk_tcb (task_id t) (name t) (stack_pointer t) (registers t) (priority t)
    (state t) (time_slice_remaining t) (stack_base t) (stack_size t) v
    (last_run_time t) (wake_time t) (next t) (prev t) (task_function t)
    (task_parameter t).

Definition set_last_run_time (v : Z) (t : tcb_t) : tcb_t :=
  mk_tcb (task_id t) (name t) (stack_pointer t) (registers t) (priority t)
    (state t) (time_slice_remaining t) (stack_base t) (stack_size t)
    (total_runtime t) v (wake_time t) (next t) (prev t) (task_function t)
    (task_parameter t).

Definition set_wake_time (v : Z) (t : tcb_t) : tcb_t :=
  mk_tcb (task_id t) (name t) (stack_pointer t) (registers t) (priority t)
    (state t) (time_slice_remaining t) (stack_base t) (stack_size t)
    (total_runtime t) (last_run_time t) v (next t) (prev t) (task_function t)
    (task_parameter t).

Definition set_next (v : option nat) (t : tcb_t) : tcb_t :=
  mk_tcb (task_id t) (name t) (stack_pointer t) (registers t) (priority t)
    (state t) (time_slice_remaining t) (stack_base t) (stack_size t)
    (total_runtime t) (last_run_time t) (wake_time t) v (prev t)
    (task_function t) (task_parameter t).

Definition set_prev (v : option nat) (t : tcb_t) : tcb_t :=
  mk_tcb (task_id t) (name t) (stack_pointer t) (registers t) (priority t)
    (state t) (time_slice_remaining t) (stack_base t) (stack_size t)
    (total_runtime t) (last_run_time t) (wake_time t) (next t) v
    (task_function t) (task_parameter t).

Definition set_ready_queues (v : list (option nat)) (k : kernel) : kernel :=
  mk_kernel v (current_task k) (idle_task k) (next_task_id k)
    (scheduler_running k) (system_tick_count k) (stats k) (task_pool k)
    (task_pool_used k).

Definition set_current_task (v : option nat) (k : kernel) : kernel :=
  mk_kernel (ready_queues k) v (idle_task k) (next_task_id k)
    (scheduler_running k) (system_tick_count k) (stats k) (task_pool k)
    (task_pool_used k).

Definition set_idle_task (v : option nat) (k : kernel) : kernel :=
  mk_kernel (ready_queues k) (current_task k) v (next_task_id k)
    (scheduler_running k) (system_tick_count k) (stats k) (task_pool k)
    (task_pool_used k).

Definition set_next_task_id (v : Z) (k : kernel) : kernel :=
  mk_kernel (ready_queues k) (current_task k) (idle_task k) v
    (scheduler_running k) (system_tick_count k) (stats k) (task_pool k)
    (task_pool_used k).

Definition set_scheduler_running (v : bool) (k : kernel) : kernel :=
  mk_kernel (ready_queues k) (current_task k) (idle_task k) (next_task_id k)
    v (system_tick_count k) (stats k) (task_pool k) (task_pool_used k).

Definition set_system_tick_count (v : Z) (k : kernel) : kernel :=
  mk_kernel (ready_queues k) (current_task k) (idle_task k) (next_task_id k)
    (scheduler_running k) v (stats k) (task_pool k) (task_pool_used k).

Definition set_stats (v : scheduler_stats_t) (k : kernel) : kernel :=
  mk_kernel (ready_queues k) (current_task k) (idle_task k) (next_task_id k)
    (scheduler_running k) (system_tick_count k) v (task_pool k)
    (task_pool_used k).

Definition set_task_pool (v : list tcb_t) (k : kernel) : kernel :=
  mk_kernel (ready_queues k) (current_task k) (idle_task k) (next_task_id k)
    (scheduler_running k) (system_tick_count k) (stats k) v
    (task_pool_used k).

Definition set_task_pool_used (v : list bool) (k : kernel) : kernel :=
  mk_kernel (ready_queues k) (current_task k) (idle_task k) (next_task_id k)
    (scheduler_running k) (system_tick_count k) (stats k) (task_pool k) v.

(** [p->field = v] for [p = &task_pool[i]]. *)
Definition update_tcb (i : nat) (f : tcb_t → tcb_t) (k : kernel)
  : option kernel :=
  _ ← task_pool k !! i;
  Some (set_task_pool (alter f i (task_pool k)) k).

(** [ready_queues[p] = v]. *)
Definition set_queue (p : nat) (v : option nat) (k : kernel) : kernel :=
  set_ready_queues (<[p := v]> (ready_queues k)) k.

(** ** Ready queues *)

(** [add_task_to_ready_queue]: append to the circular list of the task's
    priority. *)
Definition add_task_to_ready_queue (task : nat) (k : kernel) : option kernel :=
  k ← update_tcb task
        (λ t, if decide (state t ≠ TASK_READY) then set_state TASK_READY t
              else t) k;
  t ← task_pool k !! task;
  let priority := priority t in
  head ← ready_queues k !! priority;
  match head with
  | None =>
      let k := set_queue priority (Some task) k in
      k ← update_tcb task (set_next (Some task)) k;
      update_tcb task (set_prev (Some task)) k
  | Some h =>
      hd ← task_pool k !! h;
      let last := prev hd in
      k ← update_tcb task (set_next (Some h)) k;
      k ← update_tcb task (set_prev last) k;
      l ← last;
      k ← update_tcb l (set_next (Some task)) k;
      update_tcb h (set_prev (Some task)) k
  end.

(** [remove_task_from_ready_queue]. *)
Definition remove_task_from_ready_queue (task : nat) (k : kernel)
  : option kernel :=
  t ← task_pool k !! task;
  let priority := priority t in
  head ← ready_queues k !! priority;
  match head with
  | None => Some k
  | Some _ =>
      k ← (if decide (next t = Some task) then
             Some (set_queue priority None k)
           else
             p ← prev t;
             k ← update_tcb p (set_next (next t)) k;
             t1 ← task_pool k !! task;
             n ← next t1;
             k ← update_tcb n (set_prev (prev t1)) k;
             t2 ← task_pool k !! task;
             head' ← ready_queues k !! priority;
             if decide (head' = Some task)
             then Some (set_queue priority (next t2) k)
             else Some k);
      k ← update_tcb task (set_next None) k;
      update_tcb task (set_prev None) k
  end.

(** ** Dispatcher *)

(** The loop of [scheduler_get_next_task] over the priorities [ps]. *)
Fixpoint get_next_from (ps : list nat) (k : kernel)
  : option (option nat * kernel) :=
  match ps with
  | [] => Some (idle_task k, k)
  | p :: ps' =>
      head ← ready_queues k !! p;
      match head with
      | Some h =>
          next_task ← task_pool k !! h;
          Some (Some h, set_queue p (next next_task) k)
      | None => get_next_from ps' k
      end
  end.

Definition scheduler_get_next_task (k : kernel)
  : option (option nat * kernel) :=
  get_next_from (seq 0 PRIORITY_LEVELS) k.

Definition incr_context_switches (k : kernel) : kernel :=
  let s := stats k in
  set_stats (mk_stats (u32 (total_context_switches s + 1)) (total_ticks s)
               (idle_time s) (tasks_created s) (tasks_deleted s)) k.

(** The block "save current task context" of [context_switch]. *)
Definition save_context (c : nat) (k : kernel) : option kernel :=
  k ← update_tcb c (set_last_run_time (system_tick_count k)) k;
  t ← task_pool k !! c;
  k ← (if decide (state t = TASK_RUNNING)
       then update_tcb c (set_total_runtime (u32 (total_runtime t + 1))) k
       else Some k);
  t ← task_pool k !! c;
  if decide (state t = TASK_RUNNING) then
    k ← update_tcb c (set_state TASK_READY) k;
    add_task_to_ready_queue c k
  else Some k.

(** The block "load next task context" of [context_switch]. *)
Definition load_context (n : nat) (k : kernel) : option kernel :=
  let k := set_current_task (Some n) k in
  k ← update_tcb n (set_state TASK_RUNNING) k;
  k ← update_tcb n (set_time_slice_remaining TIME_SLICE_MS) k;
  remove_task_from_ready_queue n k.

Definition context_switch (current next_ : option nat) (k : kernel)
  : option kernel :=
  if decide (current = next_) then Some k
  else
    let k := incr_context_switches k in
    k ← match current with
        | None => Some k
        | Some c => save_context c k
        end;
    match next_ with
    | None => Some k
    | Some n => load_context n k
    end.

(** ** Tick engine *)

Fixpoint highest_from (ps : list nat) (k : kernel) : option (option nat) :=
  match ps with
  | [] => Some None
  | p :: ps' =>
      head ← ready_queues k !! p;
      match head with
      | Some h => Some (Some h)
      | None => highest_from ps' k
      end
  end.

Definition get_highest_priority_ready_task (k : kernel)
  : option (option nat) :=
  highest_from (seq 0 PRIORITY_LEVELS) k.

(** One iteration of the loop of [wake_sleeping_tasks], for slot [i]. *)
Definition wake_slot (i : nat) (k : kernel) : option kernel :=
  used ← task_pool_used k !! i;
  if used : bool then
    task ← task_pool k !! i;
    if bool_decide (state task = TASK_BLOCKED)
       && (0 <? wake_time task)
       && (wake_time task <=? system_tick_count k)
    then
      k ← update_tcb i (set_wake_time 0) k;
      k ← update_tcb i (set_state TASK_READY) k;
      add_task_to_ready_queue i k
    else Some k
  else Some k.

Fixpoint wake_from (slots : list nat) (k : kernel) : option kernel :=
  match slots with
  | [] => Some k
  | i :: slots' => k ← wake_slot i k; wake_from slots' k
  end.

Definition wake_sleeping_tasks (k : kernel) : option kernel :=
  wake_from (seq 0 MAX_TASKS) k.

Definition incr_ticks (k : kernel) : kernel :=
  let k := set_system_tick_count (u32 (system_tick_count k + 1)) k in
  let s := stats k in
  set_stats (mk_stats (total_context_switches s) (u32 (total_ticks s + 1))
               (idle_time s) (tasks_created s) (tasks_deleted s)) k.

(** The slice update of [scheduler_tick]. *)
Definition decrement_slice (c : nat) (k : kernel) : option kernel :=
  t ← task_pool k !! c;
  if 0 <? time_slice_remaining t
  then update_tcb c (set_time_slice_remaining (time_slice_remaining t - 1)) k
  else Some k.

(** The value of [need_reschedule] in [scheduler_tick], for the current task
    [c]. *)
Definition need_reschedule (c : nat) (k : kernel) : option bool :=
  t ← task_pool k !! c;
  let expired := bool_decide (time_slice_remaining t = 0) in
  highest_ready ← get_highest_priority_ready_task k;
  match highest_ready with
  | Some h =>
      ht ← task_pool k !! h;
      Some (expired || bool_decide (priority ht < priority t)%nat)
  | None => Some expired
  end.

(** [next_task = scheduler_get_next_task(); context_switch(current_task,
    next_task);], the last two lines of [scheduler_tick] and of
    [task_sleep]. *)
Definition reschedule (k : kernel) : option kernel :=
  '(next_task, k) ← scheduler_get_next_task k;
  context_switch (current_task k) next_task k.

(** [scheduler_tick] after the two counters were advanced. *)
Definition tick_body (c : nat) (k : kernel) : option kernel :=
  k ← decrement_slice c k;
  k ← wake_sleeping_tasks k;
  need ← need_reschedule c k;
  if need : bool then reschedule k else Some k.

Definition scheduler_tick (k : kernel) : option kernel :=
  let k := incr_ticks k in
  match scheduler_running k, current_task k with
  | true, Some c => tick_body c k
  | _, _ => Some k
  end.

(** ** Task registry *)

(** The first free slot of [task_pool_used], [None] for [slot == -1]. *)
Definition find_free_slot (k : kernel) : option nat :=
  fst <$> list_find (λ b : bool, b = false) (take MAX_TASKS (task_pool_used k)).

Definition incr_tasks_created (k : kernel) : kernel :=
  let s := stats k in
  set_stats (mk_stats (total_context_switches s) (total_ticks s) (idle_time s)
               (u32 (tasks_created s + 1)) (tasks_deleted s)) k.

(** The TCB that [task_create] writes into the slot, before it is queued. *)
Definition init_tcb (k : kernel) (slot : nat) (name_ : string)
    (task_func param : Z) (priority_ : nat) (stack_size_ : Z) : tcb_t :=
  let base := Z.of_nat slot * STACK_SIZE in
  let sp := base + stack_size_ - 4 in
  mk_tcb (next_task_id k) (String.substring 0 15 name_) sp
    (<[0%nat := param]> (<[13%nat := u32 sp]> (<[14%nat := 0xFFFFFFFD]>
       (<[15%nat := task_func]> (replicate 16 0)))))
    priority_ TASK_READY TIME_SLICE_MS base stack_size_ 0
    (system_tick_count k) 0 None None task_func param.

(** [task_create]: the returned id is [0] on failure. *)
Definition task_create (name_ : string) (task_func param : Z)
    (priority_ : nat) (stack_size_ : Z) (k : kernel) : option (Z * kernel) :=
  if decide (PRIORITY_LEVELS ≤ priority_)%nat then Some (0, k)
  else if decide (STACK_SIZE < stack_size_) then Some (0, k)
  else
    match find_free_slot k with
    | None => Some (0, k)
    | Some slot =>
        let tcb := init_tcb k slot name_ task_func param priority_ stack_size_ in
        let k := set_task_pool_used (<[slot := true]> (task_pool_used k)) k in
        let k := set_next_task_id (u32 (next_task_id k + 1)) k in
        let k := set_task_pool (<[slot := tcb]> (task_pool k)) k in
        k ← add_task_to_ready_queue slot k;
        let k := incr_tasks_created k in
        t ← task_pool k !! slot;
        Some (task_id t, k)
    end.

Definition task_get_info (id : Z) (k : kernel) : option nat :=
  fst <$> list_find (λ ut : bool * tcb_t, ut.1 = true ∧ task_id ut.2 = id)
            (take MAX_TASKS (zip (task_pool_used k) (task_pool k))).

Definition task_get_current_id (k : kernel) : option Z :=
  match current_task k with
  | Some c => task_id <$> task_pool k !! c
  | None => Some 0
  end.

(** ** Start-up and task control *)

(** A TCB after [memset(.., 0, ..)]. *)
Definition zero_tcb : tcb_t :=
  mk_tcb 0 "" 0 (replicate 16 0) 0 TASK_READY 0 0 0 0 0 0 None None 0 0.

(** Address of [idle_task_function], an arbitrary code address. *)
Definition idle_task_function : Z := 0x08000100.

(** [rtos_init]: the [int] result is [0] or [-1]. *)
Definition rtos_init (k : kernel) : option (Z * kernel) :=
  let k := set_ready_queues (replicate PRIORITY_LEVELS None) k in
  let k := set_task_pool (replicate MAX_TASKS zero_tcb) k in
  let k := set_task_pool_used (replicate MAX_TASKS false) k in
  let k := set_stats (mk_stats 0 0 0 0 0) k in
  '(idle_id, k) ← task_create "IDLE" idle_task_function 0
                    (PRIORITY_LEVELS - 1) STACK_SIZE k;
  if decide (idle_id = 0) then Some (-1, k)
  else Some (0, set_idle_task (task_get_info idle_id k) k).

(** The state of the statics when the program is loaded. *)
Definition boot : kernel :=
  mk_kernel (replicate PRIORITY_LEVELS None) None None 1 false 0
    (mk_stats 0 0 0 0 0) (replicate MAX_TASKS zero_tcb)
    (replicate MAX_TASKS false).

(** [rtos_start] up to its main loop. *)
Definition rtos_start (k : kernel) : option kernel :=
  let k := set_scheduler_running true k in
  '(first_task, k) ← scheduler_get_next_task k;
  match first_task with
  | None => Some k
  | Some _ => context_switch None first_task k
  end.

(** [n] iterations of the main loop of [rtos_start]: one [scheduler_tick]
    each. *)
Fixpoint run_ticks (n : nat) (k : kernel) : option kernel :=
  match n with
  | O => Some k
  | S n' => k ← scheduler_tick k; run_ticks n' k
  end.

Definition task_yield (k : kernel) : option kernel :=
  match scheduler_running k, current_task k with
  | true, Some c =>
      k ← update_tcb c (set_time_slice_remaining 0) k;
      scheduler_tick k
  | _, _ => Some k
  end.

Definition task_sleep (ms : Z) (k : kernel) : option kernel :=
  match scheduler_running k, current_task k with
  | true, Some c =>
      k ← update_tcb c (set_wake_time (u32 (system_tick_count k + ms))) k;
      k ← update_tcb c (set_state TASK_BLOCKED) k;
      reschedule k
  | _, _ => Some k
  end.

(** ** Statistics *)

Definition get_system_uptime (k : kernel) : Z := system_tick_count k.

Definition get_cpu_utilization (k : kernel) : Z :=
  if decide (total_ticks (stats k) = 0) then 0
  else
    let busy_time := u32 (total_ticks (stats k) - idle_time (stats k)) in
    u8 (u32 (busy_time * 100) / total_ticks (stats k)).

(** * Circular doubly-linked lists

    The links of a pool are read as two partial functions [N] ([next]) and
    [P] ([prev]).  [ring N P l] says that the elements of [l], in this
    order, form one circular doubly-linked list. *)

Section rings.
Implicit Types (N P : nat → option nat) (l : list nat).

Definition linked N P (a b : nat) : Prop := N a = Some b ∧ P b = Some a.

Fixpoint chain N P l : Prop :=
  match l with
  | a :: l' =>
      match l' with
      | b :: _ => linked N P a b ∧ chain N P l'
      | [] => True
      end
  | [] => True
  end.

Definition ring N P l : Prop :=
  NoDup l ∧ chain N P l ∧
  ∀ h z, head l = Some h → last l = Some z → linked N P z h.

Lemma chain_cons N P a b l :
  chain N P (a :: b :: l) ↔ linked N P a b ∧ chain N P (b :: l).
Proof. done. Qed.

Lemma chain_snoc N P l x :
  chain N P (l ++ [x]) ↔ chain N P l ∧ ∀ z, last l = Some z → linked N P z x.
Proof.
  induction l as [|a [|b l'] IH].
  - split; [|done]. intros _. split; [done|]. by intros ? [=].
  - simpl. split.
    + intros [? _]. split; [done|]. by intros ? [= <-].
    + intros [_ H]. split; [|done]. by apply H.
  - change ((a :: b :: l') ++ [x]) with (a :: b :: (l' ++ [x])).
    rewrite !chain_cons, last_cons_cons.
    change (b :: l' ++ [x]) with ((b :: l') ++ [x]). rewrite IH. tauto.
Qed.

Lemma chain_frame N P N' P' l :
  NoDup l →
  (∀ x, x ∈ l → last l ≠ Some x → N' x = N x) →
  (∀ x, x ∈ l → head l ≠ Some x → P' x = P x) →
  chain N P l → chain N' P' l.
Proof.
  induction l as [|a [|b l'] IH]; [done..|].
  intros Hnd HN HP. rewrite !chain_cons. intros [[Hab Hba] Hc].
  apply NoDup_cons in Hnd as [Ha Hnd].
  split.
  - split.
    + rewrite HN; [done|set_solver|].
      rewrite last_cons_cons. intros Hl.
      apply last_Some_elem_of in Hl. done.
    + rewrite HP; [done|set_solver|]. intros [= ->]. set_solver.
  - apply IH; [done| | |done].
    + intros x Hx Hl. apply HN; [set_solver|by rewrite last_cons_cons].
    + intros x Hx Hh. apply HP; [set_solver|]. intros [= ->]. done.
Qed.

Lemma ring_nil N P : ring N P [].
Proof. split; [constructor|]. split; [done|]. by intros ?? [=]. Qed.

Lemma ring_frame N P N' P' l :
  (∀ x, x ∈ l → N' x = N x ∧ P' x = P x) → ring N P l → ring N' P' l.
Proof.
  intros H (Hnd & Hc & Hcl). split; [done|]. split.
  - eapply chain_frame; [done| | |done]; intros x Hx _; by apply H.
  - intros h z Hh Hz. destruct (Hcl h z Hh Hz) as [HN HP].
    split.
    + destruct (H z) as [-> _]; [by apply last_Some_elem_of|done].
    + destruct (H h) as [_ ->]; [by apply head_Some_elem_of|done].
Qed.

Lemma ring_elem_links N P l x :
  ring N P l → x ∈ l → is_Some (N x) ∧ is_Some (P x).
Proof.
  intros (Hnd & Hc & Hcl) Hx.
  assert (∀ l', chain N P l' → x ∈ l' →
            (is_Some (N x) ∨ last l' = Some x) ∧
            (is_Some (P x) ∨ head l' = Some x)) as Haux.
  { clear. induction l' as [|a [|b l''] IH]; simpl.
    - intros _ ?. set_solver.
    - intros _ ?. assert (x = a) as -> by set_solver. eauto.
    - intros [[HN HP] Hc] Hx. apply elem_of_cons in Hx as [->|Hx].
      + split; [left; eauto|right; done].
      + destruct (IH Hc Hx) as [H1 H2]. split; [done|].
        destruct H2 as [?|[= ->]]; [by left|left; eauto]. }
  destruct l as [|h l0]; [set_solver|].
  destruct (last_is_Some (h :: l0)) as [_ [z Hz]]; [done|].
  destruct (Hcl h z eq_refl Hz) as [HN HP].
  destruct (Haux _ Hc Hx) as [[?|Hl] [?|Hh]]; simplify_eq/=; eauto.
Qed.

(** Advancing the head by one element keeps the ring. *)
Lemma ring_rotate N P a r : ring N P (a :: r) → ring N P (r ++ [a]).
Proof.
  intros (Hnd & Hc & Hcl).
  split; [|split].
  - apply NoDup_cons in Hnd as [??]. apply NoDup_app. set_solver by eauto using NoDup_singleton.
  - apply chain_snoc. destruct r as [|b r]; [split; [done|by intros ? [=]]|].
    destruct Hc as [_ Hc]. split; [done|].
    intros z Hz. apply Hcl; [done|]. by rewrite last_cons_cons.
  - intros h z Hh Hz. rewrite last_snoc in Hz. simplify_eq.
    destruct r as [|b r]; simplify_eq/=; [by apply Hcl|]. by destruct Hc.
Qed.

Lemma ring_rotate_app N P l1 l2 : ring N P (l1 ++ l2) → ring N P (l2 ++ l1).
Proof.
  revert l2. induction l1 as [|a l1 IH]; intros l2 H.
  - by rewrite app_nil_r.
  - apply ring_rotate in H. rewrite <-app_assoc in H.
    apply IH in H. by rewrite <-app_assoc in H.
Qed.

Lemma ring_singleton N P t : N t = Some t → P t = Some t → ring N P [t].
Proof.
  intros HN HP. split; [apply NoDup_singleton|]. split; [done|].
  intros ?? [= <-] [= <-]. done.
Qed.

(** The closing link: the head's [prev] is the tail and the tail's [next]
    is the head. *)
Lemma ring_closed N P h r z :
  ring N P (h :: r) → last (h :: r) = Some z → N z = Some h ∧ P h = Some z.
Proof. intros (_ & _ & Hcl) Hz. by apply Hcl. Qed.

Lemma ring_head_next N P a b r : ring N P (a :: b :: r) → N a = Some b.
Proof. intros (_ & [[? _] _] & _). done. Qed.

Lemma ring_self_next N P t r : ring N P (t :: r) → N t = Some t → r = [].
Proof.
  destruct r as [|b r]; [done|]. intros H Ht.
  rewrite (ring_head_next _ _ _ _ _ H) in Ht. destruct H as [Hnd _].
  apply NoDup_cons in Hnd as [Hnd _]. set_solver.
Qed.

(** Insertion at the tail, as [add_task_to_ready_queue] writes the four
    links. *)
Lemma ring_add_tail N P N' P' h r z t :
  ring N P (h :: r) → last (h :: r) = Some z → t ∉ h :: r →
  N' t = Some h → P' t = Some z → N' z = Some t → P' h = Some t →
  (∀ x, x ≠ t → x ≠ z → N' x = N x) →
  (∀ x, x ≠ t → x ≠ h → P' x = P x) →
  ring N' P' ((h :: r) ++ [t]).
Proof.
  intros (Hnd & Hc & Hcl) Hz Ht HNt HPt HNz HPh HN HP.
  split; [|split].
  - apply NoDup_app. split; [done|]. split; [|apply NoDup_singleton].
    intros x Hx. set_solver.
  - apply chain_snoc. split.
    + eapply chain_frame; [done| | |done].
      * intros x Hx Hl. apply HN; [set_solver|]. intros ->. by rewrite Hz in Hl.
      * intros x Hx Hh. apply HP; [set_solver|]. intros ->. done.
    + intros z' Hz'. rewrite Hz in Hz'. by simplify_eq.
  - intros h' z' [= <-]. rewrite last_snoc. intros [= <-]. done.
Qed.

(** Unlinking the head of a ring with at least two elements. *)
Lemma ring_remove_head N P N' P' t n r z :
  ring N P (t :: n :: r) → last (n :: r) = Some z →
  N' z = Some n → P' n = Some z →
  (∀ x, x ≠ t → x ≠ z → N' x = N x) →
  (∀ x, x ≠ t → x ≠ n → P' x = P x) →
  ring N' P' (n :: r).
Proof.
  intros (Hnd & Hc & Hcl) Hz HNz HPn HN HP.
  apply NoDup_cons in Hnd as [Ht Hnd]. destruct Hc as [_ Hc].
  split; [done|]. split.
  - eapply chain_frame; [done| | |done].
    + intros x Hx Hl. apply HN; [set_solver|]. intros ->. by rewrite Hz in Hl.
    + intros x Hx Hh. apply HP; [set_solver|]. intros ->. done.
  - intros h' z' [= <-] Hz'. rewrite Hz in Hz'. by simplify_eq.
Qed.

(** Unlinking an element anywhere in the ring: [task->prev->next =
    task->next; task->next->prev = task->prev]. *)
Lemma ring_remove N P N' P' l1 l2 t n z :
  ring N P (l1 ++ t :: l2) → l1 ++ l2 ≠ [] →
  N t = Some n → P t = Some z →
  N' z = Some n → P' n = Some z →
  (∀ x, x ≠ t → x ≠ z → N' x = N x) →
  (∀ x, x ≠ t → x ≠ n → P' x = P x) →
  ring N' P' (l1 ++ l2).
Proof.
  intros H Hne HNt HPt HNz HPn HN HP.
  apply ring_rotate_app in H. simpl in H.
  apply ring_rotate_app.
  destruct (l2 ++ l1) as [|n' r] eqn:El.
  { apply app_eq_nil in El as [-> ->]. done. }
  destruct (last_is_Some (n' :: r)) as [_ [z' Hz']]; [done|].
  assert (n' = n) as ->.
  { apply ring_head_next in H. congruence. }
  assert (z' = z) as ->.
  { eapply ring_closed in H as [_ H]; [|by rewrite last_cons_cons]. congruence. }
  eapply ring_remove_head; eauto.
Qed.

(** In a ring of at least two elements the neighbours of the head are
    other members. *)
Lemma ring_head_neighbours N P t r :
  ring N P (t :: r) → r ≠ [] →
  ∃ n z, N t = Some n ∧ P t = Some z ∧ n ∈ r ∧ z ∈ r ∧
         head r = Some n ∧ last r = Some z.
Proof.
  intros H Hr. destruct r as [|n r]; [done|].
  destruct (last_is_Some (n :: r)) as [_ [z Hz]]; [done|].
  exists n, z. split; [by eapply ring_head_next|].
  split; [eapply ring_closed; [done|by rewrite last_cons_cons]|].
  split; [set_solver|]. split; [by apply last_Some_elem_of|done].
Qed.
End rings.

(** * The pool seen as links and data *)

Definition nxt (pool : list tcb_t) (i : nat) : option nat := pool !! i ≫= next.
Definition prv (pool : list tcb_t) (i : nat) : option nat := pool !! i ≫= prev.

(** A TCB without its links. *)
Definition strip (t : tcb_t) : tcb_t := set_next None (set_prev None t).
Definition data (k : kernel) : list tcb_t := strip <$> task_pool k.

(** [k'] differs from [k] in the ready queues and the task pool only. *)
Definition frame_globals (k k' : kernel) : Prop :=
  k' = set_ready_queues (ready_queues k') (set_task_pool (task_pool k') k).

Lemma frame_globals_refl k : frame_globals k k.
Proof. by destruct k. Qed.

Lemma frame_globals_trans k1 k2 k3 :
  frame_globals k1 k2 → frame_globals k2 k3 → frame_globals k1 k3.
Proof. unfold frame_globals. intros -> ->. done. Qed.

Lemma update_tcb_eq i f k t :
  task_pool k !! i = Some t →
  update_tcb i f k = Some (set_task_pool (alter f i (task_pool k)) k).
Proof. unfold update_tcb. by intros ->. Qed.

Lemma update_tcb_lt i f k :
  (i < length (task_pool k))%nat →
  update_tcb i f k = Some (set_task_pool (alter f i (task_pool k)) k).
Proof. intros [t Ht]%lookup_lt_is_Some. by eapply update_tcb_eq. Qed.

Lemma nxt_alter_set_next pool i v x :
  (i < length pool)%nat →
  nxt (alter (set_next v) i pool) x = if decide (x = i) then v else nxt pool x.
Proof.
  intros [t Ht]%lookup_lt_is_Some. unfold nxt. rewrite list_lookup_alter.
  repeat case_decide; simplify_eq; [by rewrite Ht|done].
Qed.

Lemma prv_alter_set_prev pool i v x :
  (i < length pool)%nat →
  prv (alter (set_prev v) i pool) x = if decide (x = i) then v else prv pool x.
Proof.
  intros [t Ht]%lookup_lt_is_Some. unfold prv. rewrite list_lookup_alter.
  repeat case_decide; simplify_eq; [by rewrite Ht|done].
Qed.

Lemma nxt_alter_keep f pool i x :
  (∀ t, next (f t) = next t) → nxt (alter f i pool) x = nxt pool x.
Proof.
  intros Hf. unfold nxt. rewrite list_lookup_alter. case_decide; [|done].
  subst. destruct (pool !! x); simpl; [apply Hf|done].
Qed.

Lemma prv_alter_keep f pool i x :
  (∀ t, prev (f t) = prev t) → prv (alter f i pool) x = prv pool x.
Proof.
  intros Hf. unfold prv. rewrite list_lookup_alter. case_decide; [|done].
  subst. destruct (pool !! x); simpl; [apply Hf|done].
Qed.

Lemma strip_alter_link f (i : nat) (pool : list tcb_t) :
  (∀ t, strip (f t) = strip t) → strip <$> alter f i pool = strip <$> pool.
Proof.
  intros Hf. rewrite (list_fmap_alter strip f id).
  - by apply list_alter_id.
  - apply Forall_forall. intros. apply Hf.
Qed.

Lemma strip_alter_data f (i : nat) (pool : list tcb_t) :
  (∀ t, strip (f t) = f (strip t)) →
  strip <$> alter f i pool = alter f i (strip <$> pool).
Proof.
  intros Hf. apply list_fmap_alter, Forall_forall. intros. apply Hf.
Qed.

Lemma set_state_ready_id t :
  (if decide (state t ≠ TASK_READY) then set_state TASK_READY t else t)
  = set_state TASK_READY t.
Proof. destruct t as [????? st ??????????]. simpl. case_decide; [done|]. by destruct st. Qed.

Lemma alter_ready (i : nat) (pool : list tcb_t) :
  alter (λ t, if decide (state t ≠ TASK_READY) then set_state TASK_READY t
              else t) i pool
  = alter (set_state TASK_READY) i pool.
Proof. apply list_alter_ext; [|done]. intros. apply set_state_ready_id. Qed.

Lemma add_exec_empty k task t :
  task_pool k !! task = Some t →
  ready_queues k !! priority t = Some None →
  add_task_to_ready_queue task k =
    Some (set_queue (priority t) (Some task)
            (set_task_pool
               (alter (set_prev (Some task)) task
                  (alter (set_next (Some task)) task
                     (alter (set_state TASK_READY) task (task_pool k)))) k)).
Proof.
  intros Ht Hq. unfold add_task_to_ready_queue.
  rewrite (update_tcb_eq _ _ _ _ Ht), alter_ready. simpl.
  rewrite list_lookup_alter_eq, Ht. simpl. rewrite Hq. simpl.
  assert (task < length (task_pool k))%nat as Hlt by by eapply lookup_lt_Some.
  rewrite update_tcb_lt by (simpl; by rewrite !length_alter). simpl.
  rewrite update_tcb_lt by (simpl; by rewrite !length_alter). done.
Qed.

Lemma add_exec_nonempty k task t h hd z :
  task_pool k !! task = Some t →
  ready_queues k !! priority t = Some (Some h) →
  h ≠ task → task_pool k !! h = Some hd → prev hd = Some z →
  (z < length (task_pool k))%nat →
  add_task_to_ready_queue task k =
    Some (set_task_pool
            (alter (set_prev (Some task)) h
               (alter (set_next (Some task)) z
                  (alter (set_prev (Some z)) task
                     (alter (set_next (Some h)) task
                        (alter (set_state TASK_READY) task (task_pool k))))))
            k).
Proof.
  intros Ht Hq Hne Hh Hz Hlz. unfold add_task_to_ready_queue.
  rewrite (update_tcb_eq _ _ _ _ Ht), alter_ready. simpl.
  rewrite list_lookup_alter_eq, Ht. simpl. rewrite Hq. simpl.
  rewrite list_lookup_alter_ne, Hh by done. simpl.
  assert (task < length (task_pool k))%nat as Hlt by by eapply lookup_lt_Some.
  assert (h < length (task_pool k))%nat as Hlh by by eapply lookup_lt_Some.
  rewrite update_tcb_lt by (simpl; by rewrite !length_alter). simpl.
  rewrite update_tcb_lt by (simpl; by rewrite !length_alter). simpl.
  rewrite Hz. simpl.
  rewrite update_tcb_lt by (simpl; by rewrite !length_alter). simpl.
  rewrite update_tcb_lt by (simpl; by rewrite !length_alter). done.
Qed.

Lemma nxt_lookup pool x t : pool !! x = Some t → nxt pool x = next t.
Proof. unfold nxt. by intros ->. Qed.

Lemma prv_lookup pool x t : pool !! x = Some t → prv pool x = prev t.
Proof. unfold prv. by intros ->. Qed.

Lemma data_lookup k x t : task_pool k !! x = Some t → data k !! x = Some (strip t).
Proof. unfold data. rewrite list_lookup_fmap. by intros ->. Qed.

(** Reading a TCB after the data of every slot [x] went through [g x]. *)
Lemma data_map_fwd k k' (g : nat → tcb_t → tcb_t) x t :
  (∀ x, data k' !! x = g x <$> data k !! x) → task_pool k !! x = Some t →
  ∃ t', task_pool k' !! x = Some t' ∧ strip t' = g x (strip t).
Proof.
  intros Hd Ht. apply data_lookup in Ht. specialize (Hd x).
  rewrite Ht in Hd. unfold data in Hd. rewrite list_lookup_fmap in Hd.
  destruct (task_pool k' !! x) as [t'|]; [|done].
  exists t'. split; [done|]. simpl in Hd. congruence.
Qed.

Lemma data_map_bwd k k' (g : nat → tcb_t → tcb_t) x t' :
  (∀ x, data k' !! x = g x <$> data k !! x) → task_pool k' !! x = Some t' →
  ∃ t, task_pool k !! x = Some t ∧ strip t' = g x (strip t).
Proof.
  intros Hd Ht'. apply data_lookup in Ht'. specialize (Hd x).
  rewrite Ht' in Hd. unfold data in Hd. rewrite list_lookup_fmap in Hd.
  destruct (task_pool k !! x) as [t|]; [|done].
  exists t. split; [done|]. simpl in Hd. congruence.
Qed.

(** The data maps of the updates that occur. *)
Definition at_slot (i : nat) (f : tcb_t → tcb_t) (x : nat) : tcb_t → tcb_t :=
  if decide (x = i) then f else id.

Lemma data_alter_map k k' f i :
  data k' = alter f i (data k) →
  ∀ x, data k' !! x = at_slot i f x <$> data k !! x.
Proof.
  intros -> x. rewrite list_lookup_alter. unfold at_slot.
  destruct (decide (i = x)) as [->|]; [by rewrite decide_True|].
  rewrite decide_False by done. by destruct (data k !! x).
Qed.

Lemma data_eq_map k k' :
  data k' = data k → ∀ x, data k' !! x = (λ _, id) x <$> data k !! x.
Proof. intros -> x. by destruct (data k !! x). Qed.

(** What [strip] keeps. *)
Lemma strip_eq_fields t t' :
  strip t' = strip t →
  task_id t' = task_id t ∧ priority t' = priority t ∧ state t' = state t ∧
  time_slice_remaining t' = time_slice_remaining t ∧
  total_runtime t' = total_runtime t ∧ last_run_time t' = last_run_time t ∧
  wake_time t' = wake_time t.
Proof. destruct t, t'. unfold strip. simpl. intros [=]. by subst. Qed.

(** * The link invariant

    [LInv k Q]: the ready queue of every priority [p] is a well-formed ring
    holding the slots [Q p], in this order from the head; the members of
    queue [p] have priority [p]; a TCB that is in no queue has null links. *)

Record LInv (k : kernel) (Q : nat → list nat) : Prop := mk_LInv {
  linv_pool_len : length (task_pool k) = MAX_TASKS;
  linv_used_len : length (task_pool_used k) = MAX_TASKS;
  linv_head : ∀ p, (p < PRIORITY_LEVELS)%nat →
    ready_queues k !! p = Some (head (Q p));
  linv_ring : ∀ p, ring (nxt (task_pool k)) (prv (task_pool k)) (Q p);
  linv_prio : ∀ p x, x ∈ Q p →
    ∃ t, task_pool k !! x = Some t ∧ priority t = p;
  linv_prio_lt : ∀ x t, task_pool k !! x = Some t →
    (priority t < PRIORITY_LEVELS)%nat;
  linv_unlinked : ∀ x t, task_pool k !! x = Some t → x ∉ Q (priority t) →
    next t = None ∧ prev t = None
}.

Lemma LInv_disjoint k Q p q x : LInv k Q → x ∈ Q p → x ∈ Q q → p = q.
Proof.
  intros HI Hp Hq.
  destruct (linv_prio _ _ HI _ _ Hp) as (t & Ht & <-).
  destruct (linv_prio _ _ HI _ _ Hq) as (t' & Ht' & <-). congruence.
Qed.

Lemma LInv_member_lt k Q p x :
  LInv k Q → x ∈ Q p → (x < length (task_pool k))%nat.
Proof.
  intros HI Hp. destruct (linv_prio _ _ HI _ _ Hp) as (t & Ht & _).
  by eapply lookup_lt_Some.
Qed.


(** Re-establishing the invariant after queue [p] was rebuilt as [l']:
    only the links of old and new members of queue [p] may have changed. *)
Lemma LInv_requeue k k' Q p l' (g : nat → tcb_t → tcb_t) :
  LInv k Q →
  length (task_pool k') = length (task_pool k) →
  task_pool_used k' = task_pool_used k →
  (∀ q, (q < PRIORITY_LEVELS)%nat →
        ready_queues k' !! q = Some (head (<[p := l']> Q q))) →
  ring (nxt (task_pool k')) (prv (task_pool k')) l' →
  (∀ x, x ∉ Q p → x ∉ l' →
        nxt (task_pool k') x = nxt (task_pool k) x ∧
        prv (task_pool k') x = prv (task_pool k) x) →
  (∀ x, x ∈ l' → ∃ t, task_pool k !! x = Some t ∧ priority t = p) →
  (∀ x, x ∈ Q p → x ∉ l' →
        nxt (task_pool k') x = None ∧ prv (task_pool k') x = None) →
  (∀ x, data k' !! x = g x <$> data k !! x) →
  (∀ x t, priority (g x t) = priority t) →
  LInv k' (<[p := l']> Q).
Proof.
  intros HI Hlen Hused Hhead Hring Hframe Hnew Hold Hdata Hf.
  assert (∀ x t, task_pool k !! x = Some t →
            ∃ t', task_pool k' !! x = Some t' ∧ priority t' = priority t)
    as Hfwd.
  { intros x t Ht. destruct (data_map_fwd _ _ _ _ _ Hdata Ht) as (t' & ? & E).
    exists t'. split; [done|]. apply (f_equal priority) in E.
    simpl in E. by rewrite Hf in E. }
  assert (∀ x t', task_pool k' !! x = Some t' →
            ∃ t, task_pool k !! x = Some t ∧ priority t' = priority t)
    as Hbwd.
  { intros x t' Ht'.
    destruct (data_map_bwd _ _ _ _ _ Hdata Ht') as (t & ? & E).
    exists t. split; [done|]. apply (f_equal priority) in E.
    simpl in E. by rewrite Hf in E. }
  assert (∀ q x, q ≠ p → x ∈ Q q → (x ∉ Q p) ∧ (x ∉ l')) as Hother.
  { intros q x Hq Hx. split.
    - intros Hx'. apply Hq. by eapply LInv_disjoint.
    - intros Hx'. destruct (Hnew _ Hx') as (t & Ht & <-).
      destruct (linv_prio _ _ HI _ _ Hx) as (t2 & Ht2 & <-). congruence. }
  constructor.
  - by rewrite Hlen, (linv_pool_len _ _ HI).
  - by rewrite Hused, (linv_used_len _ _ HI).
  - done.
  - intros q. destruct (decide (q = p)) as [->|Hq].
    + by rewrite fn_lookup_insert.
    + rewrite fn_lookup_insert_ne by done.
      eapply ring_frame; [|apply (linv_ring _ _ HI)].
      intros x Hx. destruct (Hother _ _ Hq Hx). by apply Hframe.
  - intros q x. destruct (decide (q = p)) as [->|Hq].
    + rewrite fn_lookup_insert. intros Hx.
      destruct (Hnew _ Hx) as (t & Ht & <-).
      destruct (Hfwd _ _ Ht) as (t' & ? & ?). eauto.
    + rewrite fn_lookup_insert_ne by done. intros Hx.
      destruct (linv_prio _ _ HI _ _ Hx) as (t & Ht & <-).
      destruct (Hfwd _ _ Ht) as (t' & ? & ?). eauto.
  - intros x t' Ht'. destruct (Hbwd _ _ Ht') as (t & Ht & ->).
    by eapply linv_prio_lt.
  - intros x t' Ht' Hx. destruct (Hbwd _ _ Ht') as (t & Ht & E).
    rewrite <-(nxt_lookup _ _ _ Ht'), <-(prv_lookup _ _ _ Ht').
    rewrite E in Hx.
    destruct (decide (priority t = p)) as [Hp|Hp].
    + rewrite Hp, fn_lookup_insert in Hx.
      destruct (decide (x ∈ Q p)) as [Hin|Hin]; [by apply Hold|].
      destruct (Hframe x Hin Hx) as [-> ->].
      rewrite (nxt_lookup _ _ _ Ht), (prv_lookup _ _ _ Ht).
      apply (linv_unlinked _ _ HI _ _ Ht). by rewrite Hp.
    + rewrite fn_lookup_insert_ne in Hx by done.
      assert (x ∉ Q p) as Hin.
      { intros Hin. destruct (linv_prio _ _ HI _ _ Hin) as (t2 & ? & ?).
        congruence. }
      assert (x ∉ l') as Hin'.
      { intros Hin'. destruct (Hnew _ Hin') as (t2 & ? & ?). congruence. }
      destruct (Hframe x Hin Hin') as [-> ->].
      rewrite (nxt_lookup _ _ _ Ht), (prv_lookup _ _ _ Ht).
      by apply (linv_unlinked _ _ HI _ _ Ht).
Qed.

(** ** Enqueue *)

Lemma add_spec k Q task t :
  LInv k Q → task_pool k !! task = Some t → task ∉ Q (priority t) →
  ∃ k', add_task_to_ready_queue task k = Some k' ∧ frame_globals k k' ∧
        LInv k' (<[priority t := Q (priority t) ++ [task]]> Q) ∧
        data k' = alter (set_state TASK_READY) task (data k).
Proof.
  intros HI Ht Hnin. set (p := priority t) in *.
  assert (p < PRIORITY_LEVELS)%nat as Hp by by eapply linv_prio_lt.
  assert (task < length (task_pool k))%nat as Hlt by by eapply lookup_lt_Some.
  pose proof (linv_head _ _ HI _ Hp) as Hhead.
  pose proof (linv_ring _ _ HI p) as Hring.
  assert (∀ x, x ∈ Q p ++ [task] →
            ∃ t0, task_pool k !! x = Some t0 ∧ priority t0 = p) as Hnew.
  { intros x [Hx| ->%list_elem_of_singleton]%elem_of_app; [|by eauto].
    by eapply linv_prio. }
  destruct (Q p) as [|h r] eqn:EQ.
  - (* empty queue *)
    eexists. split; [by apply add_exec_empty|].
    split; [reflexivity|].
    assert (data (set_queue (priority t) (Some task)
              (set_task_pool
                (alter (set_prev (Some task)) task
                  (alter (set_next (Some task)) task
                     (alter (set_state TASK_READY) task (task_pool k)))) k))
            = alter (set_state TASK_READY) task (data k)) as Hdata.
    { unfold data. simpl. rewrite !strip_alter_link by done.
      by apply strip_alter_data. }
    split; [|done].
    eapply LInv_requeue with (g := at_slot task (set_state TASK_READY));
      try done; [..|by apply data_alter_map|by intros; unfold at_slot; case_decide].
    + simpl. by rewrite !length_alter.
    + intros q Hq. simpl. destruct (decide (q = p)) as [->|Hne].
      * rewrite fn_lookup_insert. apply list_lookup_insert_eq.
        by eapply lookup_lt_Some.
      * rewrite fn_lookup_insert_ne, list_lookup_insert_ne by done.
        by apply (linv_head _ _ HI).
    + simpl. apply ring_singleton.
      * rewrite nxt_alter_keep, nxt_alter_set_next, decide_True;
          [done..|by rewrite !length_alter|done].
      * rewrite prv_alter_set_prev, decide_True;
          [done..|by rewrite !length_alter].
    + intros x _ Hx. simpl.
      assert (x ≠ task) by set_solver.
      rewrite nxt_alter_keep, nxt_alter_set_next, decide_False,
        nxt_alter_keep by (done || by rewrite !length_alter).
      rewrite prv_alter_set_prev, decide_False, !prv_alter_keep
        by (done || by rewrite !length_alter). done.
    + rewrite EQ. set_solver.
  - (* non-empty queue: insertion before the head [h], after the tail [z] *)
    destruct (last_is_Some (h :: r)) as [_ [z Hz]]; [done|].
    destruct (ring_closed _ _ _ _ _ Hring Hz) as [HNz HPh].
    assert (h ≠ task) as Hh by set_solver.
    assert (z ∈ Q p) as Hzin by (rewrite EQ; by apply last_Some_elem_of).
    assert (z ≠ task) as Hzt by (rewrite EQ in Hzin; set_solver).
    assert (z < length (task_pool k))%nat as Hzl by by eapply LInv_member_lt.
    assert (h < length (task_pool k))%nat as Hhl.
    { eapply LInv_member_lt; [done|]. rewrite EQ. set_solver. }
    unfold prv in HPh. destruct (task_pool k !! h) as [hd|] eqn:Ehd; [|done].
    simpl in HPh.
    eexists. split; [by eapply add_exec_nonempty|].
    split; [reflexivity|].
    set (pool' := alter _ h _).
    assert (∀ x, nxt pool' x =
                 if decide (x = z) then Some task
                 else if decide (x = task) then Some h
                 else nxt (task_pool k) x) as HN.
    { intros x. unfold pool'.
      rewrite nxt_alter_keep, nxt_alter_set_next, nxt_alter_keep,
        nxt_alter_set_next, nxt_alter_keep
        by (done || by rewrite !length_alter). done. }
    assert (∀ x, prv pool' x =
                 if decide (x = h) then Some task
                 else if decide (x = task) then Some z
                 else prv (task_pool k) x) as HP.
    { intros x. unfold pool'.
      rewrite prv_alter_set_prev, prv_alter_keep, prv_alter_set_prev,
        !prv_alter_keep by (done || by rewrite !length_alter). done. }
    assert (data (set_task_pool pool' k)
            = alter (set_state TASK_READY) task (data k)) as Hdata.
    { unfold data, pool'. simpl. rewrite !strip_alter_link by done.
      by apply strip_alter_data. }
    split; [|done].
    eapply LInv_requeue with (g := at_slot task (set_state TASK_READY));
      try done; [..|by apply data_alter_map|by intros; unfold at_slot; case_decide].
    + simpl. unfold pool'. by rewrite !length_alter.
    + intros q Hq. simpl. destruct (decide (q = p)) as [->|Hne].
      * by rewrite fn_lookup_insert, Hhead.
      * rewrite fn_lookup_insert_ne by done. by apply (linv_head _ _ HI).
    + simpl. eapply ring_add_tail; [done|done|done|..].
      * by rewrite HN, decide_False, decide_True.
      * by rewrite HP, decide_False, decide_True.
      * by rewrite HN, decide_True.
      * by rewrite HP, decide_True.
      * intros x ??. by rewrite HN, !decide_False.
      * intros x ??. by rewrite HP, !decide_False.
    + intros x Hx1 Hx2. simpl.
      assert (x ≠ task) by set_solver.
      assert (x ≠ h) by (rewrite EQ in Hx1; set_solver).
      assert (x ≠ z) by (intros ->; done).
      by rewrite HN, HP, !decide_False.
    + rewrite EQ. set_solver.
Qed.

(** ** Dequeue *)

Lemma filter_ne_notin (l : list nat) (t : nat) :
  t ∉ l → filter (λ x, x ≠ t) l = l.
Proof.
  induction l as [|a l IH]; [done|]. intros [? ?]%not_elem_of_cons.
  rewrite filter_cons_True by done. f_equal. by apply IH.
Qed.

Lemma filter_ne_split (l1 l2 : list nat) (t : nat) :
  NoDup (l1 ++ t :: l2) → filter (λ x, x ≠ t) (l1 ++ t :: l2) = l1 ++ l2.
Proof.
  intros Hnd. apply NoDup_app in Hnd as (_ & H1 & [H2 _]%NoDup_cons).
  rewrite filter_app, filter_cons_False by naive_solver.
  rewrite !filter_ne_notin; [done..|]. intros Hin. apply (H1 _ Hin). set_solver.
Qed.

Lemma remove_exec_single k task t h :
  task_pool k !! task = Some t →
  ready_queues k !! priority t = Some (Some h) →
  next t = Some task →
  remove_task_from_ready_queue task k =
    Some (set_task_pool
            (alter (set_prev None) task
               (alter (set_next None) task (task_pool k)))
            (set_queue (priority t) None k)).
Proof.
  intros Ht Hq Hn. unfold remove_task_from_ready_queue.
  rewrite Ht. simpl. rewrite Hq. simpl.
  rewrite decide_True by done. simpl.
  assert (task < length (task_pool k))%nat as Hlt by by eapply lookup_lt_Some.
  rewrite update_tcb_lt by (simpl; by rewrite ?length_alter). simpl.
  rewrite update_tcb_lt by (simpl; by rewrite ?length_alter). done.
Qed.

Lemma remove_exec_multi k task t h n z :
  task_pool k !! task = Some t →
  ready_queues k !! priority t = Some (Some h) →
  next t = Some n → prev t = Some z → n ≠ task → z ≠ task →
  (n < length (task_pool k))%nat → (z < length (task_pool k))%nat →
  remove_task_from_ready_queue task k =
    Some (set_task_pool
            (alter (set_prev None) task
               (alter (set_next None) task
                  (alter (set_prev (Some z)) n
                     (alter (set_next (Some n)) z (task_pool k)))))
            (if decide (h = task) then set_queue (priority t) (Some n) k
             else k)).
Proof.
  intros Ht Hq Hn Hz Hnt Hzt Hnl Hzl. unfold remove_task_from_ready_queue.
  rewrite Ht. simpl. rewrite Hq. simpl.
  rewrite decide_False by congruence. rewrite Hz. simpl.
  assert (task < length (task_pool k))%nat as Hlt by by eapply lookup_lt_Some.
  rewrite update_tcb_lt by (simpl; by rewrite ?length_alter). simpl.
  rewrite list_lookup_alter_ne, Ht by done. simpl. rewrite Hn. simpl.
  rewrite update_tcb_lt by (simpl; by rewrite ?length_alter). simpl.
  rewrite !list_lookup_alter_ne, Ht by done. simpl. rewrite Hq. simpl.
  destruct (decide (h = task)) as [->|Hh].
  - rewrite decide_True by done. simpl.
    rewrite update_tcb_lt by (simpl; by rewrite ?length_alter). simpl.
    rewrite update_tcb_lt by (simpl; by rewrite ?length_alter).
    by rewrite ?Hn, ?Hz.
  - rewrite decide_False by congruence. simpl.
    rewrite update_tcb_lt by (simpl; by rewrite ?length_alter). simpl.
    rewrite update_tcb_lt by (simpl; by rewrite ?length_alter).
    by rewrite ?Hn, ?Hz.
Qed.

Lemma remove_spec k Q task t :
  LInv k Q → task_pool k !! task = Some t → task ∈ Q (priority t) →
  ∃ k', remove_task_from_ready_queue task k = Some k' ∧ frame_globals k k' ∧
        LInv k' (<[priority t := filter (λ x, x ≠ task) (Q (priority t))]> Q) ∧
        data k' = data k.
Proof.
  intros HI Ht Hin. set (p := priority t) in *.
  assert (p < PRIORITY_LEVELS)%nat as Hp by by eapply linv_prio_lt.
  assert (task < length (task_pool k))%nat as Hlt by by eapply lookup_lt_Some.
  pose proof (linv_head _ _ HI _ Hp) as Hhead.
  pose proof (linv_ring _ _ HI p) as Hring.
  assert (∀ x, x ∈ Q p → (x < length (task_pool k))%nat) as Hvalid.
  { intros x Hx. by eapply LInv_member_lt. }
  destruct (list_elem_of_split _ _ Hin) as (l1 & l2 & EQ).
  rewrite EQ in *. rewrite filter_ne_split by apply Hring.
  assert (∃ h, head (l1 ++ task :: l2) = Some h ∧ (h = task ↔ l1 = []))
    as (h & Hh & Hht).
  { destruct l1 as [|a l1]; simpl; [exists task; naive_solver|].
    exists a. split; [done|]. split; [|done]. intros ->.
    destruct Hring as [Hnd _]. apply NoDup_cons in Hnd as [Hnd _]. set_solver. }
  rewrite Hh in Hhead.
  pose proof (ring_rotate_app _ _ _ _ Hring) as Hrot. simpl in Hrot.
  destruct (decide (l2 ++ l1 = [])) as [Hnil|Hnil].
  - (* the only member *)
    apply app_eq_nil in Hnil as [-> ->]. simpl in *. simplify_eq.
    destruct (ring_closed _ _ _ _ _ Hring eq_refl) as [HNt _].
    rewrite (nxt_lookup _ _ _ Ht) in HNt.
    eexists. split; [by eapply remove_exec_single|].
    split; [reflexivity|].
    assert (data (set_task_pool
                    (alter (set_prev None) h
                       (alter (set_next None) h (task_pool k)))
                    (set_queue (priority t) None k))
            = data k) as Hdata.
    { unfold data. simpl. by rewrite !strip_alter_link by done. }
    split; [|done].
    eapply LInv_requeue with (g := λ _, id);
      try done; [..|by apply data_eq_map].
    + simpl. by rewrite !length_alter.
    + intros q Hq. simpl. destruct (decide (q = p)) as [->|Hne].
      * rewrite fn_lookup_insert. apply list_lookup_insert_eq.
        by eapply lookup_lt_Some.
      * rewrite fn_lookup_insert_ne, list_lookup_insert_ne by done.
        by apply (linv_head _ _ HI).
    + apply ring_nil.
    + intros x Hx _. simpl. rewrite EQ in Hx. assert (x ≠ h) by set_solver.
      rewrite nxt_alter_keep, nxt_alter_set_next, decide_False
        by (done || by rewrite ?length_alter).
      by rewrite prv_alter_set_prev, decide_False, prv_alter_keep
        by (done || by rewrite ?length_alter).
    + set_solver.
    + rewrite EQ. intros x ->%list_elem_of_singleton _. simpl.
      rewrite nxt_alter_keep, nxt_alter_set_next, decide_True
        by (done || by rewrite ?length_alter).
      by rewrite prv_alter_set_prev, decide_True
        by (done || by rewrite ?length_alter).
  - (* unlink between the neighbours [z] and [n] *)
    destruct (ring_head_neighbours _ _ _ _ Hrot Hnil)
      as (n & z & HNt & HPt & Hn & Hz & Hhn & _).
    assert (NoDup (task :: l2 ++ l1)) as Hnd by apply Hrot.
    apply NoDup_cons in Hnd as [Hnotin _].
    assert (n ≠ task ∧ z ≠ task) as [Hnt Hzt] by (split; intros ->; done).
    assert (n ∈ l1 ++ l2 ∧ z ∈ l1 ++ l2) as [Hn' Hz'] by set_solver.
    assert (n < length (task_pool k))%nat by (apply Hvalid; set_solver).
    assert (z < length (task_pool k))%nat by (apply Hvalid; set_solver).
    pose proof HNt as Hnext. pose proof HPt as Hprev.
    rewrite (nxt_lookup _ _ _ Ht) in Hnext.
    rewrite (prv_lookup _ _ _ Ht) in Hprev.
    eexists. split; [by eapply remove_exec_multi|].
    split; [by destruct (decide (h = task))|].
    set (pool' := alter _ task _).
    assert (∀ x, nxt pool' x =
                 if decide (x = task) then None
                 else if decide (x = z) then Some n
                 else nxt (task_pool k) x) as HN.
    { intros x. unfold pool'.
      rewrite nxt_alter_keep, nxt_alter_set_next, nxt_alter_keep,
        nxt_alter_set_next by (done || by rewrite ?length_alter). done. }
    assert (∀ x, prv pool' x =
                 if decide (x = task) then None
                 else if decide (x = n) then Some z
                 else prv (task_pool k) x) as HP.
    { intros x. unfold pool'.
      rewrite prv_alter_set_prev, prv_alter_keep, prv_alter_set_prev,
        prv_alter_keep by (done || by rewrite ?length_alter). done. }
    assert (∀ k0, data (set_task_pool pool' k0) = data k) as Hdata.
    { intros k0. unfold data, pool'. simpl.
      by rewrite !strip_alter_link by done. }
    split; [|done].
    eapply LInv_requeue with (g := λ _, id);
      try done; [..|by apply data_eq_map].
    + simpl. unfold pool'. by rewrite !length_alter.
    + by destruct (decide (h = task)).
    + intros q Hq. destruct (decide (q = p)) as [->|Hne].
      * rewrite fn_lookup_insert.
        destruct (decide (h = task)) as [Heq|Hneq]; simpl.
        -- apply Hht in Heq as ->. simpl in *. rewrite app_nil_r in Hhn.
           rewrite Hhn. apply list_lookup_insert_eq. by eapply lookup_lt_Some.
        -- rewrite Hhead. destruct l1 as [|a l1]; [exfalso; apply Hneq; by apply Hht|].
           simpl in *. by simplify_eq.
      * rewrite fn_lookup_insert_ne by done.
        destruct (decide (h = task)); simpl.
        -- rewrite list_lookup_insert_ne by done. by apply (linv_head _ _ HI).
        -- by apply (linv_head _ _ HI).
    + simpl. eapply ring_remove; [done|..].
      * intros E. apply app_eq_nil in E as [-> ->]. done.
      * done.
      * done.
      * by rewrite HN, decide_False, decide_True.
      * by rewrite HP, decide_False, decide_True.
      * intros x ??. by rewrite HN, !decide_False.
      * intros x ??. by rewrite HP, !decide_False.
    + intros x Hx1 Hx2. simpl. rewrite EQ in Hx1.
      assert (x ≠ task) by set_solver.
      assert (x ≠ n) by (intros ->; done).
      assert (x ≠ z) by (intros ->; done).
      by rewrite HN, HP, !decide_False.
    + intros x Hx. apply (linv_prio _ _ HI). rewrite EQ. set_solver.
    + intros x Hx1 Hx2. simpl. rewrite EQ in Hx1.
      assert (x = task) as -> by set_solver.
      by rewrite HN, HP, !decide_True.
Qed.

(** ** Updates that leave the rings alone *)

Lemma LInv_ext k Q Q' : (∀ p, Q p = Q' p) → LInv k Q → LInv k Q'.
Proof.
  intros HQ [H1 H2 H3 H4 H5 H6 H7]. constructor; try done.
  - intros p Hp. rewrite <-HQ. by apply H3.
  - intros p. rewrite <-HQ. apply H4.
  - intros p x. rewrite <-HQ. apply H5.
  - intros x t Ht. rewrite <-HQ. by apply H7.
Qed.

Lemma fn_insert_id (Q : nat → list nat) p q : <[p := Q p]> Q q = Q q.
Proof.
  destruct (decide (q = p)) as [->|].
  - by rewrite fn_lookup_insert.
  - by rewrite fn_lookup_insert_ne.
Qed.

(** The invariant reads the pool, the used flags and the queue heads only. *)
Lemma LInv_globals k k' Q :
  task_pool k' = task_pool k → task_pool_used k' = task_pool_used k →
  ready_queues k' = ready_queues k → LInv k Q → LInv k' Q.
Proof.
  intros E1 E2 E3 [H1 H2 H3 H4 H5 H6 H7].
  constructor; rewrite ?E1, ?E2, ?E3; done.
Qed.

(** A field assignment other than to the links and the priority. *)
Lemma update_data_spec k Q i f t :
  LInv k Q → task_pool k !! i = Some t →
  (∀ t, next (f t) = next t) → (∀ t, prev (f t) = prev t) →
  (∀ t, priority (f t) = priority t) → (∀ t, strip (f t) = f (strip t)) →
  update_tcb i f k = Some (set_task_pool (alter f i (task_pool k)) k) ∧
  LInv (set_task_pool (alter f i (task_pool k)) k) Q ∧
  data (set_task_pool (alter f i (task_pool k)) k) = alter f i (data k).
Proof.
  intros HI Ht Hn Hp Hprio Hs.
  split; [by eapply update_tcb_eq|].
  assert (data (set_task_pool (alter f i (task_pool k)) k)
          = alter f i (data k)) as Hdata.
  { unfold data. simpl. by apply strip_alter_data. }
  split; [|done].
  eapply LInv_ext; [apply (fn_insert_id Q 0%nat)|].
  eapply LInv_requeue with (g := at_slot i f); try done.
  - simpl. by rewrite length_alter.
  - intros q Hq. rewrite fn_insert_id. by apply (linv_head _ _ HI).
  - simpl. eapply ring_frame; [|apply (linv_ring _ _ HI)].
    intros x _. by rewrite nxt_alter_keep, prv_alter_keep.
  - intros x _ _. simpl. by rewrite nxt_alter_keep, prv_alter_keep.
  - intros x Hx. by apply (linv_prio _ _ HI).
  - by apply data_alter_map.
  - intros x t0. unfold at_slot. by case_decide.
Qed.

(** ** Selection *)

Lemma get_next_from_skip ps1 ps2 k :
  (∀ q, q ∈ ps1 → ready_queues k !! q = Some None) →
  get_next_from (ps1 ++ ps2) k = get_next_from ps2 k.
Proof.
  induction ps1 as [|p ps1 IH]; [done|]. intros H. simpl.
  rewrite (H p) by set_solver. simpl. apply IH. intros q Hq. apply H. set_solver.
Qed.

Lemma highest_from_skip ps1 ps2 k :
  (∀ q, q ∈ ps1 → ready_queues k !! q = Some None) →
  highest_from (ps1 ++ ps2) k = highest_from ps2 k.
Proof.
  induction ps1 as [|p ps1 IH]; [done|]. intros H. simpl.
  rewrite (H p) by set_solver. simpl. apply IH. intros q Hq. apply H. set_solver.
Qed.

Lemma seq_split_at (n p : nat) :
  (p < n)%nat → seq 0 n = seq 0 p ++ p :: seq (S p) (n - S p).
Proof.
  intros Hp. replace n with (p + S (n - S p))%nat at 1 by lia.
  by rewrite seq_app.
Qed.

(** The first non-empty queue, if there is one. *)
Lemma first_nonempty (Q : nat → list nat) (n : nat) :
  (∀ q, (q < n)%nat → Q q = []) ∨
  (∃ p a r, (p < n)%nat ∧ Q p = a :: r ∧ ∀ q, (q < p)%nat → Q q = []).
Proof.
  induction n as [|n [IH|(p & a & r & ? & ? & ?)]].
  - left. lia.
  - destruct (Q n) as [|a r] eqn:E.
    + left. intros q Hq. destruct (decide (q = n)) as [->|]; [done|].
      apply IH. lia.
    + right. exists n, a, r. split; [lia|]. split; [done|]. done.
  - right. exists p, a, r. split; [lia|]. done.
Qed.

Lemma get_next_spec k Q p a r :
  LInv k Q → (p < PRIORITY_LEVELS)%nat → Q p = a :: r →
  (∀ q, (q < p)%nat → Q q = []) →
  scheduler_get_next_task k = Some (Some a, set_queue p (head (r ++ [a])) k) ∧
  LInv (set_queue p (head (r ++ [a])) k) (<[p := r ++ [a]]> Q).
Proof.
  intros HI Hp EQ Hempty.
  pose proof (linv_head _ _ HI _ Hp) as Hhead. rewrite EQ in Hhead.
  pose proof (linv_ring _ _ HI p) as Hring. rewrite EQ in Hring.
  destruct (linv_prio _ _ HI p a) as (ta & Hta & Hpa); [rewrite EQ; set_solver|].
  assert (next ta = head (r ++ [a])) as Hnext.
  { rewrite <-(nxt_lookup _ _ _ Hta). destruct r as [|b r].
    - by destruct (ring_closed _ _ _ _ _ Hring eq_refl).
    - simpl. by eapply ring_head_next. }
  split.
  - unfold scheduler_get_next_task.
    rewrite (seq_split_at _ _ Hp), get_next_from_skip.
    + simpl. rewrite Hhead. simpl. rewrite Hta. simpl. by rewrite Hnext.
    + intros q [_ Hq]%elem_of_seq. rewrite (linv_head _ _ HI) by lia.
      rewrite Hempty by lia. done.
  - eapply LInv_requeue with (g := λ _, id); try done.
    + intros q Hq. simpl. destruct (decide (q = p)) as [->|Hne].
      * rewrite fn_lookup_insert. apply list_lookup_insert_eq.
        by eapply lookup_lt_Some.
      * rewrite fn_lookup_insert_ne, list_lookup_insert_ne by done.
        by apply (linv_head _ _ HI).
    + simpl. by apply ring_rotate.
    + intros x Hx. apply (linv_prio _ _ HI). rewrite EQ. set_solver.
    + intros x Hx1 Hx2. rewrite EQ in Hx1. set_solver.
    + by apply data_eq_map.
Qed.

Lemma get_next_idle k Q :
  LInv k Q → (∀ q, (q < PRIORITY_LEVELS)%nat → Q q = []) →
  scheduler_get_next_task k = Some (idle_task k, k).
Proof.
  intros HI Hempty. unfold scheduler_get_next_task.
  rewrite <-(app_nil_r (seq 0 PRIORITY_LEVELS)), get_next_from_skip; [done|].
  intros q [_ Hq]%elem_of_seq. rewrite (linv_head _ _ HI) by lia.
  by rewrite Hempty by lia.
Qed.

Lemma highest_spec k Q p a r :
  LInv k Q → (p < PRIORITY_LEVELS)%nat → Q p = a :: r →
  (∀ q, (q < p)%nat → Q q = []) →
  get_highest_priority_ready_task k = Some (Some a).
Proof.
  intros HI Hp EQ Hempty. unfold get_highest_priority_ready_task.
  rewrite (seq_split_at _ _ Hp), highest_from_skip.
  - simpl. rewrite (linv_head _ _ HI), EQ by done. done.
  - intros q [_ Hq]%elem_of_seq. rewrite (linv_head _ _ HI) by lia.
    rewrite Hempty by lia. done.
Qed.

Lemma highest_none k Q :
  LInv k Q → (∀ q, (q < PRIORITY_LEVELS)%nat → Q q = []) →
  get_highest_priority_ready_task k = Some None.
Proof.
  intros HI Hempty. unfold get_highest_priority_ready_task.
  rewrite <-(app_nil_r (seq 0 PRIORITY_LEVELS)), highest_from_skip; [done|].
  intros q [_ Hq]%elem_of_seq. rewrite (linv_head _ _ HI) by lia.
  by rewrite Hempty by lia.
Qed.

(** ** Context switch *)

(** Field assignments that touch neither the links nor the priority. *)
Class DataUpdate (f : tcb_t → tcb_t) : Prop := {
  du_next : ∀ t, next (f t) = next t;
  du_prev : ∀ t, prev (f t) = prev t;
  du_priority : ∀ t, priority (f t) = priority t;
  du_strip : ∀ t, strip (f t) = f (strip t)
}.

#[global] Instance du_state v : DataUpdate (set_state v).
Proof. by constructor. Qed.
#[global] Instance du_slice v : DataUpdate (set_time_slice_remaining v).
Proof. by constructor. Qed.
#[global] Instance du_runtime v : DataUpdate (set_total_runtime v).
Proof. by constructor. Qed.
#[global] Instance du_last_run v : DataUpdate (set_last_run_time v).
Proof. by constructor. Qed.
#[global] Instance du_wake v : DataUpdate (set_wake_time v).
Proof. by constructor. Qed.
#[global] Instance du_compose f g :
  DataUpdate f → DataUpdate g → DataUpdate (f ∘ g).
Proof.
  intros [] []. constructor; intros t; simpl; congruence.
Qed.

Lemma update_data_run k Q i f t `{!DataUpdate f} :
  LInv k Q → task_pool k !! i = Some t →
  ∃ k', update_tcb i f k = Some k' ∧ frame_globals k k' ∧ LInv k' Q ∧
        data k' = alter f i (data k) ∧ task_pool k' !! i = Some (f t).
Proof.
  intros HI Ht.
  destruct (update_data_spec k Q i f t HI Ht) as (? & ? & ?);
    [apply du_next|apply du_prev|apply du_priority|apply du_strip|].
  eexists. split_and!; [done..|]. simpl. by rewrite list_lookup_alter_eq, Ht.
Qed.

(** Globals that [frame_globals] keeps. *)
Lemma frame_globals_eq k k' :
  frame_globals k k' →
  current_task k' = current_task k ∧ idle_task k' = idle_task k ∧
  next_task_id k' = next_task_id k ∧
  scheduler_running k' = scheduler_running k ∧
  system_tick_count k' = system_tick_count k ∧ stats k' = stats k ∧
  task_pool_used k' = task_pool_used k.
Proof. intros ->. done. Qed.

(** What "save current task context" does to the data of the task. *)
Definition save_data (now : Z) (d : tcb_t) : tcb_t :=
  if decide (state d = TASK_RUNNING)
  then set_state TASK_READY
         (set_total_runtime (u32 (total_runtime d + 1))
            (set_last_run_time now d))
  else set_last_run_time now d.

Lemma save_context_spec k Q c tc :
  LInv k Q → task_pool k !! c = Some tc →
  (state tc = TASK_RUNNING → c ∉ Q (priority tc)) →
  ∃ k', save_context c k = Some k' ∧ frame_globals k k' ∧
        LInv k' (if decide (state tc = TASK_RUNNING)
                 then <[priority tc := Q (priority tc) ++ [c]]> Q else Q) ∧
        data k' = alter (save_data (system_tick_count k)) c (data k).
Proof.
  intros HI Hc Hnin. unfold save_context.
  destruct (update_data_run k Q c (set_last_run_time (system_tick_count k)) tc
              HI Hc) as (k1 & -> & Hf1 & HI1 & Hd1 & Hc1).
  simpl. rewrite Hc1. simpl.
  destruct (decide (state tc = TASK_RUNNING)) as [Hrun|Hrun].
  - destruct (update_data_run k1 Q c
                (set_total_runtime (u32 (total_runtime tc + 1))) _ HI1 Hc1)
      as (k2 & -> & Hf2 & HI2 & Hd2 & Hc2).
    simpl. rewrite Hc2. simpl. rewrite decide_True by done.
    destruct (update_data_run k2 Q c (set_state TASK_READY) _ HI2 Hc2)
      as (k3 & -> & Hf3 & HI3 & Hd3 & Hc3).
    simpl.
    destruct (add_spec k3 Q c _ HI3 Hc3) as (k' & -> & Hf' & HI' & Hd');
      [by apply Hnin|].
    exists k'. split; [done|]. split; [|split; [done|]].
    + eauto using frame_globals_trans.
    + rewrite Hd', Hd3, Hd2, Hd1. rewrite !list_alter_alter_eq.
      apply list_alter_ext; [|done]. intros d Hd. unfold save_data, compose.
      rewrite (data_lookup _ _ _ Hc) in Hd. injection Hd as <-.
      by rewrite decide_True by done.
  - simpl. rewrite Hc1. simpl. rewrite decide_False by done.
    eexists. split; [done|]. split; [done|]. split; [done|].
    rewrite Hd1. apply list_alter_ext; [|done]. intros d Hd.
    unfold save_data. rewrite (data_lookup _ _ _ Hc) in Hd. injection Hd as <-.
    by rewrite decide_False by done.
Qed.

Lemma frame_globals_set_current v k k1 k' :
  frame_globals k k1 → frame_globals (set_current_task v k1) k' →
  frame_globals (set_current_task v k) k'.
Proof.
  unfold frame_globals. destruct k, k1, k'. simpl. intros [=] [=]. by subst.
Qed.

Lemma frame_globals_switch v k k1 k' :
  frame_globals k k1 →
  frame_globals (set_current_task v (incr_context_switches k1)) k' →
  frame_globals (set_current_task v (incr_context_switches k)) k'.
Proof.
  unfold frame_globals. destruct k, k1, k'. simpl. intros [=] [=]. by subst.
Qed.

(** What "load next task context" does to the data of the task. *)
Definition load_data (d : tcb_t) : tcb_t :=
  set_time_slice_remaining TIME_SLICE_MS (set_state TASK_RUNNING d).

Lemma load_context_spec k Q n tn :
  LInv k Q → task_pool k !! n = Some tn → n ∈ Q (priority tn) →
  ∃ k', load_context n k = Some k' ∧
        frame_globals (set_current_task (Some n) k) k' ∧
        LInv k' (<[priority tn := filter (λ x, x ≠ n) (Q (priority tn))]> Q) ∧
        data k' = alter load_data n (data k).
Proof.
  intros HI Hn Hin. unfold load_context.
  assert (LInv (set_current_task (Some n) k) Q) as HI0
    by by apply (LInv_globals k).
  destruct (update_data_run _ Q n (set_state TASK_RUNNING) tn HI0 Hn)
    as (k1 & -> & Hf1 & HI1 & Hd1 & Hn1).
  simpl.
  destruct (update_data_run k1 Q n (set_time_slice_remaining TIME_SLICE_MS)
              _ HI1 Hn1) as (k2 & -> & Hf2 & HI2 & Hd2 & Hn2).
  simpl.
  destruct (remove_spec k2 Q n _ HI2 Hn2) as (k' & -> & Hf' & HI' & Hd');
    [done|].
  exists k'. split; [done|]. split; [|split; [done|]].
  - eauto using frame_globals_trans.
  - rewrite Hd', Hd2, Hd1, list_alter_alter_eq. done.
Qed.

(** The queues after [context_switch (Some c) (Some n)]: [c] is appended to
    its queue if it was running, then [n] is taken out of its queue. *)
Definition queues_after_save (Q : nat → list nat) (c : nat) (tc : tcb_t)
  : nat → list nat :=
  if decide (state tc = TASK_RUNNING)
  then <[priority tc := Q (priority tc) ++ [c]]> Q else Q.

Definition queues_after_load (Q : nat → list nat) (n : nat) (tn : tcb_t)
  : nat → list nat :=
  <[priority tn := filter (λ x, x ≠ n) (Q (priority tn))]> Q.

Lemma queues_after_save_incl Q c tc p x :
  x ∈ Q p → x ∈ queues_after_save Q c tc p.
Proof.
  intros Hx. unfold queues_after_save. case_decide; [|done].
  destruct (decide (p = priority tc)) as [->|].
  - rewrite fn_lookup_insert. set_solver.
  - by rewrite fn_lookup_insert_ne.
Qed.

Lemma context_switch_spec k Q c tc n tn :
  LInv k Q → c ≠ n →
  task_pool k !! c = Some tc → task_pool k !! n = Some tn →
  (state tc = TASK_RUNNING → c ∉ Q (priority tc)) → n ∈ Q (priority tn) →
  ∃ k', context_switch (Some c) (Some n) k = Some k' ∧
        frame_globals (set_current_task (Some n) (incr_context_switches k)) k' ∧
        LInv k' (queues_after_load (queues_after_save Q c tc) n tn) ∧
        data k' = alter load_data n
                    (alter (save_data (system_tick_count k)) c (data k)).
Proof.
  intros HI Hcn Hc Hn Hnin Hin. unfold context_switch.
  rewrite decide_False by congruence. simpl.
  assert (LInv (incr_context_switches k) Q) as HI0 by by apply (LInv_globals k).
  destruct (save_context_spec _ Q c tc HI0 Hc Hnin)
    as (k1 & -> & Hf1 & HI1 & Hd1).
  simpl.
  assert (∃ tn1, task_pool k1 !! n = Some tn1 ∧ priority tn1 = priority tn)
    as (tn1 & Hn1 & Hp1).
  { destruct (data_map_fwd _ _ _ n tn (data_alter_map _ _ _ _ Hd1))
      as (tn1 & ? & E); [done|].
    exists tn1. split; [done|]. unfold at_slot in E.
    rewrite decide_False in E by done. by apply (f_equal priority) in E. }
  destruct (load_context_spec k1 _ n tn1 HI1 Hn1) as (k' & -> & Hf' & HI' & Hd').
  { rewrite Hp1. by apply queues_after_save_incl. }
  exists k'. split; [done|]. split; [|split].
  - by eapply frame_globals_set_current.
  - unfold queues_after_load, queues_after_save. by rewrite <-Hp1.
  - by rewrite Hd', Hd1.
Qed.

Lemma context_switch_start_spec k Q n tn :
  LInv k Q → task_pool k !! n = Some tn → n ∈ Q (priority tn) →
  ∃ k', context_switch None (Some n) k = Some k' ∧
        frame_globals (set_current_task (Some n) (incr_context_switches k)) k' ∧
        LInv k' (queues_after_load Q n tn) ∧
        data k' = alter load_data n (data k).
Proof.
  intros HI Hn Hin. unfold context_switch.
  rewrite decide_False by done. simpl.
  assert (LInv (incr_context_switches k) Q) as HI0 by by apply (LInv_globals k).
  destruct (load_context_spec _ Q n tn HI0 Hn Hin) as (k' & -> & Hf' & HI' & Hd').
  exists k'. done.
Qed.

Lemma context_switch_same k c : context_switch c c k = Some k.
Proof. unfold context_switch. by rewrite decide_True. Qed.

(** * The scheduling invariant

    [SInv k Q]: the members of the ready queues are exactly the used slots
    in state [TASK_READY]; the idle task exists and is ready or running;
    a task in state [TASK_RUNNING] is the current task; once the scheduler
    runs, the current task is in state [TASK_RUNNING]. *)

Record SInv (k : kernel) (Q : nat → list nat) : Prop := mk_SInv {
  sinv_member : ∀ p x, x ∈ Q p →
    ∃ t, task_pool k !! x = Some t ∧ state t = TASK_READY ∧
         task_pool_used k !! x = Some true;
  sinv_ready : ∀ x t, task_pool k !! x = Some t →
    task_pool_used k !! x = Some true → state t = TASK_READY →
    x ∈ Q (priority t);
  sinv_idle : ∃ i t, idle_task k = Some i ∧ task_pool k !! i = Some t ∧
    task_pool_used k !! i = Some true ∧
    (state t = TASK_READY ∨ state t = TASK_RUNNING);
  sinv_running : ∀ x t, task_pool k !! x = Some t → state t = TASK_RUNNING →
    current_task k = Some x ∧ task_pool_used k !! x = Some true;
  sinv_current :
    if scheduler_running k
    then ∃ c t, current_task k = Some c ∧ task_pool k !! c = Some t ∧
                state t = TASK_RUNNING
    else current_task k = None
}.

Definition Inv (k : kernel) : Prop := ∃ Q, LInv k Q ∧ SInv k Q.

(** The scheduling invariant reads the state and priority fields, the used
    flags and three globals. *)
Lemma SInv_transfer k k' Q :
  (∀ x, (λ t, (state t, priority t)) <$> task_pool k' !! x
        = (λ t, (state t, priority t)) <$> task_pool k !! x) →
  task_pool_used k' = task_pool_used k →
  current_task k' = current_task k → idle_task k' = idle_task k →
  scheduler_running k' = scheduler_running k →
  SInv k Q → SInv k' Q.
Proof.
  intros Hsp Hu Hc Hi Hr [H1 H2 H3 H4 H5].
  assert (∀ x t', task_pool k' !! x = Some t' →
            ∃ t, task_pool k !! x = Some t ∧ state t = state t' ∧
                 priority t = priority t') as Hbwd.
  { intros x t' Ht'. specialize (Hsp x). rewrite Ht' in Hsp.
    destruct (task_pool k !! x) as [t|]; simplify_eq/=. eauto. }
  assert (∀ x t, task_pool k !! x = Some t →
            ∃ t', task_pool k' !! x = Some t' ∧ state t' = state t ∧
                  priority t' = priority t) as Hfwd.
  { intros x t Ht. specialize (Hsp x). rewrite Ht in Hsp.
    destruct (task_pool k' !! x) as [t'|]; simplify_eq/=. eauto. }
  constructor; rewrite ?Hu, ?Hc, ?Hi, ?Hr.
  - intros p x Hx. destruct (H1 p x Hx) as (t & Ht & ? & ?).
    destruct (Hfwd x t Ht) as (t' & ? & ? & ?). exists t'. split_and!; congruence.
  - intros x t' Ht' ??. destruct (Hbwd x t' Ht') as (t & ? & ? & <-).
    apply H2; congruence.
  - destruct H3 as (i & t & ? & Ht & ? & ?).
    destruct (Hfwd i t Ht) as (t' & ? & ? & ?). exists i, t'.
    split_and!; [done..|]. destruct H3; [left|right]; congruence.
  - intros x t' Ht' ?. destruct (Hbwd x t' Ht') as (t & ? & ? & ?).
    apply (H4 x t); congruence.
  - destruct (scheduler_running k); [|done].
    destruct H5 as (c & t & ? & Ht & ?).
    destruct (Hfwd c t Ht) as (t' & ? & ? & ?). exists c, t'.
    split_and!; congruence.
Qed.

(** A field assignment that keeps the state. *)
Lemma Inv_update_data k i f t `{!DataUpdate f} :
  (∀ t, state (f t) = state t) →
  Inv k → task_pool k !! i = Some t →
  ∃ k', update_tcb i f k = Some k' ∧ frame_globals k k' ∧ Inv k' ∧
        data k' = alter f i (data k).
Proof.
  intros Hst (Q & HL & HS) Ht.
  destruct (update_data_run k Q i f t HL Ht) as (k' & E & Hf & HL' & Hd & _).
  exists k'. split_and!; [done..| |done]. exists Q. split; [done|].
  destruct (frame_globals_eq _ _ Hf) as (? & ? & ? & ? & ? & ? & ?).
  eapply SInv_transfer; [|done..].
  intros x. pose proof (data_alter_map _ _ _ _ Hd x) as Hx.
  unfold data in Hx. rewrite !list_lookup_fmap in Hx.
  destruct (task_pool k !! x) as [t0|], (task_pool k' !! x) as [t0'|];
    simplify_eq/=; [|done].
  unfold at_slot in *. case_decide.
  - apply (f_equal (λ t, (state t, priority t))) in Hx. simpl in Hx.
    rewrite Hst, du_priority in Hx. simpl in Hx. by rewrite Hx.
  - apply (f_equal (λ t, (state t, priority t))) in Hx. simpl in Hx.
    by rewrite Hx.
Qed.

(** The state and the priority of slot [x]. *)
Definition sp (k : kernel) (x : nat) : option (task_state_t * nat) :=
  (λ t, (state t, priority t)) <$> task_pool k !! x.

Lemma sp_Some k x t : task_pool k !! x = Some t → sp k x = Some (state t, priority t).
Proof. unfold sp. by intros ->. Qed.

Lemma sp_inv k x s p :
  sp k x = Some (s, p) →
  ∃ t, task_pool k !! x = Some t ∧ state t = s ∧ priority t = p.
Proof.
  unfold sp. destruct (task_pool k !! x) as [t|]; intros; simplify_eq/=. eauto.
Qed.

(** The states after a data map whose effect on the state is [σ]. *)
Lemma sp_data_map k k' (g : nat → tcb_t → tcb_t)
    (σ : nat → task_state_t → task_state_t) :
  (∀ x, data k' !! x = g x <$> data k !! x) →
  (∀ x d, state (g x d) = σ x (state d)) →
  (∀ x d, priority (g x d) = priority d) →
  ∀ x, sp k' x = prod_map (σ x) id <$> sp k x.
Proof.
  intros Hd Hs Hp x. specialize (Hd x). unfold data, sp in *.
  rewrite !list_lookup_fmap in Hd.
  destruct (task_pool k !! x) as [t|], (task_pool k' !! x) as [t'|];
    simplify_eq/=; [|done].
  apply (f_equal (λ t, (state t, priority t))) in Hd. simpl in Hd.
  rewrite Hs, Hp in Hd. simpl in Hd. by rewrite Hd.
Qed.

(** A slot that is neither a queue member nor running becomes a used,
    ready member of the queue of its priority. *)
Lemma SInv_enqueue k k' Q Q' i pi :
  SInv k Q →
  (∀ p, i ∉ Q p) → current_task k ≠ Some i →
  sp k' i = Some (TASK_READY, pi) →
  (∀ x, x ≠ i → sp k' x = sp k x) →
  task_pool_used k' !! i = Some true →
  (∀ x, x ≠ i → task_pool_used k' !! x = task_pool_used k !! x) →
  (∀ p x, x ∈ Q' p ↔ x ∈ Q p ∨ (x = i ∧ p = pi)) →
  current_task k' = current_task k → idle_task k' = idle_task k →
  scheduler_running k' = scheduler_running k →
  SInv k' Q'.
Proof.
  intros [H1 H2 H3 H4 H5] Hi Hcur Hspi Hsp Hui Hu HQ Hc Hidle Hr.
  assert (∀ x t, x ≠ i → task_pool k !! x = Some t →
            ∃ t', task_pool k' !! x = Some t' ∧ state t' = state t ∧
                  priority t' = priority t) as Hfwd.
  { intros x t Hx Ht. apply sp_Some in Ht. rewrite <-Hsp in Ht by done.
    by apply sp_inv in Ht. }
  assert (∀ x t', x ≠ i → task_pool k' !! x = Some t' →
            ∃ t, task_pool k !! x = Some t ∧ state t = state t' ∧
                 priority t = priority t') as Hbwd.
  { intros x t' Hx Ht'. apply sp_Some in Ht'. rewrite Hsp in Ht' by done.
    by apply sp_inv in Ht'. }
  apply sp_inv in Hspi as (ti' & Hti' & Hsi & Hpi).
  constructor; rewrite ?Hc, ?Hidle, ?Hr.
  - intros p x [Hx|[-> ->]]%HQ.
    + assert (x ≠ i) as Hne by (intros ->; by eapply Hi).
      destruct (H1 p x Hx) as (t & Ht & ? & ?).
      destruct (Hfwd x t Hne Ht) as (t' & ? & ? & ?).
      exists t'. rewrite Hu by done. split_and!; congruence.
    + eauto.
  - intros x t' Ht' Hux Hst. apply HQ.
    destruct (decide (x = i)) as [->|Hne]; [right; split; congruence|].
    left. destruct (Hbwd x t' Hne Ht') as (t & ? & ? & <-).
    rewrite Hu in Hux by done. apply H2; congruence.
  - destruct H3 as (j & t & ? & Ht & ? & Hst).
    destruct (decide (j = i)) as [->|Hne]; [exists i, ti'; by eauto|].
    destruct (Hfwd j t Hne Ht) as (t' & ? & ? & ?). exists j, t'.
    rewrite Hu by done. split_and!; [done..|].
    destruct Hst; [left|right]; congruence.
  - intros x t' Ht' Hst.
    destruct (decide (x = i)) as [->|Hne]; [congruence|].
    destruct (Hbwd x t' Hne Ht') as (t & ? & ? & ?).
    rewrite Hu by done. apply (H4 x t); congruence.
  - destruct (scheduler_running k); [|done].
    destruct H5 as (c & t & ? & Ht & ?).
    assert (c ≠ i) as Hne by congruence.
    destruct (Hfwd c t Hne Ht) as (t' & ? & ? & ?). exists c, t'.
    split_and!; congruence.
Qed.

Lemma sp_alter k k' F i (σ : task_state_t → task_state_t) :
  data k' = alter F i (data k) →
  (∀ d, state (F d) = σ (state d)) → (∀ d, priority (F d) = priority d) →
  ∀ x, sp k' x = if decide (x = i) then prod_map σ id <$> sp k x else sp k x.
Proof.
  intros Hd Hs Hp x.
  rewrite (sp_data_map k k' (at_slot i F) (λ x, if decide (x = i) then σ else id)).
  - case_decide; [done|]. destruct (sp k x) as [[]|]; done.
  - by apply data_alter_map.
  - intros y d. unfold at_slot. by case_decide.
  - intros y d. unfold at_slot. by case_decide.
Qed.

Lemma Inv_current_running k Q c t :
  SInv k Q → current_task k = Some c → task_pool k !! c = Some t →
  scheduler_running k = true → state t = TASK_RUNNING.
Proof.
  intros HS Hc Ht Hr. pose proof (sinv_current _ _ HS) as H. rewrite Hr in H.
  destruct H as (c' & t' & ? & ? & ?). congruence.
Qed.

Lemma Inv_current_started k Q c :
  SInv k Q → current_task k = Some c → scheduler_running k = true.
Proof.
  intros HS Hc. pose proof (sinv_current _ _ HS) as H.
  destruct (scheduler_running k); [done|congruence].
Qed.

Lemma fn_insert_snoc_elem (Q : nat → list nat) p i q x :
  x ∈ <[p := Q p ++ [i]]> Q q ↔ x ∈ Q q ∨ (x = i ∧ q = p).
Proof.
  destruct (decide (q = p)) as [->|].
  - rewrite fn_lookup_insert. set_solver.
  - rewrite fn_lookup_insert_ne by done. naive_solver.
Qed.

(** ** The wake sweep *)

Definition wake_due (now : Z) (d : tcb_t) : bool :=
  bool_decide (state d = TASK_BLOCKED) && (0 <? wake_time d)
  && (wake_time d <=? now).

(** What the sweep does to the data of a slot with used flag [u]. *)
Definition wake_data (u : bool) (now : Z) (d : tcb_t) : tcb_t :=
  if u && wake_due now d then set_state TASK_READY (set_wake_time 0 d) else d.

Lemma wake_due_strip now t : wake_due now (strip t) = wake_due now t.
Proof. done. Qed.

Lemma wake_slot_spec k i u :
  Inv k → task_pool_used k !! i = Some u →
  ∃ k', wake_slot i k = Some k' ∧ frame_globals k k' ∧ Inv k' ∧
        data k' = alter (wake_data u (system_tick_count k)) i (data k).
Proof.
  intros (Q & HL & HS) Hu.
  assert (i < length (task_pool k))%nat as [t Ht]%lookup_lt_is_Some.
  { rewrite (linv_pool_len _ _ HL), <-(linv_used_len _ _ HL).
    by eapply lookup_lt_Some. }
  assert (∀ F, (∀ d, F d = d) → data k = alter F i (data k)) as Hid.
  { intros F HF. by rewrite list_alter_id. }
  unfold wake_slot. rewrite Hu. simpl. destruct u; simpl.
  2:{ exists k. split_and!; [done|apply frame_globals_refl|by exists Q|].
      by apply Hid. }
  rewrite Ht. simpl.
  change (bool_decide (state t = TASK_BLOCKED) && (0 <? wake_time t)
          && (wake_time t <=? system_tick_count k))
    with (wake_due (system_tick_count k) t).
  destruct (wake_due (system_tick_count k) t) eqn:Hdue.
  2:{ exists k. split_and!; [done|apply frame_globals_refl|by exists Q|].
      rewrite (list_alter_ext _ id _ (data k) i); [by rewrite list_alter_id| |done].
      intros d Hd. rewrite (data_lookup _ _ _ Ht) in Hd. injection Hd as <-.
      unfold wake_data. by rewrite andb_true_l, wake_due_strip, Hdue. }
  assert (state t = TASK_BLOCKED) as Hblocked.
  { unfold wake_due in Hdue. apply andb_prop in Hdue as [Hdue _].
    apply andb_prop in Hdue as [Hdue _]. by apply bool_decide_eq_true in Hdue. }
  destruct (update_data_run k Q i (set_wake_time 0) t HL Ht)
    as (k1 & -> & Hf1 & HL1 & Hd1 & Ht1).
  simpl.
  destruct (update_data_run k1 Q i (set_state TASK_READY) _ HL1 Ht1)
    as (k2 & -> & Hf2 & HL2 & Hd2 & Ht2).
  simpl.
  assert (∀ p, i ∉ Q p) as Hnotin.
  { intros p Hin. destruct (sinv_member _ _ HS p i Hin) as (t0 & ? & ? & ?).
    congruence. }
  destruct (add_spec k2 Q i _ HL2 Ht2) as (k' & -> & Hf' & HL' & Hd');
    [by apply Hnotin|].
  assert (frame_globals k k') as Hf by eauto using frame_globals_trans.
  assert (data k' = alter (set_state TASK_READY ∘ set_wake_time 0) i (data k))
    as Hd.
  { rewrite Hd', Hd2, Hd1, !list_alter_alter_eq. by apply list_alter_ext. }
  exists k'. split_and!; [done..| |].
  - eexists. split; [done|].
    destruct (frame_globals_eq _ _ Hf) as (Hc & ? & ? & ? & ? & ? & Hused).
    pose proof (sp_alter k k' _ i (λ _, TASK_READY) Hd
                  ltac:(done) ltac:(done)) as Hsp.
    eapply SInv_enqueue with (i := i) (pi := priority t); [done|done|..].
    + intros Hcur. assert (state t = TASK_RUNNING); [|congruence].
      eapply Inv_current_running; [done..|]. by eapply Inv_current_started.
    + rewrite Hsp, decide_True, (sp_Some _ _ _ Ht) by done. done.
    + intros x Hx. by rewrite Hsp, decide_False.
    + by rewrite Hused.
    + intros x _. by rewrite Hused.
    + intros p x. simpl. apply fn_insert_snoc_elem.
    + done.
    + done.
    + done.
  - rewrite Hd. apply list_alter_ext; [|done]. intros d Hdd.
    rewrite (data_lookup _ _ _ Ht) in Hdd. injection Hdd as <-.
    unfold wake_data. by rewrite andb_true_l, wake_due_strip, Hdue.
Qed.

Definition sweep_data (k : kernel) (x : nat) (d : tcb_t) : tcb_t :=
  wake_data (default false (task_pool_used k !! x)) (system_tick_count k) d.

Lemma wake_from_spec slots k :
  Inv k → NoDup slots → (∀ i, i ∈ slots → (i < MAX_TASKS)%nat) →
  ∃ k', wake_from slots k = Some k' ∧ frame_globals k k' ∧ Inv k' ∧
        ∀ x, data k' !! x =
             (if decide (x ∈ slots) then sweep_data k x else id)
               <$> data k !! x.
Proof.
  revert k. induction slots as [|i slots IH]; intros k HI Hnd Hlt.
  - exists k. split_and!; [done|apply frame_globals_refl|done|].
    intros x. rewrite decide_False by set_solver. by destruct (data k !! x).
  - apply NoDup_cons in Hnd as [Hi Hnd].
    assert (i < length (task_pool_used k))%nat as [u Hu]%lookup_lt_is_Some.
    { destruct HI as (Q & HL & _). rewrite (linv_used_len _ _ HL).
      apply Hlt. set_solver. }
    destruct (wake_slot_spec k i u HI Hu) as (k1 & E1 & Hf1 & HI1 & Hd1).
    destruct (IH k1 HI1 Hnd) as (k' & E' & Hf' & HI' & Hd').
    { intros j Hj. apply Hlt. set_solver. }
    exists k'. split_and!; [|by eauto using frame_globals_trans|done|].
    { simpl. rewrite E1. exact E'. }
    destruct (frame_globals_eq _ _ Hf1) as (_ & _ & _ & _ & Htick & _ & Hused).
    intros x. rewrite Hd', Hd1, list_lookup_alter.
    destruct (decide (x ∈ slots)) as [Hx|Hx];
      destruct (decide (i = x)) as [<-|Hne]; [done|..].
    + rewrite (decide_True (P := x ∈ i :: slots)) by set_solver.
      unfold sweep_data. by rewrite Hused, Htick.
    + rewrite (decide_True (P := i ∈ i :: slots)) by set_solver.
      unfold sweep_data. rewrite Hu. simpl. by destruct (data k !! i).
    + rewrite (decide_False (P := x ∈ i :: slots)) by set_solver. done.
Qed.

Lemma wake_sleeping_tasks_spec k :
  Inv k →
  ∃ k', wake_sleeping_tasks k = Some k' ∧ frame_globals k k' ∧ Inv k' ∧
        ∀ x, data k' !! x = sweep_data k x <$> data k !! x.
Proof.
  intros HI.
  destruct (wake_from_spec (seq 0 MAX_TASKS) k HI) as (k' & E & Hf & HI' & Hd).
  { apply NoDup_seq. }
  { intros i [_ ?]%elem_of_seq. lia. }
  exists k'. split_and!; [done..|]. intros x. rewrite Hd.
  case_decide as Hx; [done|].
  assert (data k !! x = None) as ->; [|done].
  apply lookup_ge_None. unfold data. rewrite length_fmap.
  destruct HI as (Q & HL & _). rewrite (linv_pool_len _ _ HL).
  rewrite elem_of_seq in Hx. lia.
Qed.

(** ** Dispatching *)

(** The ready task [n] becomes the running task; the outgoing current task,
    if there is one, goes to state [sc]: back to its queue ([TASK_READY]) or
    blocked. *)
Lemma SInv_dispatch k k' Q Q' (cur : option nat) n (sc : task_state_t) :
  SInv k Q → (∃ p, n ∈ Q p) →
  match cur with
  | Some c => current_task k = Some c ∧ scheduler_running k = true ∧
              (sc = TASK_READY ∨ (sc = TASK_BLOCKED ∧ idle_task k ≠ Some c))
  | None => scheduler_running k = false
  end →
  (∀ x, sp k' x =
        if decide (x = n) then prod_map (λ _, TASK_RUNNING) id <$> sp k x
        else if decide (cur = Some x) then prod_map (λ _, sc) id <$> sp k x
        else sp k x) →
  (∀ p x, x ∈ Q' p ↔
          x ≠ n ∧ (x ∈ Q p ∨
                   (cur = Some x ∧ sc = TASK_READY ∧ ∃ s, sp k x = Some (s, p)))) →
  task_pool_used k' = task_pool_used k → idle_task k' = idle_task k →
  current_task k' = Some n → scheduler_running k' = true →
  SInv k' Q'.
Proof.
  intros HS [pn Hn] Hcur Hsp HQ Hu Hidle Hc' Hr'.
  pose proof HS as [H1 H2 H3 H4 H5].
  destruct (H1 _ _ Hn) as (tn & Htn & Hstn & Hun).
  assert (∀ c, cur = Some c →
            ∃ tc, task_pool k !! c = Some tc ∧ state tc = TASK_RUNNING ∧
                  task_pool_used k !! c = Some true ∧ c ≠ n ∧
                  current_task k = Some c) as Hout.
  { intros c ->. destruct Hcur as (Hc & Hr & _). rewrite Hr in H5.
    destruct H5 as (c' & tc & ? & Htc & ?). assert (c' = c) as -> by congruence.
    exists tc. destruct (H4 _ _ Htc) as [_ ?]; [done|].
    split_and!; [done..| |done]. intros ->. congruence. }
  assert (∀ x t, task_pool k !! x = Some t → state t = TASK_RUNNING →
            cur = Some x) as Hrun.
  { intros x t Ht Hst. destruct (H4 _ _ Ht Hst) as [Hx _].
    destruct cur as [c|].
    - destruct Hcur as (? & _). congruence.
    - rewrite Hcur in H5. congruence. }
  constructor; rewrite ?Hu, ?Hidle, ?Hc', ?Hr'.
  - intros p x [Hxn [Hx|(Hx & -> & s & Hs)]]%HQ.
    + destruct (H1 _ _ Hx) as (t & Ht & Hst & ?).
      assert (cur ≠ Some x) as Hne.
      { intros E. destruct (Hout _ E) as (tc & ? & ? & _). congruence. }
      specialize (Hsp x). rewrite !decide_False in Hsp by done.
      rewrite (sp_Some _ _ _ Ht) in Hsp. apply sp_inv in Hsp as (t' & ? & ? & ?).
      exists t'. split_and!; congruence.
    + destruct (Hout _ Hx) as (tc & Htc & ? & ? & _).
      specialize (Hsp x). rewrite decide_False, decide_True, Hs in Hsp by done.
      apply sp_inv in Hsp as (t' & ? & ? & ?). exists t'. by split_and!.
  - intros x t' Ht' Hux Hst. apply HQ.
    pose proof (Hsp x) as Hx. rewrite (sp_Some _ _ _ Ht') in Hx.
    destruct (decide (x = n)) as [->|Hxn].
    { rewrite (sp_Some _ _ _ Htn) in Hx. simpl in Hx. congruence. }
    split; [done|]. destruct (decide (cur = Some x)) as [E|E].
    + right. destruct (Hout _ E) as (tc & Htc & _).
      rewrite (sp_Some _ _ _ Htc) in Hx. simpl in Hx. injection Hx as Hs Hp.
      split_and!; [done|congruence|]. exists (state tc).
      rewrite (sp_Some _ _ _ Htc). congruence.
    + left. symmetry in Hx. apply sp_inv in Hx as (t & ? & ? & <-).
      apply H2; congruence.
  - destruct H3 as (i & t & Hi & Ht & ? & Hst).
    pose proof (Hsp i) as Hx. rewrite (sp_Some _ _ _ Ht) in Hx. simpl in Hx.
    destruct (decide (i = n)) as [->|Hin].
    { apply sp_inv in Hx as (t' & ? & ? & ?). exists n, t'.
      split_and!; [done..|by right]. }
    destruct (decide (cur = Some i)) as [E|E].
    { apply sp_inv in Hx as (t' & ? & Hst' & ?). exists i, t'.
      split_and!; [done..|]. rewrite E in Hcur.
      destruct Hcur as (_ & _ & [?|[_ ?]]); [left|]; congruence. }
    apply sp_inv in Hx as (t' & ? & ? & ?). exists i, t'.
    split_and!; [done..|]. destruct Hst; [left|right]; congruence.
  - intros x t' Ht' Hst.
    pose proof (Hsp x) as Hx. rewrite (sp_Some _ _ _ Ht') in Hx.
    destruct (decide (x = n)) as [->|Hxn]; [done|].
    exfalso. destruct (decide (cur = Some x)) as [E|E].
    + destruct (Hout _ E) as (tc & Htc & _).
      rewrite (sp_Some _ _ _ Htc) in Hx. simpl in Hx. injection Hx as Hs Hp.
      rewrite E in Hcur. destruct Hcur as (_ & _ & [?|[? _]]); congruence.
    + symmetry in Hx. apply sp_inv in Hx as (t & Ht & ? & _).
      apply E. eapply Hrun; [done|congruence].
  - pose proof (Hsp n) as Hx. rewrite decide_True in Hx by done.
    rewrite (sp_Some _ _ _ Htn) in Hx. apply sp_inv in Hx as (t' & ? & ? & ?).
    eauto.
Qed.

Lemma SInv_queues_ext k Q Q' :
  (∀ p x, x ∈ Q' p ↔ x ∈ Q p) → SInv k Q → SInv k Q'.
Proof.
  intros HQ [H1 H2 H3 H4 H5]. constructor; try done.
  - intros p x Hx. apply HQ in Hx. by apply (H1 p).
  - intros x t ???. apply HQ. by apply H2.
Qed.

Lemma queues_after_load_elem (Q : nat → list nat) n tn p x :
  (∀ q, n ∈ Q q → q = priority tn) →
  x ∈ queues_after_load Q n tn p ↔ x ≠ n ∧ x ∈ Q p.
Proof.
  intros Hn. unfold queues_after_load.
  destruct (decide (p = priority tn)) as [->|Hp].
  - rewrite fn_lookup_insert, list_elem_of_filter. done.
  - rewrite fn_lookup_insert_ne by done. split; [|by intros [_ ?]].
    intros Hx. split; [|done]. intros ->. by apply Hp, Hn.
Qed.

Lemma queues_after_save_elem (Q : nat → list nat) c tc p x :
  x ∈ queues_after_save Q c tc p ↔
  x ∈ Q p ∨ (state tc = TASK_RUNNING ∧ x = c ∧ p = priority tc).
Proof.
  unfold queues_after_save. case_decide.
  - rewrite fn_insert_snoc_elem. naive_solver.
  - naive_solver.
Qed.

Lemma state_save_data now d :
  state (save_data now d) =
  if decide (state d = TASK_RUNNING) then TASK_READY else state d.
Proof. unfold save_data. by case_decide. Qed.

Lemma priority_save_data now d : priority (save_data now d) = priority d.
Proof. unfold save_data. by case_decide. Qed.

(** The states after [context_switch (Some c) (Some n)]. *)
Lemma sp_switch k k' now c n :
  c ≠ n →
  data k' = alter load_data n (alter (save_data now) c (data k)) →
  ∀ x, sp k' x =
       if decide (x = n) then prod_map (λ _, TASK_RUNNING) id <$> sp k x
       else if decide (x = c)
            then prod_map (λ s, if decide (s = TASK_RUNNING) then TASK_READY
                                else s) id <$> sp k x
            else sp k x.
Proof.
  intros Hcn Hd x.
  rewrite (sp_data_map k k'
             (λ x, at_slot n load_data x ∘ at_slot c (save_data now) x)
             (λ x s, if decide (x = n) then TASK_RUNNING
                     else if decide (x = c)
                          then (if decide (s = TASK_RUNNING) then TASK_READY
                                else s)
                          else s)).
  - repeat case_decide; try done; destruct (sp k x) as [[]|]; done.
  - intros y. rewrite Hd, !list_lookup_alter. unfold at_slot.
    repeat case_decide; simplify_eq; by destruct (data k !! _).
  - intros y d. unfold at_slot, compose, id.
    destruct (decide (y = n)) as [->|]; [done|].
    destruct (decide (y = c)) as [->|]; [|done]. apply state_save_data.
  - intros y d. unfold at_slot, compose.
    repeat case_decide; simplify_eq; try done; simpl;
      by rewrite ?priority_save_data.
Qed.

Lemma fn_insert_rotate_elem (Q : nat → list nat) p a r q x :
  Q p = a :: r → x ∈ <[p := r ++ [a]]> Q q ↔ x ∈ Q q.
Proof.
  intros EQ. destruct (decide (q = p)) as [->|].
  - rewrite fn_lookup_insert, EQ. set_solver.
  - by rewrite fn_lookup_insert_ne.
Qed.

(** [reschedule] when the current task [c] is running ([s0 = TASK_RUNNING],
    in [scheduler_tick]) or was just blocked ([s0 = TASK_BLOCKED], in
    [task_sleep]).  [k0] is the kernel before [c] was blocked. *)
Lemma reschedule_spec k0 k Q c s0 :
  SInv k0 Q → LInv k Q →
  scheduler_running k0 = true → current_task k0 = Some c →
  task_pool_used k = task_pool_used k0 → idle_task k = idle_task k0 →
  current_task k = current_task k0 →
  scheduler_running k = scheduler_running k0 →
  (s0 = TASK_RUNNING ∨ (s0 = TASK_BLOCKED ∧ idle_task k0 ≠ Some c)) →
  (∀ x, sp k x = if decide (x = c) then prod_map (λ _, s0) id <$> sp k0 x
                 else sp k0 x) →
  ∃ k', reschedule k = Some k' ∧ Inv k' ∧
    ((k' = k ∧ s0 = TASK_RUNNING ∧ idle_task k = Some c ∧
      ∀ p, (p < PRIORITY_LEVELS)%nat → Q p = []) ∨
     (∃ p a r, (p < PRIORITY_LEVELS)%nat ∧ Q p = a :: r ∧
        (∀ q, (q < p)%nat → Q q = []) ∧ a ≠ c ∧
        frame_globals (set_current_task (Some a) (incr_context_switches k)) k' ∧
        data k' = alter load_data a
                    (alter (save_data (system_tick_count k)) c (data k)))).
Proof.
  intros HS0 HL Hr0 Hc0 Hu Hidle Hcur Hrun Hs0 Hsp.
  pose proof (sinv_current _ _ HS0) as H5. rewrite Hr0 in H5.
  destruct H5 as (c' & tc0 & ? & Htc0 & Hstc0).
  assert (c' = c) as -> by congruence.
  assert (∀ q, c ∉ Q q) as Hcq.
  { intros q Hin. destruct (sinv_member _ _ HS0 _ _ Hin) as (t & ? & ? & _).
    congruence. }
  assert (∃ tc, task_pool k !! c = Some tc ∧ state tc = s0 ∧
                priority tc = priority tc0) as (tc & Htc & Hstc & Hptc).
  { specialize (Hsp c). rewrite decide_True, (sp_Some _ _ _ Htc0) in Hsp by done.
    by apply sp_inv in Hsp. }
  unfold reschedule.
  destruct (first_nonempty Q PRIORITY_LEVELS)
    as [Hempty|(p & a & r & Hp & EQ & Hlow)].
  - (* every queue is empty: the fallback to the idle task *)
    rewrite (get_next_idle _ _ HL Hempty). simpl.
    destruct (sinv_idle _ _ HS0) as (i & ti & Hi & Hti & Hui & Hsti).
    assert (state ti = TASK_RUNNING) as Hir.
    { destruct Hsti as [Hready|?]; [|done].
      pose proof (sinv_ready _ _ HS0 _ _ Hti Hui Hready) as Hin.
      destruct (linv_prio _ _ HL _ _ Hin) as (t & Ht & Hpt).
      rewrite Hempty in Hin; [set_solver|]. rewrite <-Hpt.
      by eapply linv_prio_lt. }
    assert (i = c) as ->.
    { destruct (sinv_running _ _ HS0 _ _ Hti Hir). congruence. }
    destruct Hs0 as [->|[_ ?]]; [|done].
    rewrite Hcur, Hc0, Hidle, Hi, context_switch_same.
    exists k. split; [done|]. split; [|by left].
    exists Q. split; [done|]. eapply SInv_transfer; [|done..].
    intros x. fold (sp k x) (sp k0 x). rewrite Hsp. case_decide; [|done].
    subst. by rewrite (sp_Some _ _ _ Htc0), <-Hstc0.
  - (* the head [a] of the first non-empty queue is dispatched *)
    destruct (get_next_spec _ _ _ _ _ HL Hp EQ Hlow) as [-> HL3]. simpl.
    destruct (sinv_member _ _ HS0 p a) as (ta0 & Hta0 & Hsta0 & Hua0);
      [rewrite EQ; set_solver|].
    assert (a ≠ c) as Hac by (intros ->; congruence).
    destruct (linv_prio _ _ HL p a) as (ta & Hta & Hpta);
      [rewrite EQ; set_solver|].
    rewrite Hcur, Hc0.
    destruct (context_switch_spec _ _ c tc a ta HL3) as (k' & -> & Hf & HL' & Hd');
      [done|done|done|..].
    { intros _ Hin. apply fn_insert_rotate_elem in Hin; [|done]. by eapply Hcq. }
    { rewrite Hpta, fn_lookup_insert. set_solver. }
    exists k'. split; [done|]. split; [|right; by exists p, a, r].
    eexists. split; [exact HL'|].
    destruct (frame_globals_eq _ _ Hf) as (Hc' & Hi' & _ & Hr' & _ & _ & Hu').
    pose proof (sp_switch _ _ _ _ _ (not_eq_sym Hac) Hd') as Hsp'.
    eapply SInv_dispatch with
      (cur := Some c) (n := a)
      (sc := if decide (s0 = TASK_RUNNING) then TASK_READY else TASK_BLOCKED);
      [exact HS0|by exists p; rewrite EQ; set_solver|..].
    + split; [done|]. split; [done|].
      destruct Hs0 as [->|[-> ?]]; [left|right]; done.
    + intros x. rewrite Hsp'. change (sp (set_queue _ _ k) x) with (sp k x).
      rewrite Hsp. destruct (decide (x = a)) as [->|Hxa].
      { by rewrite decide_False by done. }
      destruct (decide (x = c)) as [->|Hxc].
      * rewrite decide_True by done. rewrite (sp_Some _ _ _ Htc0). simpl.
        destruct Hs0 as [->|[-> ?]]; done.
      * rewrite decide_False by congruence. done.
    + intros q x. rewrite queues_after_load_elem, queues_after_save_elem.
      * rewrite fn_insert_rotate_elem by done. rewrite Hstc.
        split; intros [? [?|HH]]; (split; [done|]); [by left| |by left|].
        -- right. destruct HH as (? & -> & ->). split; [done|].
           rewrite decide_True by done. split; [done|].
           rewrite (sp_Some _ _ _ Htc0), Hptc. eauto.
        -- right. destruct HH as ([= <-] & Hsc & s & Hs).
           rewrite (sp_Some _ _ _ Htc0) in Hs. simplify_eq.
           split_and!; [|done..].
           by destruct (decide (state tc = TASK_RUNNING)).
      * intros q' [Hin|(_ & ? & _)]%queues_after_save_elem; [|done].
        apply fn_insert_rotate_elem in Hin; [|done].
        rewrite Hpta. apply (LInv_disjoint k Q q' p a HL Hin).
        rewrite EQ. set_solver.
    + by rewrite Hu'.
    + by rewrite Hi'.
    + by rewrite Hc'.
    + rewrite Hr'. simpl. congruence.
Qed.

(** ** The tick *)

Lemma Inv_globals k k' :
  task_pool k' = task_pool k → task_pool_used k' = task_pool_used k →
  ready_queues k' = ready_queues k → current_task k' = current_task k →
  idle_task k' = idle_task k → scheduler_running k' = scheduler_running k →
  Inv k → Inv k'.
Proof.
  intros E1 E2 E3 E4 E5 E6 (Q & HL & HS). exists Q. split.
  - by apply (LInv_globals k).
  - eapply SInv_transfer; [|done..]. intros x. by rewrite E1.
Qed.

Lemma Inv_incr_ticks k : Inv k → Inv (incr_ticks k).
Proof. by apply Inv_globals. Qed.

(** What the slice update of [scheduler_tick] does to the current task. *)
Definition dec_data (d : tcb_t) : tcb_t :=
  if 0 <? time_slice_remaining d
  then set_time_slice_remaining (time_slice_remaining d - 1) d else d.

Lemma decrement_slice_spec k c t :
  Inv k → task_pool k !! c = Some t →
  ∃ k', decrement_slice c k = Some k' ∧ frame_globals k k' ∧ Inv k' ∧
        data k' = alter dec_data c (data k).
Proof.
  intros HI Ht. unfold decrement_slice. rewrite Ht. simpl.
  destruct (0 <? time_slice_remaining t) eqn:Hpos.
  - destruct (Inv_update_data k c
                (set_time_slice_remaining (time_slice_remaining t - 1)) t)
      as (k' & -> & Hf & HI' & Hd); [done..|].
    exists k'. split_and!; [done..|]. rewrite Hd.
    apply list_alter_ext; [|done]. intros d Hd'.
    rewrite (data_lookup _ _ _ Ht) in Hd'. injection Hd' as <-.
    unfold dec_data. simpl. by rewrite Hpos.
  - exists k. split_and!; [done|apply frame_globals_refl|done|].
    rewrite (list_alter_ext _ id _ (data k) c); [by rewrite list_alter_id| |done].
    intros d Hd'. rewrite (data_lookup _ _ _ Ht) in Hd'. injection Hd' as <-.
    unfold dec_data. simpl. by rewrite Hpos.
Qed.

(** A used task that is ready and has a strictly higher priority (a smaller
    number) than [p]. *)
Definition higher_ready (k : kernel) (p : nat) : Prop :=
  ∃ x t, task_pool k !! x = Some t ∧ task_pool_used k !! x = Some true ∧
         state t = TASK_READY ∧ (priority t < p)%nat.

Lemma need_reschedule_spec k c tc :
  Inv k → task_pool k !! c = Some tc →
  ∃ b, need_reschedule c k = Some b ∧
       (b = true ↔ time_slice_remaining tc = 0 ∨ higher_ready k (priority tc)).
Proof.
  intros (Q & HL & HS) Hc. unfold need_reschedule. rewrite Hc. simpl.
  destruct (first_nonempty Q PRIORITY_LEVELS)
    as [Hempty|(p & a & r & Hp & EQ & Hlow)].
  - rewrite (highest_none _ _ HL Hempty). simpl. eexists. split; [done|].
    rewrite bool_decide_eq_true. split; [by left|].
    intros [?|(x & t & Ht & Hu & Hst & Hlt)]; [done|].
    pose proof (sinv_ready _ _ HS _ _ Ht Hu Hst) as Hin.
    rewrite Hempty in Hin by by eapply linv_prio_lt. set_solver.
  - rewrite (highest_spec _ _ _ _ _ HL Hp EQ Hlow). simpl.
    destruct (sinv_member _ _ HS p a) as (ta & Hta & Hsta & Hua);
      [rewrite EQ; set_solver|].
    destruct (linv_prio _ _ HL p a) as (ta' & Hta' & Hpa);
      [rewrite EQ; set_solver|].
    assert (ta' = ta) as -> by congruence.
    rewrite Hta. simpl. eexists. split; [done|].
    rewrite orb_true_iff, !bool_decide_eq_true. split.
    + intros [?|?]; [by left|]. right. exists a, ta. split_and!; [done..|lia].
    + intros [?|(x & t & Ht & Hu & Hst & Hlt)]; [by left|]. right.
      pose proof (sinv_ready _ _ HS _ _ Ht Hu Hst) as Hin.
      destruct (decide (priority t < p)%nat) as [Hlt'|]; [|lia].
      rewrite Hlow in Hin by done. set_solver.
Qed.

Lemma reschedule_running_spec k c :
  Inv k → scheduler_running k = true → current_task k = Some c →
  ∃ k', reschedule k = Some k' ∧ Inv k' ∧
    ((k' = k ∧ idle_task k = Some c) ∨
     (∃ a ta, a ≠ c ∧ task_pool k !! a = Some ta ∧ state ta = TASK_READY ∧
        task_pool_used k !! a = Some true ∧
        frame_globals (set_current_task (Some a) (incr_context_switches k)) k' ∧
        data k' = alter load_data a
                    (alter (save_data (system_tick_count k)) c (data k)))).
Proof.
  intros (Q & HL & HS) Hr Hc.
  destruct (reschedule_spec k k Q c TASK_RUNNING) as (k' & E & HI' & Hcase);
    [done..|by left| |].
  { intros x. case_decide; [|done]. subst.
    pose proof (sinv_current _ _ HS) as H5. rewrite Hr in H5.
    destruct H5 as (c' & tc & ? & Htc & Hst). assert (c' = c) as -> by congruence.
    by rewrite (sp_Some _ _ _ Htc), Hst. }
  exists k'. split_and!; [done..|].
  destruct Hcase as [(-> & _ & ? & _)|(p & a & r & Hp & EQ & _ & ? & ? & ?)].
  - by left.
  - right. destruct (sinv_member _ _ HS p a) as (ta & ? & ? & ?);
      [rewrite EQ; set_solver|].
    exists a, ta. by split_and!.
Qed.

Lemma Inv_current k c :
  Inv k → current_task k = Some c →
  scheduler_running k = true ∧
  ∃ tc, task_pool k !! c = Some tc ∧ state tc = TASK_RUNNING ∧
        task_pool_used k !! c = Some true.
Proof.
  intros (Q & HL & HS) Hc. pose proof (sinv_current _ _ HS) as H5.
  destruct (scheduler_running k); [|congruence]. split; [done|].
  destruct H5 as (c' & tc & ? & Htc & Hst). assert (c' = c) as -> by congruence.
  exists tc. split_and!; [done..|]. by destruct (sinv_running _ _ HS _ _ Htc Hst).
Qed.

(** The steps of [scheduler_tick] on a running scheduler with current task
    [c]: [k1] after the slice update, [k2] after the wake sweep, [b] the
    value of [need_reschedule], [k'] the result. *)
Definition tick_trace (k : kernel) (c : nat) (k1 k2 : kernel) (b : bool)
    (k' : kernel) : Prop :=
  decrement_slice c (incr_ticks k) = Some k1 ∧
  frame_globals (incr_ticks k) k1 ∧ Inv k1 ∧
  data k1 = alter dec_data c (data k) ∧
  wake_sleeping_tasks k1 = Some k2 ∧ frame_globals k1 k2 ∧ Inv k2 ∧
  (∀ x, data k2 !! x = sweep_data k1 x <$> data k1 !! x) ∧
  need_reschedule c k2 = Some b ∧
  (if b then reschedule k2 else Some k2) = Some k' ∧ Inv k' ∧
  (k' = k2 ∨
   ∃ a ta, b = true ∧ a ≠ c ∧ task_pool k2 !! a = Some ta ∧
     state ta = TASK_READY ∧ task_pool_used k2 !! a = Some true ∧
     frame_globals (set_current_task (Some a) (incr_context_switches k2)) k' ∧
     data k' = alter load_data a
                 (alter (save_data (system_tick_count k2)) c (data k2))).

Lemma tick_running_spec k c :
  Inv k → scheduler_running k = true → current_task k = Some c →
  ∃ k1 k2 b k', scheduler_tick k = Some k' ∧ tick_trace k c k1 k2 b k'.
Proof.
  intros HI Hr Hc.
  destruct (Inv_current _ _ HI Hc) as (_ & tc & Htc & _).
  pose proof (Inv_incr_ticks _ HI) as HI0.
  destruct (decrement_slice_spec (incr_ticks k) c tc HI0 Htc)
    as (k1 & E1 & Hf1 & HI1 & Hd1).
  destruct (wake_sleeping_tasks_spec k1 HI1) as (k2 & E2 & Hf2 & HI2 & Hd2).
  destruct (frame_globals_eq _ _ Hf1) as (Hc1 & _ & _ & Hr1 & _).
  destruct (frame_globals_eq _ _ Hf2) as (Hc2 & _ & _ & Hr2 & _).
  assert (current_task k2 = Some c) as Hcur2 by (rewrite Hc2, Hc1; done).
  assert (scheduler_running k2 = true) as Hrun2 by (rewrite Hr2, Hr1; done).
  destruct (Inv_current _ _ HI2 Hcur2) as (_ & tc2 & Htc2 & _).
  destruct (need_reschedule_spec k2 c tc2 HI2 Htc2) as (b & Eb & _).
  assert (∃ k', (if b then reschedule k2 else Some k2) = Some k' ∧ Inv k' ∧
            (k' = k2 ∨
             ∃ a ta, b = true ∧ a ≠ c ∧ task_pool k2 !! a = Some ta ∧
               state ta = TASK_READY ∧ task_pool_used k2 !! a = Some true ∧
               frame_globals
                 (set_current_task (Some a) (incr_context_switches k2)) k' ∧
               data k' = alter load_data a
                           (alter (save_data (system_tick_count k2)) c
                              (data k2)))) as (k' & E' & HI' & Hcase).
  { destruct b; [|by eauto].
    destruct (reschedule_running_spec k2 c HI2 Hrun2 Hcur2)
      as (k' & E' & HI' & [[-> _]|(a & ta & ? & ? & ? & ? & ? & ?)]).
    - eauto.
    - exists k'. split_and!; [done..|]. right. exists a, ta. by split_and!. }
  exists k1, k2, b, k'. split; [|by unfold tick_trace].
  unfold scheduler_tick.
  change (scheduler_running (incr_ticks k)) with (scheduler_running k).
  change (current_task (incr_ticks k)) with (current_task k).
  rewrite Hr, Hc. unfold tick_body. rewrite E1. simpl. rewrite E2. simpl.
  rewrite Eb. simpl. done.
Qed.

Lemma scheduler_tick_idle k :
  scheduler_running k = false ∨ current_task k = None →
  scheduler_tick k = Some (incr_ticks k).
Proof.
  unfold scheduler_tick.
  change (scheduler_running (incr_ticks k)) with (scheduler_running k).
  change (current_task (incr_ticks k)) with (current_task k).
  intros [->| ->]; [done|]. by destruct (scheduler_running k).
Qed.

Lemma scheduler_tick_Inv k :
  Inv k → ∃ k', scheduler_tick k = Some k' ∧ Inv k'.
Proof.
  intros HI.
  destruct (scheduler_running k) eqn:Hr, (current_task k) as [c|] eqn:Hc.
  - destruct (tick_running_spec k c HI Hr Hc) as (k1 & k2 & b & k' & E & Htr).
    exists k'. split; [done|]. apply Htr.
  - rewrite scheduler_tick_idle by by right. eauto using Inv_incr_ticks.
  - rewrite scheduler_tick_idle by by left. eauto using Inv_incr_ticks.
  - rewrite scheduler_tick_idle by by left. eauto using Inv_incr_ticks.
Qed.

Lemma run_ticks_Inv n k : Inv k → ∃ k', run_ticks n k = Some k' ∧ Inv k'.
Proof.
  revert k. induction n as [|n IH]; intros k HI; [by exists k|].
  destruct (scheduler_tick_Inv k HI) as (k1 & E1 & HI1).
  destruct (IH k1 HI1) as (k' & E' & HI'). exists k'. split; [|done].
  simpl. rewrite E1. done.
Qed.

Lemma task_yield_Inv k : Inv k → ∃ k', task_yield k = Some k' ∧ Inv k'.
Proof.
  intros HI. unfold task_yield.
  destruct (scheduler_running k) eqn:Hr; [|by eauto].
  destruct (current_task k) as [c|] eqn:Hc; [|by eauto].
  destruct (Inv_current _ _ HI Hc) as (_ & tc & Htc & _).
  destruct (Inv_update_data k c (set_time_slice_remaining 0) tc)
    as (k1 & -> & Hf & HI1 & Hd); [done..|].
  simpl. by apply scheduler_tick_Inv.
Qed.

(** ** Sleep *)

(** What [task_sleep] writes into the current task before it reschedules. *)
Definition sleep_data (wake : Z) (d : tcb_t) : tcb_t :=
  set_state TASK_BLOCKED (set_wake_time wake d).

Lemma task_sleep_spec k c ms :
  Inv k → current_task k = Some c → idle_task k ≠ Some c →
  ∃ k' a ta, task_sleep ms k = Some k' ∧ Inv k' ∧ a ≠ c ∧
    task_pool k !! a = Some ta ∧ state ta = TASK_READY ∧
    task_pool_used k !! a = Some true ∧
    frame_globals (set_current_task (Some a) (incr_context_switches k)) k' ∧
    data k' = alter load_data a
                (alter (save_data (system_tick_count k)) c
                   (alter (sleep_data (u32 (system_tick_count k + ms))) c
                      (data k))).
Proof.
  intros HI Hc Hidle.
  destruct (Inv_current _ _ HI Hc) as (Hr & tc & Htc & Hstc & Huc).
  destruct HI as (Q & HL & HS).
  unfold task_sleep. rewrite Hr, Hc.
  destruct (update_data_run k Q c
              (set_wake_time (u32 (system_tick_count k + ms))) tc HL Htc)
    as (k1 & -> & Hf1 & HL1 & Hd1 & Htc1).
  simpl.
  destruct (update_data_run k1 Q c (set_state TASK_BLOCKED) _ HL1 Htc1)
    as (k2 & -> & Hf2 & HL2 & Hd2 & Htc2).
  simpl.
  assert (frame_globals k k2) as Hf by eauto using frame_globals_trans.
  destruct (frame_globals_eq _ _ Hf) as (Hc2 & Hi2 & _ & Hr2 & Ht2 & Hst2 & Hu2).
  assert (data k2 = alter (sleep_data (u32 (system_tick_count k + ms))) c
                      (data k)) as Hd.
  { by rewrite Hd2, Hd1, list_alter_alter_eq. }
  destruct (reschedule_spec k k2 Q c TASK_BLOCKED)
    as (k' & E & HI' & Hcase); [done..|by right| |].
  { by apply (sp_alter k k2 _ c (λ _, TASK_BLOCKED) Hd). }
  destruct Hcase as [(_ & ? & _)|(p & a & r & Hp & EQ & _ & ? & Hf' & Hd')];
    [done|].
  destruct (sinv_member _ _ HS p a) as (ta & ? & ? & ?);
    [rewrite EQ; set_solver|].
  exists k', a, ta. split_and!; [done..| |].
  - by eapply frame_globals_switch.
  - by rewrite Hd', Hd, Ht2.
Qed.

(** ** Start *)

Lemma rtos_start_spec k :
  Inv k → scheduler_running k = false →
  ∃ k' a ta, rtos_start k = Some k' ∧ Inv k' ∧
    task_pool k !! a = Some ta ∧ state ta = TASK_READY ∧
    task_pool_used k !! a = Some true ∧
    frame_globals
      (set_current_task (Some a)
         (incr_context_switches (set_scheduler_running true k))) k' ∧
    data k' = alter load_data a (data k).
Proof.
  intros (Q & HL & HS) Hr.
  pose proof (sinv_current _ _ HS) as Hcur. rewrite Hr in Hcur.
  assert (LInv (set_scheduler_running true k) Q) as HL0
    by by apply (LInv_globals k).
  unfold rtos_start.
  destruct (first_nonempty Q PRIORITY_LEVELS)
    as [Hempty|(p & a & r & Hp & EQ & Hlow)].
  { exfalso. destruct (sinv_idle _ _ HS) as (i & ti & Hi & Hti & Hui & Hsti).
    destruct Hsti as [Hready|Hrun].
    - pose proof (sinv_ready _ _ HS _ _ Hti Hui Hready) as Hin.
      rewrite Hempty in Hin by by eapply linv_prio_lt. set_solver.
    - destruct (sinv_running _ _ HS _ _ Hti Hrun). congruence. }
  destruct (get_next_spec _ _ _ _ _ HL0 Hp EQ Hlow) as [-> HL3]. simpl.
  destruct (sinv_member _ _ HS p a) as (ta & Hta & Hsta & Hua);
    [rewrite EQ; set_solver|].
  destruct (linv_prio _ _ HL p a) as (ta' & Hta' & Hpta);
    [rewrite EQ; set_solver|].
  assert (ta' = ta) as -> by congruence.
  destruct (context_switch_start_spec _ _ a ta HL3)
    as (k' & -> & Hf & HL' & Hd'); [done| |].
  { rewrite Hpta, fn_lookup_insert. set_solver. }
  exists k', a, ta. split_and!; [done| |done..].
  eexists. split; [exact HL'|].
  destruct (frame_globals_eq _ _ Hf) as (Hc' & Hi' & _ & Hr' & _ & _ & Hu').
  eapply SInv_dispatch with (cur := None) (n := a) (sc := TASK_READY);
    [exact HS|by exists p; rewrite EQ; set_solver|done|..|done|done|done|done].
  - intros x.
    rewrite (sp_alter _ k' _ a (λ _, TASK_RUNNING) Hd') by done.
    by case_decide.
  - intros q x. rewrite queues_after_load_elem.
    + rewrite fn_insert_rotate_elem by done. naive_solver.
    + intros q' Hin. apply fn_insert_rotate_elem in Hin; [|done].
      rewrite Hpta. apply (LInv_disjoint k Q q' p a HL Hin).
      rewrite EQ. set_solver.
Qed.

(** ** Task creation *)

Lemma find_free_slot_Some k slot :
  find_free_slot k = Some slot ↔
  (slot < MAX_TASKS)%nat ∧ task_pool_used k !! slot = Some false ∧
  ∀ j, (j < slot)%nat → task_pool_used k !! j ≠ Some false.
Proof.
  unfold find_free_slot. split.
  - intros [[i b] [H ->]]%fmap_Some. simpl.
    apply list_find_Some in H as (Hi & -> & Hlow).
    apply lookup_take_Some in Hi as [Hi ?]. split_and!; [done..|].
    intros j Hj Hf. eapply (Hlow j false); [|done..].
    apply lookup_take_Some. split; [done|lia].
  - intros (Hlt & Hs & Hlow). apply fmap_Some. exists (slot, false).
    split; [|done]. apply list_find_Some. split_and!; [|done|].
    + by apply lookup_take_Some.
    + intros j b [Hj _]%lookup_take_Some Hjs ->. by eapply Hlow.
Qed.

(** No slot of the pool is free. *)
Definition pool_full (k : kernel) : Prop :=
  ∀ i, (i < MAX_TASKS)%nat → task_pool_used k !! i ≠ Some false.

Lemma find_free_slot_None k : find_free_slot k = None ↔ pool_full k.
Proof.
  unfold find_free_slot, pool_full. rewrite fmap_None, list_find_None.
  rewrite Forall_forall. split.
  - intros H i Hi Hf. apply (H false); [|done].
    apply list_elem_of_lookup. exists i. by apply lookup_take_Some.
  - intros H b [i [Hi ?]%lookup_take_Some]%list_elem_of_lookup ->.
    by eapply H.
Qed.

(** Writing a fresh TCB with null links into a slot that is in no queue. *)
Lemma LInv_fill_slot k k' Q slot tcb :
  LInv k Q → (∀ p, slot ∉ Q p) → (slot < length (task_pool k))%nat →
  next tcb = None → prev tcb = None → (priority tcb < PRIORITY_LEVELS)%nat →
  task_pool k' = <[slot := tcb]> (task_pool k) →
  length (task_pool_used k') = MAX_TASKS →
  ready_queues k' = ready_queues k →
  LInv k' Q.
Proof.
  intros [H1 H2 H3 H4 H5 H6 H7] Hslot Hlt Hn Hp Hprio Epool Hused Erq.
  assert (∀ x, x ≠ slot → task_pool k' !! x = task_pool k !! x) as Hne.
  { intros x Hx. by rewrite Epool, list_lookup_insert_ne. }
  assert (task_pool k' !! slot = Some tcb) as Hs.
  { rewrite Epool. by apply list_lookup_insert_eq. }
  constructor; try done.
  - by rewrite Epool, length_insert.
  - by rewrite Erq.
  - intros p. eapply ring_frame; [|apply H4].
    intros x Hx. assert (x ≠ slot) by (intros ->; by eapply Hslot).
    unfold nxt, prv. by rewrite Hne.
  - intros p x Hx. assert (x ≠ slot) by (intros ->; by eapply Hslot).
    rewrite Hne by done. by apply H5.
  - intros x t. destruct (decide (x = slot)) as [->|Hx].
    + rewrite Hs. by intros [= <-].
    + rewrite Hne by done. apply H6.
  - intros x t. destruct (decide (x = slot)) as [->|Hx].
    + rewrite Hs. by intros [= <-].
    + rewrite Hne by done. apply H7.
Qed.

Lemma priority_init_tcb k slot name_ f a p ss :
  priority (init_tcb k slot name_ f a p ss) = p.
Proof. done. Qed.

Lemma task_create_ok name_ func param prio ss k Q slot :
  LInv k Q → (∀ p, slot ∉ Q p) →
  (prio < PRIORITY_LEVELS)%nat → ss ≤ STACK_SIZE →
  find_free_slot k = Some slot →
  ∃ k', task_create name_ func param prio ss k = Some (next_task_id k, k') ∧
    LInv k' (<[prio := Q prio ++ [slot]]> Q) ∧
    frame_globals
      (incr_tasks_created
         (set_next_task_id (u32 (next_task_id k + 1))
            (set_task_pool_used (<[slot := true]> (task_pool_used k)) k))) k' ∧
    data k' = <[slot := init_tcb k slot name_ func param prio ss]> (data k).
Proof.
  intros HL Hslot Hprio Hss Hfind.
  apply find_free_slot_Some in Hfind as Hfree. destruct Hfree as (Hlt & Hfree & _).
  unfold task_create. rewrite decide_False by lia. rewrite decide_False by lia.
  rewrite Hfind. simpl.
  set (tcb := init_tcb k slot name_ func param prio ss).
  set (k1 := set_task_pool _ _).
  assert (slot < length (task_pool k))%nat as Hlen
    by by rewrite (linv_pool_len _ _ HL).
  assert (LInv k1 Q) as HL1.
  { eapply (LInv_fill_slot k k1 Q slot tcb); try done.
    simpl. by rewrite length_insert, (linv_used_len _ _ HL). }
  assert (task_pool k1 !! slot = Some tcb) as Htcb.
  { simpl. by apply list_lookup_insert_eq. }
  destruct (add_spec k1 Q slot tcb HL1 Htcb) as (k2 & -> & Hf2 & HL2 & Hd2);
    [by apply Hslot|].
  simpl.
  assert (data k2 = <[slot := tcb]> (data k)) as Hd.
  { rewrite Hd2. unfold data. simpl. rewrite list_fmap_insert.
    rewrite !list_insert_alter, list_alter_alter_eq.
    by apply list_alter_ext. }
  assert (∃ t2, task_pool k2 !! slot = Some t2 ∧ strip t2 = tcb) as (t2 & -> & Ht2).
  { assert (data k2 !! slot = Some tcb) as Hx.
    { rewrite Hd. apply list_lookup_insert_eq. unfold data.
      by rewrite length_fmap. }
    unfold data in Hx. rewrite list_lookup_fmap in Hx.
    destruct (task_pool k2 !! slot) as [t2|]; simplify_eq/=. eauto. }
  simpl. exists (incr_tasks_created k2). split_and!.
  - do 2 f_equal. apply (f_equal task_id) in Ht2. exact Ht2.
  - by apply (LInv_globals k2).
  - unfold frame_globals in *. rewrite Hf2 at 1. done.
  - done.
Qed.

Lemma sp_data k x : sp k x = (λ d, (state d, priority d)) <$> data k !! x.
Proof.
  unfold sp, data. rewrite list_lookup_fmap. by destruct (task_pool k !! x).
Qed.

Lemma Inv_used_len k : Inv k → length (task_pool_used k) = MAX_TASKS.
Proof. intros (Q & HL & _). by apply (linv_used_len _ _ HL). Qed.

Lemma Inv_pool_len k : Inv k → length (task_pool k) = MAX_TASKS.
Proof. intros (Q & HL & _). by apply (linv_pool_len _ _ HL). Qed.

Lemma task_create_Inv name_ func param prio ss k Q slot :
  LInv k Q → SInv k Q →
  (prio < PRIORITY_LEVELS)%nat → ss ≤ STACK_SIZE →
  find_free_slot k = Some slot →
  ∃ k', task_create name_ func param prio ss k = Some (next_task_id k, k') ∧
    LInv k' (<[prio := Q prio ++ [slot]]> Q) ∧
    SInv k' (<[prio := Q prio ++ [slot]]> Q) ∧
    frame_globals
      (incr_tasks_created
         (set_next_task_id (u32 (next_task_id k + 1))
            (set_task_pool_used (<[slot := true]> (task_pool_used k)) k))) k' ∧
    data k' = <[slot := init_tcb k slot name_ func param prio ss]> (data k).
Proof.
  intros HL HS Hprio Hss Hfind.
  apply find_free_slot_Some in Hfind as Hfree. destruct Hfree as (Hlt & Hfree & _).
  assert (∀ p, slot ∉ Q p) as Hslot.
  { intros p Hin. destruct (sinv_member _ _ HS _ _ Hin) as (? & _ & _ & ?).
    congruence. }
  destruct (task_create_ok name_ func param prio ss k Q slot)
    as (k' & E & HL' & Hf & Hd); [done..|].
  exists k'. split_and!; [done..| |done|done].
  destruct (frame_globals_eq _ _ Hf) as (Hc' & Hi' & _ & Hr' & _ & _ & Hu').
  simpl in *.
  assert (slot < length (data k))%nat as Hlen.
  { unfold data. by rewrite length_fmap, (linv_pool_len _ _ HL). }
  eapply SInv_enqueue with (i := slot) (pi := prio); [exact HS|done|..].
  - intros Hcur. pose proof (sinv_current _ _ HS) as H5.
    destruct (scheduler_running k); [|congruence].
    destruct H5 as (c & tc & ? & Htc & Hst).
    destruct (sinv_running _ _ HS _ _ Htc Hst). congruence.
  - rewrite sp_data, Hd, list_lookup_insert_eq by done. done.
  - intros x Hx. by rewrite !sp_data, Hd, list_lookup_insert_ne.
  - rewrite Hu'. apply list_lookup_insert_eq.
    by rewrite (linv_used_len _ _ HL).
  - intros x Hx. by rewrite Hu', list_lookup_insert_ne.
  - intros p x. apply fn_insert_snoc_elem.
  - done.
  - done.
  - done.
Qed.

(** ** Initialisation *)

Lemma rtos_init_spec k :
  next_task_id k ≠ 0 → scheduler_running k = false → current_task k = None →
  ∃ k', rtos_init k = Some (0, k') ∧ Inv k' ∧
        scheduler_running k' = false ∧ idle_task k' = Some 0%nat ∧
        system_tick_count k' = system_tick_count k.
Proof.
  intros Hid Hr Hc. unfold rtos_init.
  set (k1 := set_stats _ _).
  assert (task_pool k1 = replicate MAX_TASKS zero_tcb) as Epool by done.
  assert (task_pool_used k1 = replicate MAX_TASKS false) as Eused by done.
  assert (ready_queues k1 = replicate PRIORITY_LEVELS None) as Erq by done.
  assert (LInv k1 (λ _, [])) as HL1.
  { constructor; rewrite ?Epool, ?Eused, ?Erq.
    - by rewrite length_replicate.
    - by rewrite length_replicate.
    - intros p Hp. by apply lookup_replicate_2.
    - intros _. apply ring_nil.
    - intros p x Hx. set_solver.
    - intros x t [-> _]%lookup_replicate. simpl. unfold PRIORITY_LEVELS. lia.
    - by intros x t [-> _]%lookup_replicate _. }
  destruct (task_create_ok "IDLE" idle_task_function 0 (PRIORITY_LEVELS - 1)
              STACK_SIZE k1 (λ _, []) 0%nat)
    as (k2 & E & HL2 & Hf & Hd); [done|set_solver|unfold PRIORITY_LEVELS; lia
                                  |done|done|].
  rewrite E. simpl. change (next_task_id k1) with (next_task_id k).
  rewrite decide_False by done.
  destruct (frame_globals_eq _ _ Hf) as (Hc' & Hi' & _ & Hr' & Ht' & _ & Hused).
  simpl in Hc', Hi', Hr', Ht'.
  assert (task_pool_used k2 = <[0%nat := true]> (replicate MAX_TASKS false))
    as Hu' by exact Hused.
  clear Hused.
  assert (∃ t0, task_pool k2 !! 0%nat = Some t0 ∧
                strip t0 = init_tcb k1 0 "IDLE" idle_task_function 0
                             (PRIORITY_LEVELS - 1) STACK_SIZE)
    as (t0 & Ht0 & Hs0).
  { assert (data k2 !! 0%nat = Some (init_tcb k1 0 "IDLE" idle_task_function 0
                                       (PRIORITY_LEVELS - 1) STACK_SIZE)) as Hx
      by by rewrite Hd.
    unfold data in Hx. rewrite list_lookup_fmap in Hx.
    destruct (task_pool k2 !! 0%nat) as [t0|]; simplify_eq/=. eauto. }
  assert (task_get_info (next_task_id k) k2 = Some 0%nat) as Hinfo.
  { unfold task_get_info. apply fmap_Some. exists (0%nat, (true, t0)).
    split; [|done]. apply list_find_Some. split_and!.
    - apply lookup_take_Some. split; [|unfold MAX_TASKS; lia].
      apply lookup_zip_with_Some. exists true, t0. split_and!; [done| |done].
      by rewrite Hu'.
    - done.
    - simpl. by apply (f_equal task_id) in Hs0.
    - intros j y _ Hj. lia. }
  rewrite Hinfo. eexists. split; [done|].
  split; [|simpl; by rewrite Hr', Ht'].
  eexists. split; [by apply (LInv_globals k2)|].
  assert (∀ x t, task_pool k2 !! x = Some t → state t = TASK_READY) as Hst.
  { intros x t Ht. apply data_lookup in Ht. rewrite Hd in Ht.
    destruct (decide (x = 0%nat)) as [->|Hx].
    - apply (f_equal (fmap state)) in Ht. simpl in Ht. congruence.
    - rewrite list_lookup_insert_ne in Ht by done. unfold data in Ht.
      rewrite Epool, list_lookup_fmap in Ht.
      destruct (replicate MAX_TASKS zero_tcb !! x) as [z|] eqn:Ez; [|done].
      apply lookup_replicate in Ez as [-> _].
      apply (f_equal (fmap state)) in Ht. simpl in Ht. congruence. }
  constructor; unfold set_idle_task;
    cbn [task_pool task_pool_used current_task scheduler_running idle_task];
    rewrite ?Hu', ?Hc', ?Hr', ?Hr, ?Hc.
  - intros p x Hx.
    apply (fn_insert_snoc_elem (λ _, []) (PRIORITY_LEVELS - 1) 0%nat) in Hx.
    destruct Hx as [?|[-> ->]]; [set_solver|].
    exists t0. split_and!; [done|by eapply Hst|done].
  - intros x t Ht Hux _.
    apply (fn_insert_snoc_elem (λ _, []) (PRIORITY_LEVELS - 1) 0%nat). right.
    destruct (decide (x = 0%nat)) as [->|Hx].
    + split; [done|]. assert (t = t0) as -> by congruence.
      by apply (f_equal priority) in Hs0.
    + rewrite list_lookup_insert_ne in Hux by done.
      by apply lookup_replicate in Hux as [? _].
  - exists 0%nat, t0. split_and!; [done..|]. left. by eapply Hst.
  - intros x t Ht Hrun. rewrite (Hst _ _ Ht) in Hrun. done.
  - done.
Qed.

Lemma boot_init :
  ∃ k', rtos_init boot = Some (0, k') ∧ Inv k' ∧
        scheduler_running k' = false ∧ idle_task k' = Some 0%nat ∧
        system_tick_count k' = 0.
Proof. by apply rtos_init_spec. Qed.

(** * Reading a queue off the pointers *)

(** Follow the [next] pointers from [cur] until the head [h] comes back;
    [fuel] bounds the number of steps by the size of the pool. *)
Fixpoint ring_walk (pool : list tcb_t) (fuel : nat) (h cur : nat) : list nat :=
  match fuel with
  | O => []
  | S fuel' =>
      cur :: match nxt pool cur with
             | Some n => if decide (n = h) then [] else ring_walk pool fuel' h n
             | None => []
             end
  end.

(** The slots linked into the ready queue of priority [p], from the head. *)
Definition queue_members (k : kernel) (p : nat) : list nat :=
  if decide (p < PRIORITY_LEVELS)%nat then
    match ready_queues k !! p with
    | Some (Some h) => ring_walk (task_pool k) (length (task_pool k)) h h
    | _ => []
    end
  else [].

Lemma ring_walk_chain pool h l c fuel :
  chain (nxt pool) (prv pool) (c :: l) → h ∉ l →
  (∀ z, last (c :: l) = Some z → nxt pool z = Some h) →
  (length l < fuel)%nat →
  ring_walk pool fuel h c = c :: l.
Proof.
  revert c fuel. induction l as [|d l IH]; intros c fuel Hch Hh Hlast Hfuel.
  - destruct fuel as [|fuel]; [simpl in Hfuel; lia|]. simpl.
    rewrite (Hlast c) by done. by rewrite decide_True.
  - destruct fuel as [|fuel]; [simpl in Hfuel; lia|].
    apply chain_cons in Hch as [[Hcd _] Hch]. simpl. rewrite Hcd.
    rewrite decide_False by set_solver. f_equal.
    apply IH; [done|set_solver| |simpl in Hfuel; lia].
    intros z Hz. apply Hlast. by rewrite last_cons_cons.
Qed.

Lemma queue_members_repr k Q p : LInv k Q → queue_members k p = Q p.
Proof.
  intros HL. unfold queue_members. case_decide as Hp.
  - rewrite (linv_head _ _ HL) by done.
    pose proof (linv_ring _ _ HL p) as (Hnd & Hch & Hcl).
    destruct (Q p) as [|h r] eqn:EQ; [done|]. simpl.
    apply ring_walk_chain; [done|by apply NoDup_cons in Hnd as [? _]| |].
    + intros z Hz. by destruct (Hcl h z eq_refl Hz).
    + assert (length (h :: r) ≤ length (seq 0 (length (task_pool k))))%nat
        as Hlen.
      { apply submseteq_length, NoDup_submseteq; [done|].
        intros x Hx. apply elem_of_seq. split; [lia|]. simpl.
        eapply LInv_member_lt; [done|]. by rewrite EQ. }
      rewrite length_seq in Hlen. simpl in Hlen. lia.
  - destruct (Q p) as [|x r] eqn:EQ; [done|].
    destruct (linv_prio _ _ HL p x) as (t & Ht & Hpt); [rewrite EQ; set_solver|].
    pose proof (linv_prio_lt _ _ HL _ _ Ht). lia.
Qed.

Lemma LInv_queue_members k Q : LInv k Q → LInv k (queue_members k).
Proof.
  intros HL. eapply LInv_ext; [|done]. intros p.
  by rewrite (queue_members_repr k Q).
Qed.

Lemma SInv_queue_members k Q : LInv k Q → SInv k Q → SInv k (queue_members k).
Proof.
  intros HL HS. eapply SInv_queues_ext; [|done]. intros p x.
  by rewrite (queue_members_repr k Q).
Qed.

Lemma Inv_queue_members k :
  Inv k → LInv k (queue_members k) ∧ SInv k (queue_members k).
Proof.
  intros (Q & HL & HS).
  eauto using LInv_queue_members, SInv_queue_members.
Qed.

(** ** API calls and reachable kernels *)

Inductive call :=
| CCreate (name_ : string) (task_func param : Z) (priority_ : nat)
    (stack_size_ : Z)
| CStart
| CTick
| CYield
| CSleep (ms : Z).

Definition do_call (c : call) (k : kernel) : option kernel :=
  match c with
  | CCreate name_ f a p ss => snd <$> task_create name_ f a p ss k
  | CStart => rtos_start k
  | CTick => scheduler_tick k
  | CYield => task_yield k
  | CSleep ms => task_sleep ms k
  end.

(** The contract of the calls: [rtos_start] is entered once (it does not
    return), and the idle task, which is "always ready", never sleeps. *)
Definition call_ok (c : call) (k : kernel) : Prop :=
  match c with
  | CStart => scheduler_running k = false
  | CSleep _ => current_task k ≠ idle_task k
  | _ => True
  end.

Fixpoint run (cs : list call) (k : kernel) : option kernel :=
  match cs with
  | [] => Some k
  | c :: cs' => k ← do_call c k; run cs' k
  end.

Inductive reachable : kernel → Prop :=
| reach_init k : rtos_init boot = Some (0, k) → reachable k
| reach_call k c k' :
    reachable k → call_ok c k → do_call c k = Some k' → reachable k'.

Lemma do_call_Inv c k :
  Inv k → call_ok c k → ∃ k', do_call c k = Some k' ∧ Inv k'.
Proof.
  intros HI Hok. destruct c as [name_ f a p ss| | | |ms]; simpl in *.
  - unfold task_create.
    destruct (decide (PRIORITY_LEVELS ≤ p)%nat); [by eauto|].
    destruct (decide (STACK_SIZE < ss)); [by eauto|].
    destruct (find_free_slot k) as [slot|] eqn:Hfind; [|by eauto].
    destruct HI as (Q & HL & HS).
    destruct (task_create_Inv name_ f a p ss k Q slot)
      as (k' & E & HL' & HS' & _); [done|done|lia|lia|done|].
    unfold task_create in E.
    rewrite !decide_False, Hfind in E by done.
    rewrite E. simpl. exists k'. split; [done|]. by eexists.
  - destruct (rtos_start_spec k HI Hok) as (k' & a & ta & E & HI' & _). eauto.
  - by apply scheduler_tick_Inv.
  - by apply task_yield_Inv.
  - destruct (current_task k) as [c|] eqn:Hc.
    + destruct (task_sleep_spec k c ms HI Hc) as (k' & a & ta & E & HI' & _);
        [congruence|]. eauto.
    + unfold task_sleep. rewrite Hc. exists k.
      by destruct (scheduler_running k).
Qed.

Lemma reachable_Inv k : reachable k → Inv k.
Proof.
  induction 1 as [k E|k c k' _ IH Hok E].
  - destruct boot_init as (k0 & E0 & HI & _). congruence.
  - destruct (do_call_Inv c k IH Hok) as (k'' & E' & HI'). congruence.
Qed.

(** * The claims *)

(** The kernel after [rtos_init] and the calls [cs]. *)
Definition kernel_after (cs : list call) : option kernel :=
  '(_, k) ← rtos_init boot; run cs k.

(** The current task after each of [n] ticks. *)
Fixpoint dispatch_log (n : nat) (k : kernel) : option (list (option nat)) :=
  match n with
  | O => Some []
  | S n' =>
      k ← scheduler_tick k;
      log ← dispatch_log n' k;
      Some (current_task k :: log)
  end.

(** Three tasks A, B, C at priority 1 in slots 1, 2, 3; the idle task is in
    slot 0 at priority 3.  The scheduler is started: A is dispatched. *)
Definition abc_started : option kernel :=
  kernel_after [CCreate "A" 0x08001000 0 1 512; CCreate "B" 0x08002000 0 1 512;
                CCreate "C" 0x08003000 0 1 512; CStart].

(** C1, as the code behaves: with N = 3 tasks at one priority and the slice
    S = [TIME_SLICE_MS] = 10, over N * S = 30 ticks the tasks are dispatched
    in queue order, cyclically (A for ticks 1-9, B from tick 10, C from tick
    20, A again at tick 30, the idle task never), but [context_switch]
    credits one unit of [total_runtime] per switch-out, so each task has
    accumulated 1, not S = 10. *)
Theorem round_robin_runtime_is_one_per_switch :
  (k ← abc_started; dispatch_log 30 k)
  = Some (replicate 9 (Some 1%nat) ++ replicate 10 (Some 2%nat)
          ++ replicate 10 (Some 3%nat) ++ [Some 1%nat]) ∧
  (k ← abc_started; k ← run_ticks 30 k;
   Some (total_runtime <$> take 3 (drop 1 (task_pool k))))
  = Some [1; 1; 1] ∧
  (k ← abc_started; k ← run_ticks 30 k;
   Some (total_context_switches (stats k))) = Some 4.
Proof. by vm_compute. Qed.

(** ** C10: CPU utilization *)

Lemma run_ticks_stopped n k :
  scheduler_running k = false →
  0 ≤ total_ticks (stats k) → total_ticks (stats k) + Z.of_nat n < 2 ^ 32 →
  ∃ k', run_ticks n k = Some k' ∧
        total_ticks (stats k') = total_ticks (stats k) + Z.of_nat n ∧
        idle_time (stats k') = idle_time (stats k).
Proof.
  revert k. induction n as [|n IH]; intros k Hr H0 Hlt.
  - exists k. split; [done|]. split; [lia|done].
  - simpl. rewrite scheduler_tick_idle by by left. simpl.
    destruct (IH (incr_ticks k)) as (k' & E & Ht & Hi); [done|..].
    + simpl. unfold u32. apply Z.mod_pos_bound. lia.
    + simpl. unfold u32. rewrite Z.mod_small by lia. lia.
    + exists k'. split; [done|]. rewrite Ht, Hi. simpl. unfold u32.
      rewrite Z.mod_small by lia. split; [lia|done].
Qed.

(** The function computes the exact quotient as long as the product
    [busy_time * 100] fits in 32 bits. *)
Lemma get_cpu_utilization_exact k :
  0 ≤ idle_time (stats k) ≤ total_ticks (stats k) →
  (total_ticks (stats k) - idle_time (stats k)) * 100 < 2 ^ 32 →
  get_cpu_utilization k =
    if decide (total_ticks (stats k) = 0) then 0
    else (total_ticks (stats k) - idle_time (stats k)) * 100
         / total_ticks (stats k).
Proof.
  intros Hle Hfit. unfold get_cpu_utilization. case_decide; [done|].
  unfold u32, u8. rewrite (Z.mod_small (_ - _)) by lia.
  rewrite (Z.mod_small (_ * 100)) by lia.
  apply Z.mod_small. split.
  - apply Z.div_pos; lia.
  - apply Z.div_lt_upper_bound; lia.
Qed.

Lemma cpu_utilization_after_ticks n :
  Z.of_nat n = 50000000 →
  ∃ k, run_ticks n boot = Some k ∧
       total_ticks (stats k) = 50000000 ∧ idle_time (stats k) = 0 ∧
       get_cpu_utilization k = 14 ∧
       (total_ticks (stats k) - idle_time (stats k)) * 100
       / total_ticks (stats k) = 100.
Proof.
  intros Hn.
  destruct (run_ticks_stopped n boot) as (k & E & Ht & Hi).
  - reflexivity.
  - apply Z.le_refl.
  - rewrite Hn. reflexivity.
  - rewrite Hn in Ht.
    change (total_ticks (stats boot)) with 0 in Ht.
    change (idle_time (stats boot)) with 0 in Hi.
    exists k. split; [exact E|]. unfold get_cpu_utilization.
    rewrite Ht, Hi. vm_compute. repeat split.
Qed.

(** C10, as the code behaves: after 50,000,000 ticks with no idle time the
    32-bit product [busy_time * 100] has wrapped around and the function
    reports 14 percent, where the exact quotient is 100. *)
Theorem cpu_utilization_wraps_at_50M_ticks :
  ∃ k, run_ticks (Z.to_nat 50000000) boot = Some k ∧
       total_ticks (stats k) = 50000000 ∧ idle_time (stats k) = 0 ∧
       get_cpu_utilization k = 14 ∧
       (total_ticks (stats k) - idle_time (stats k)) * 100
       / total_ticks (stats k) = 100.
Proof.
  apply cpu_utilization_after_ticks. apply Z2Nat.id. discriminate.
Qed.

(** ** C4: selection *)

(** The idle task in slot 0 and one task A in slot 1 at priority 1. *)
Definition one_task : option kernel :=
  kernel_after [CCreate "A" 0x08001000 0 1 512].

(** C4 fails as stated: [scheduler_get_next_task] returns the head of the
    first non-empty queue but does not dequeue it.  With the single task A
    in queue 1, A is returned and is still the head and the only member of
    queue 1 afterwards, with its links in place. *)
Lemma get_next_leaves_task_queued :
  (k ← one_task; '(n, k') ← scheduler_get_next_task k;
   Some (n, queue_members k 1, queue_members k' 1,
         nxt (task_pool k') 1, prv (task_pool k') 1))
  = Some (Some 1%nat, [1%nat], [1%nat], Some 1%nat, Some 1%nat).
Proof. by vm_compute. Qed.

(** C4, amended: on a well-formed kernel [scheduler_get_next_task] never
    faults.  It returns the head [a] of the first non-empty ready queue,
    scanning from priority 0, and only advances the head pointer of that
    queue to [a]'s successor: the queue is rotated, the former second
    element is the new head and [a] stays linked as the last member (it is
    [context_switch] that unlinks it).  When every queue is empty it returns
    the idle task and changes nothing. *)
Theorem scheduler_get_next_task_rotates k :
  Inv k →
  ∃ n k', scheduler_get_next_task k = Some (n, k') ∧
    (((∀ p, queue_members k p = []) ∧ n = idle_task k ∧ k' = k) ∨
     (∃ p a r, (p < PRIORITY_LEVELS)%nat ∧ queue_members k p = a :: r ∧
        (∀ q, (q < p)%nat → queue_members k q = []) ∧
        n = Some a ∧ k' = set_queue p (head (r ++ [a])) k ∧
        queue_members k' p = r ++ [a] ∧
        (∀ q, q ≠ p → queue_members k' q = queue_members k q) ∧
        task_pool k' = task_pool k)).
Proof.
  intros HI. destruct (Inv_queue_members k HI) as [HL HS].
  destruct (first_nonempty (queue_members k) PRIORITY_LEVELS)
    as [Hempty|(p & a & r & Hp & EQ & Hlow)].
  - exists (idle_task k), k. split; [by eapply get_next_idle|]. left.
    split; [|done]. intros p. destruct (decide (p < PRIORITY_LEVELS)%nat).
    + by apply Hempty.
    + unfold queue_members. by rewrite decide_False.
  - destruct (get_next_spec _ _ _ _ _ HL Hp EQ Hlow) as [E HL'].
    eexists _, _. split; [exact E|]. right. exists p, a, r.
    split_and!; [done..| | |done].
    + by rewrite (queue_members_repr _ _ p HL'), fn_lookup_insert.
    + intros q Hq. by rewrite (queue_members_repr _ _ q HL'), fn_lookup_insert_ne.
Qed.

(** ** Concrete kernels *)

(** Every call of [cs] is within its contract, from [k] on. *)
Fixpoint run_ok (cs : list call) (k : kernel) : Prop :=
  match cs with
  | [] => True
  | c :: cs' =>
      call_ok c k ∧
      match do_call c k with
      | Some k' => run_ok cs' k'
      | None => False
      end
  end.

Lemma run_reachable cs k k' :
  reachable k → run_ok cs k → run cs k = Some k' → reachable k'.
Proof.
  revert k. induction cs as [|c cs IH]; intros k Hk Hok E.
  - simpl in E. by injection E as <-.
  - simpl in Hok, E. destruct Hok as [Hc Hok].
    destruct (do_call c k) as [k1|] eqn:E1; [|done]. simpl in E.
    apply (IH k1); [|done..]. by eapply reach_call.
Qed.

(** The kernel that [rtos_init] builds from the boot state. *)
Definition init_kernel : kernel := default boot (snd <$> rtos_init boot).

Lemma rtos_init_boot : rtos_init boot = Some (0, init_kernel).
Proof. by vm_compute. Qed.

Lemma kernel_after_reachable cs k :
  run_ok cs init_kernel → kernel_after cs = Some k → reachable k.
Proof.
  unfold kernel_after. rewrite rtos_init_boot. simpl. intros Hok E.
  eapply run_reachable; [|done..]. apply reach_init, rtos_init_boot.
Qed.

Definition one_task_kernel : kernel := default boot one_task.
Definition abc_kernel : kernel := default boot abc_started.

Lemma one_task_kernel_reachable : reachable one_task_kernel.
Proof.
  apply (kernel_after_reachable [CCreate "A" 0x08001000 0 1 512]).
  - by vm_compute.
  - by vm_compute.
Qed.

Lemma abc_kernel_reachable : reachable abc_kernel.
Proof.
  apply (kernel_after_reachable
           [CCreate "A" 0x08001000 0 1 512; CCreate "B" 0x08002000 0 1 512;
            CCreate "C" 0x08003000 0 1 512; CStart]).
  - by vm_compute.
  - by vm_compute.
Qed.

Lemma scheduler_get_next_task_rotates_witness :
  ∃ n k', scheduler_get_next_task one_task_kernel = Some (n, k') ∧
    (((∀ p, queue_members one_task_kernel p = []) ∧
      n = idle_task one_task_kernel ∧ k' = one_task_kernel) ∨
     (∃ p a r, (p < PRIORITY_LEVELS)%nat ∧
        queue_members one_task_kernel p = a :: r ∧
        (∀ q, (q < p)%nat → queue_members one_task_kernel q = []) ∧
        n = Some a ∧ k' = set_queue p (head (r ++ [a])) one_task_kernel ∧
        queue_members k' p = r ++ [a] ∧
        (∀ q, q ≠ p → queue_members k' q = queue_members one_task_kernel q) ∧
        task_pool k' = task_pool one_task_kernel)).
Proof.
  apply (scheduler_get_next_task_rotates one_task_kernel).
  apply reachable_Inv, one_task_kernel_reachable.
Defined.

(** ** Task creation *)

(** [task_create] while the id counter is not 0: it returns 0 exactly when
    the priority is out of range, the stack size exceeds [STACK_SIZE] or no
    slot is free, and then the kernel is unchanged.  Otherwise it returns
    the non-zero id of the new task; the task is in the first free slot, in
    state [TASK_READY], the last member of the ready queue of its priority,
    and [tasks_created] went up by one. *)
Theorem task_create_spec name_ f a p ss k :
  Inv k → next_task_id k ≠ 0 →
  ∃ id k', task_create name_ f a p ss k = Some (id, k') ∧
    (id = 0 ↔ (PRIORITY_LEVELS ≤ p)%nat ∨ STACK_SIZE < ss ∨ pool_full k) ∧
    (id = 0 → k' = k) ∧
    (id ≠ 0 →
     ∃ slot t, find_free_slot k = Some slot ∧
       task_pool k' !! slot = Some t ∧ task_id t = id ∧
       state t = TASK_READY ∧ priority t = p ∧
       queue_members k' p = queue_members k p ++ [slot] ∧
       (∀ q, q ≠ p → queue_members k' q = queue_members k q) ∧
       tasks_created (stats k') = u32 (tasks_created (stats k) + 1) ∧
       Inv k').
Proof.
  intros HI Hid. destruct (Inv_queue_members k HI) as [HL HS].
  destruct (decide (PRIORITY_LEVELS ≤ p)%nat) as [Hp|Hp].
  { exists 0, k. unfold task_create. rewrite decide_True by done.
    split_and!; [done| |done|done]. split; [by left|done]. }
  destruct (decide (STACK_SIZE < ss)) as [Hss|Hss].
  { exists 0, k. unfold task_create.
    rewrite decide_False, decide_True by done.
    split_and!; [done| |done|done]. split; [by right; left|done]. }
  destruct (find_free_slot k) as [slot|] eqn:Hfind.
  2:{ exists 0, k. unfold task_create.
      rewrite !decide_False, Hfind by done.
      split_and!; [done| |done|done]. split; [|done].
      intros _. right; right. by apply find_free_slot_None. }
  destruct (task_create_Inv name_ f a p ss k _ slot HL HS)
    as (k' & E & HL' & HS' & Hf & Hd); [lia|lia|done|].
  exists (next_task_id k), k'. split; [done|]. split_and!.
  - split; [done|]. intros [?|[?|Hfull]]; [lia|lia|].
    apply find_free_slot_None in Hfull. congruence.
  - done.
  - intros _.
    assert (data k' !! slot = Some (init_tcb k slot name_ f a p ss)) as Hx.
    { rewrite Hd. apply list_lookup_insert_eq. unfold data.
      rewrite length_fmap, (linv_pool_len _ _ HL).
      by apply find_free_slot_Some in Hfind as [? _]. }
    unfold data in Hx. rewrite list_lookup_fmap in Hx.
    destruct (task_pool k' !! slot) as [t|] eqn:Et; [|done].
    assert (strip t = init_tcb k slot name_ f a p ss) as Hs
      by (simpl in Hx; congruence).
    clear Hx.
    exists slot, t. split_and!; [done|done|..].
    + by apply (f_equal task_id) in Hs.
    + by apply (f_equal state) in Hs.
    + by apply (f_equal priority) in Hs.
    + by rewrite (queue_members_repr _ _ p HL'), fn_lookup_insert.
    + intros q Hq.
      by rewrite (queue_members_repr _ _ q HL'), fn_lookup_insert_ne.
    + destruct (frame_globals_eq _ _ Hf) as (_ & _ & _ & _ & _ & -> & _). done.
    + by eexists.
Qed.

Lemma task_create_spec_witness :
  ∃ id k', task_create "B" 0x08002000 0 1 512 one_task_kernel = Some (id, k') ∧
    (id = 0 ↔ (PRIORITY_LEVELS ≤ 1)%nat ∨ STACK_SIZE < 512 ∨
              pool_full one_task_kernel) ∧
    (id = 0 → k' = one_task_kernel) ∧
    (id ≠ 0 →
     ∃ slot t, find_free_slot one_task_kernel = Some slot ∧
       task_pool k' !! slot = Some t ∧ task_id t = id ∧
       state t = TASK_READY ∧ priority t = 1%nat ∧
       queue_members k' 1 = queue_members one_task_kernel 1 ++ [slot] ∧
       (∀ q, q ≠ 1%nat → queue_members k' q = queue_members one_task_kernel q) ∧
       tasks_created (stats k')
       = u32 (tasks_created (stats one_task_kernel) + 1) ∧
       Inv k').
Proof.
  apply (task_create_spec "B" 0x08002000 0 1 512 one_task_kernel).
  - apply reachable_Inv, one_task_kernel_reachable.
  - by vm_compute.
Defined.

(** ** C8: context switch *)

(** The ready queues are well-formed rings. *)
Definition well_linked (k : kernel) : Prop := ∃ Q, LInv k Q.

Lemma data_switch_map k k' now c n :
  data k' = alter load_data n (alter (save_data now) c (data k)) →
  ∀ x, data k' !! x =
       (at_slot n load_data x ∘ at_slot c (save_data now) x) <$> data k !! x.
Proof.
  intros -> x. rewrite !list_lookup_alter. unfold at_slot, compose.
  repeat case_decide; simplify_eq; by destruct (data k !! _).
Qed.

(** C8: [context_switch] with equal arguments changes nothing.  For
    [from = c] different from [to = n], where [n] is in the ready queue of
    its priority: the switch counter goes up by one; [n] is the current
    task, in state [TASK_RUNNING] with a full time slice, in no ready queue
    and with null links; [c] has [last_run_time] set to the tick count; if
    [c] was running it is credited one unit of runtime, becomes ready and is
    the last member of the queue of its priority; if it was not running
    (blocked, suspended, terminated) it is credited nothing, keeps its state
    and is not enqueued. *)
Theorem context_switch_effect k c n tc tn :
  well_linked k →
  task_pool k !! c = Some tc → task_pool k !! n = Some tn →
  (state tc = TASK_RUNNING → c ∉ queue_members k (priority tc)) →
  n ∈ queue_members k (priority tn) →
  (∀ x, context_switch x x k = Some k) ∧
  (c ≠ n →
   ∃ k' tc' tn', context_switch (Some c) (Some n) k = Some k' ∧
     total_context_switches (stats k')
     = u32 (total_context_switches (stats k) + 1) ∧
     current_task k' = Some n ∧
     task_pool k' !! n = Some tn' ∧ state tn' = TASK_RUNNING ∧
     time_slice_remaining tn' = TIME_SLICE_MS ∧
     next tn' = None ∧ prev tn' = None ∧
     (∀ p, n ∉ queue_members k' p) ∧
     task_pool k' !! c = Some tc' ∧
     last_run_time tc' = system_tick_count k ∧
     (state tc = TASK_RUNNING →
      total_runtime tc' = u32 (total_runtime tc + 1) ∧
      state tc' = TASK_READY ∧
      queue_members k' (priority tc)
      = filter (λ x, x ≠ n) (queue_members k (priority tc)) ++ [c]) ∧
     (state tc ≠ TASK_RUNNING →
      total_runtime tc' = total_runtime tc ∧ state tc' = state tc ∧
      ∀ p, queue_members k' p = filter (λ x, x ≠ n) (queue_members k p)) ∧
     well_linked k').
Proof.
  intros (Q0 & HL0) Hc Hn Hnin Hin.
  split; [intros x; apply context_switch_same|]. intros Hcn.
  pose proof (LInv_queue_members _ _ HL0) as HL. clear Q0 HL0.
  set (Q := queue_members k) in *.
  destruct (context_switch_spec k Q c tc n tn HL Hcn Hc Hn Hnin Hin)
    as (k' & E & Hf & HL' & Hd).
  destruct (frame_globals_eq _ _ Hf) as (Hcur & _ & _ & _ & _ & Hstats & _).
  pose proof (data_switch_map _ _ _ _ _ Hd) as Hmap.
  destruct (data_map_fwd _ _ _ n tn Hmap Hn) as (tn' & Hn' & Hsn).
  destruct (data_map_fwd _ _ _ c tc Hmap Hc) as (tc' & Hc' & Hsc).
  unfold at_slot, compose in Hsn, Hsc.
  rewrite decide_True, decide_False in Hsn by done.
  rewrite decide_False, decide_True in Hsc by done. simpl in Hsn, Hsc.
  assert (∀ q, n ∈ queues_after_save Q c tc q → q = priority tn) as Honly.
  { intros q [Hq|(_ & ? & _)]%queues_after_save_elem; [|done].
    by apply (LInv_disjoint k Q q (priority tn) n HL). }
  assert (∀ p, n ∉ queue_members k' p) as Hout.
  { intros p. rewrite (queue_members_repr _ _ p HL').
    rewrite queues_after_load_elem by done. by intros [? _]. }
  assert (∀ p, p ≠ priority tn → filter (λ x, x ≠ n) (Q p) = Q p) as Hfilter.
  { intros p Hp. apply filter_ne_notin. intros Hq. apply Hp.
    by apply (LInv_disjoint k Q p (priority tn) n HL). }
  exists k', tc', tn'. split_and!; try done.
  - by rewrite Hstats.
  - by apply (f_equal state) in Hsn.
  - by apply (f_equal time_slice_remaining) in Hsn.
  - apply (linv_unlinked _ _ HL' _ _ Hn').
    rewrite <-(queue_members_repr _ _ _ HL'). apply Hout.
  - apply (linv_unlinked _ _ HL' _ _ Hn').
    rewrite <-(queue_members_repr _ _ _ HL'). apply Hout.
  - apply (f_equal last_run_time) in Hsc. simpl in Hsc. rewrite Hsc.
    unfold save_data. by case_decide.
  - intros Hrun. unfold save_data in Hsc. rewrite decide_True in Hsc by done.
    split_and!.
    + by apply (f_equal total_runtime) in Hsc.
    + by apply (f_equal state) in Hsc.
    + rewrite (queue_members_repr _ _ _ HL').
      unfold queues_after_load, queues_after_save.
      rewrite decide_True by done.
      destruct (decide (priority tc = priority tn)) as [Ep|Ep].
      * rewrite <-Ep, !fn_lookup_insert, filter_app. f_equal.
        by rewrite filter_cons_True by done.
      * rewrite fn_lookup_insert_ne, fn_lookup_insert by done.
        by rewrite Hfilter.
  - intros Hrun. unfold save_data in Hsc. rewrite decide_False in Hsc by done.
    split_and!.
    + by apply (f_equal total_runtime) in Hsc.
    + by apply (f_equal state) in Hsc.
    + intros p. rewrite (queue_members_repr _ _ _ HL').
      unfold queues_after_load, queues_after_save.
      rewrite decide_False by done.
      destruct (decide (p = priority tn)) as [->|Ep].
      * by rewrite fn_lookup_insert.
      * rewrite fn_lookup_insert_ne by done. by rewrite Hfilter.
  - by eexists.
Qed.

Lemma abc_kernel_eq : abc_started = Some abc_kernel.
Proof. by vm_compute. Qed.

Definition slot_tcb (k : kernel) (i : nat) : tcb_t :=
  default zero_tcb (task_pool k !! i).

Lemma context_switch_effect_witness :
  ∃ k', context_switch (Some 1%nat) (Some 2%nat) abc_kernel = Some k' ∧
        current_task k' = Some 2%nat ∧
        queue_members k' 1 = [3%nat; 1%nat].
Proof.
  destruct (context_switch_effect abc_kernel 1 2
              (slot_tcb abc_kernel 1) (slot_tcb abc_kernel 2))
    as [_ H].
  - destruct (reachable_Inv _ abc_kernel_reachable) as (Q & HL & _).
    exists Q. exact HL.
  - vm_compute. reflexivity.
  - vm_compute. reflexivity.
  - intros _. apply (bool_decide_unpack _). vm_compute. exact I.
  - apply (bool_decide_unpack _). vm_compute. exact I.
  - destruct H as (k' & tc' & tn' & E & _ & Hcur & _ & _ & _ & _ & _ & _ & _
                   & _ & Hrun & _); [lia|].
    exists k'. split; [exact E|]. split; [exact Hcur|].
    destruct Hrun as (_ & _ & HQ); [vm_compute; reflexivity|].
    vm_compute in HQ. vm_compute. exact HQ.
Defined.

(** ** C9: the tick *)

(** The TCB of slot [x] through the steps of a tick. *)
Lemma tick_trace_data k c k1 k2 b k' x t :
  tick_trace k c k1 k2 b k' → task_pool k !! x = Some t →
  ∃ t2 t', task_pool k2 !! x = Some t2 ∧
    strip t2 = sweep_data k1 x (at_slot c dec_data x (strip t)) ∧
    task_pool k' !! x = Some t' ∧
    ((t' = t2 ∧ current_task k' = current_task k) ∨
     ∃ a ta, b = true ∧ a ≠ c ∧ task_pool k2 !! a = Some ta ∧
       state ta = TASK_READY ∧ current_task k' = Some a ∧
       strip t' = at_slot a load_data x
                    (at_slot c (save_data (system_tick_count k2)) x
                       (strip t2))).
Proof.
  intros (E1 & Hf1 & HI1 & Hd1 & E2 & Hf2 & HI2 & Hd2 & Eb & E' & HI' & Hcase)
    Ht.
  assert (data k1 = alter dec_data c (data (incr_ticks k))) as Hd1' by done.
  destruct (data_map_fwd _ _ _ x t (data_alter_map _ _ _ _ Hd1'))
    as (t1 & Ht1 & Hs1); [done|].
  destruct (data_map_fwd _ _ _ x t1 Hd2 Ht1) as (t2 & Ht2 & Hs2).
  rewrite Hs1 in Hs2.
  destruct Hcase as [->|(a & ta & Hb & Hac & Hta & Hsta & _ & Hf' & Hd')].
  - exists t2, t2. split_and!; [done..|]. left. split; [done|].
    destruct (frame_globals_eq _ _ Hf2) as (-> & _).
    by destruct (frame_globals_eq _ _ Hf1) as (-> & _).
  - destruct (data_map_fwd _ _ _ x t2 (data_switch_map _ _ _ _ _ Hd') Ht2)
      as (t' & Ht' & Hs').
    exists t2, t'. split_and!; [done..|]. right. exists a, ta.
    split_and!; [done..| |done].
    by destruct (frame_globals_eq _ _ Hf') as (-> & _).
Qed.

Lemma tick_trace_globals k c k1 k2 b k' :
  tick_trace k c k1 k2 b k' →
  system_tick_count k1 = u32 (system_tick_count k + 1) ∧
  system_tick_count k2 = u32 (system_tick_count k + 1) ∧
  system_tick_count k' = u32 (system_tick_count k + 1) ∧
  total_ticks (stats k') = u32 (total_ticks (stats k) + 1) ∧
  task_pool_used k1 = task_pool_used k ∧
  task_pool_used k' = task_pool_used k ∧
  scheduler_running k' = scheduler_running k ∧
  idle_task k' = idle_task k ∧
  (current_task k' = current_task k ∨ b = true).
Proof.
  intros (E1 & Hf1 & HI1 & Hd1 & E2 & Hf2 & HI2 & Hd2 & Eb & E' & HI' & Hcase).
  destruct (frame_globals_eq _ _ Hf1) as (Hc1 & Hi1 & _ & Hr1 & Ht1 & Hs1 & Hu1).
  destruct (frame_globals_eq _ _ Hf2) as (Hc2 & Hi2 & _ & Hr2 & Ht2 & Hs2 & Hu2).
  simpl in *.
  destruct Hcase as [->|(a & ta & Hb & _ & _ & _ & _ & Hf' & _)].
  - rewrite ?Hc2, ?Hi2, ?Hr2, ?Ht2, ?Hs2, ?Hu2, ?Hc1, ?Hi1, ?Hr1, ?Ht1,
      ?Hs1, ?Hu1.
    split_and!; try done. by left.
  - destruct (frame_globals_eq _ _ Hf') as (Hc' & Hi' & _ & Hr' & Ht' & Hs' & Hu').
    simpl in *.
    rewrite ?Hc', ?Hi', ?Hr', ?Ht', ?Hs', ?Hu', ?Hc2, ?Hi2, ?Hr2, ?Ht2, ?Hs2,
      ?Hu2, ?Hc1, ?Hi1, ?Hr1, ?Ht1, ?Hs1, ?Hu1.
    split_and!; try done. by right.
Qed.

(** C9: every tick advances [system_tick_count] and [stats.total_ticks] by
    one (32-bit arithmetic).  On a running scheduler the slice of the task
    that was current goes down by one if it was positive and is left alone
    at zero.  When the scheduler is not running, or there is no current
    task, only the two counters change. *)
Theorem scheduler_tick_counters k :
  Inv k →
  ∃ k', scheduler_tick k = Some k' ∧
    system_tick_count k' = u32 (system_tick_count k + 1) ∧
    total_ticks (stats k') = u32 (total_ticks (stats k) + 1) ∧
    (0 ≤ system_tick_count k < 2 ^ 32 - 1 →
     system_tick_count k' = system_tick_count k + 1) ∧
    (0 ≤ total_ticks (stats k) < 2 ^ 32 - 1 →
     total_ticks (stats k') = total_ticks (stats k) + 1) ∧
    (∀ c tc, scheduler_running k = true → current_task k = Some c →
       task_pool k !! c = Some tc →
       ∃ tc', task_pool k' !! c = Some tc' ∧
         time_slice_remaining tc' =
           (if 0 <? time_slice_remaining tc then time_slice_remaining tc - 1
            else time_slice_remaining tc) ∧
         (0 ≤ time_slice_remaining tc → 0 ≤ time_slice_remaining tc')) ∧
    (scheduler_running k = false ∨ current_task k = None →
     ready_queues k' = ready_queues k ∧ current_task k' = current_task k ∧
     idle_task k' = idle_task k ∧ next_task_id k' = next_task_id k ∧
     scheduler_running k' = scheduler_running k ∧
     task_pool k' = task_pool k ∧ task_pool_used k' = task_pool_used k ∧
     total_context_switches (stats k') = total_context_switches (stats k) ∧
     idle_time (stats k') = idle_time (stats k) ∧
     tasks_created (stats k') = tasks_created (stats k) ∧
     tasks_deleted (stats k') = tasks_deleted (stats k)).
Proof.
  intros HI.
  assert (∀ z, 0 ≤ z < 2 ^ 32 - 1 → u32 (z + 1) = z + 1) as Hsmall.
  { intros z Hz. unfold u32. apply Z.mod_small. lia. }
  assert (scheduler_running k = false ∨ current_task k = None →
          ∃ k', scheduler_tick k = Some k' ∧ k' = incr_ticks k) as Hidle.
  { intros H. exists (incr_ticks k). by rewrite scheduler_tick_idle. }
  destruct (scheduler_running k) eqn:Hr.
  2:{ destruct Hidle as (k' & E & ->); [by left|]. exists (incr_ticks k).
      split; [done|]. split; [done|]. split; [done|].
      split; [intros; by apply Hsmall|]. split; [intros; by apply Hsmall|].
      split; [|done]. intros c tc [=]. }
  destruct (current_task k) as [c|] eqn:Hc.
  2:{ destruct Hidle as (k' & E & ->); [by right|]. exists (incr_ticks k).
      split; [done|]. split; [done|]. split; [done|].
      split; [intros; by apply Hsmall|]. split; [intros; by apply Hsmall|].
      split; [|done]. intros c tc _ [=]. }
  destruct (tick_running_spec k c HI Hr Hc) as (k1 & k2 & b & k' & E & Htr).
  destruct (tick_trace_globals _ _ _ _ _ _ Htr) as (_ & _ & Ht & Hs & _).
  exists k'. split_and!; [done|done|done|..].
  - intros Hz. by rewrite Ht, Hsmall.
  - intros Hz. by rewrite Hs, Hsmall.
  - intros c' tc _ [= <-] Htc.
    destruct (Inv_current _ _ HI Hc) as (_ & tc0 & Htc0 & Hrun & Hu).
    assert (tc0 = tc) as -> by congruence.
    destruct (tick_trace_data _ _ _ _ _ _ c tc Htr Htc)
      as (t2 & t' & Ht2 & Hs2 & Ht' & Hcase).
    unfold at_slot in Hs2. rewrite decide_True in Hs2 by done.
    assert (strip t2 = dec_data (strip tc)) as Hdec.
    { rewrite Hs2. unfold sweep_data, wake_data, wake_due.
      assert (state (dec_data (strip tc)) = TASK_RUNNING) as ->.
      { unfold dec_data. by case_match. }
      rewrite bool_decide_eq_false_2 by done. simpl. by rewrite andb_false_r. }
    assert (time_slice_remaining t' = time_slice_remaining (dec_data (strip tc)))
      as Hslice.
    { destruct Hcase as [[-> _]|(a & ta & _ & Hac & _ & _ & _ & Hs')].
      - by rewrite <-Hdec.
      - unfold at_slot in Hs'.
        rewrite decide_False, decide_True in Hs' by done.
        apply (f_equal time_slice_remaining) in Hs'. simpl in Hs'.
        rewrite Hs', <-Hdec. unfold save_data. by case_decide. }
    exists t'. split; [done|]. rewrite Hslice. unfold dec_data. simpl.
    destruct (0 <? time_slice_remaining tc) eqn:Hpos; simpl; [|done].
    apply Z.ltb_lt in Hpos. split; [done|lia].
  - intros [?|?]; done.
Qed.

Lemma scheduler_tick_counters_witness :
  ∃ k', scheduler_tick abc_kernel = Some k' ∧
        system_tick_count k' = system_tick_count abc_kernel + 1 ∧
        ∃ tc', task_pool k' !! 1%nat = Some tc' ∧ time_slice_remaining tc' = 9.
Proof.
  destruct (scheduler_tick_counters abc_kernel)
    as (k' & E & _ & _ & Ht & _ & Hslice & _).
  - apply reachable_Inv, abc_kernel_reachable.
  - exists k'. split; [exact E|]. split.
    + apply Ht. vm_compute. split; [discriminate|reflexivity].
    + destruct (Hslice 1%nat (slot_tcb abc_kernel 1)) as (tc' & Htc' & Hs & _).
      * vm_compute. reflexivity.
      * vm_compute. reflexivity.
      * vm_compute. reflexivity.
      * exists tc'. split; [exact Htc'|]. rewrite Hs. vm_compute. reflexivity.
Defined.

(** ** C3: the reschedule decision *)

(** C3: in a tick on a running scheduler with current task [c], let [k2] be
    the kernel after the slice update and the wake sweep.  The tick
    reschedules ([scheduler_get_next_task] followed by [context_switch])
    exactly when the slice of [c] is zero in [k2] or a used, ready task has a
    strictly smaller priority number than [c]; otherwise the tick ends in
    [k2].  So with slice left, ready tasks of equal (or lower) priority do
    not preempt: [c] stays the current task. *)
Theorem need_reschedule_iff k c :
  Inv k → scheduler_running k = true → current_task k = Some c →
  ∃ k1 k2 tc b k',
    decrement_slice c (incr_ticks k) = Some k1 ∧
    wake_sleeping_tasks k1 = Some k2 ∧
    task_pool k2 !! c = Some tc ∧
    need_reschedule c k2 = Some b ∧
    (b = true ↔ time_slice_remaining tc = 0 ∨ higher_ready k2 (priority tc)) ∧
    scheduler_tick k = Some k' ∧
    (b = true → reschedule k2 = Some k') ∧
    (b = false → k' = k2) ∧
    (time_slice_remaining tc ≠ 0 →
     (∀ x t, task_pool k2 !! x = Some t → task_pool_used k2 !! x = Some true →
             state t = TASK_READY → (priority tc ≤ priority t)%nat) →
     k' = k2 ∧ current_task k' = Some c).
Proof.
  intros HI Hr Hc.
  destruct (tick_running_spec k c HI Hr Hc) as (k1 & k2 & b & k' & E & Htr).
  pose proof Htr
    as (E1 & Hf1 & HI1 & Hd1 & E2 & Hf2 & HI2 & Hd2 & Eb & E' & HI' & Hcase).
  destruct (frame_globals_eq _ _ Hf1) as (Hc1 & _).
  destruct (frame_globals_eq _ _ Hf2) as (Hc2 & _).
  assert (current_task k2 = Some c) as Hcur2 by (rewrite Hc2, Hc1; done).
  destruct (Inv_current _ _ HI2 Hcur2) as (_ & tc & Htc & _).
  destruct (need_reschedule_spec k2 c tc HI2 Htc) as (b' & Eb' & Hiff).
  assert (b' = b) as -> by congruence.
  exists k1, k2, tc, b, k'. split_and!; [done..| | |].
  - intros ->. done.
  - intros ->. congruence.
  - intros Hslice Hprio.
    assert (b = false) as ->.
    { destruct b; [|done].
      destruct Hiff as [[?|(x & t & Hx & Hu & Hst & Hlt)] _]; [done|done|].
      specialize (Hprio x t Hx Hu Hst). lia. }
    split; congruence.
Qed.

Lemma need_reschedule_iff_witness :
  ∃ k2 tc b k',
    task_pool k2 !! 1%nat = Some tc ∧ need_reschedule 1 k2 = Some b ∧
    (b = true ↔ time_slice_remaining tc = 0 ∨ higher_ready k2 (priority tc)) ∧
    scheduler_tick abc_kernel = Some k'.
Proof.
  destruct (need_reschedule_iff abc_kernel 1)
    as (k1 & k2 & tc & b & k' & _ & _ & Htc & Eb & Hiff & E & _).
  - apply reachable_Inv, abc_kernel_reachable.
  - vm_compute. reflexivity.
  - vm_compute. reflexivity.
  - exists k2, tc, b, k'. split; [exact Htc|]. split; [exact Eb|].
    split; [exact Hiff|exact E].
Defined.

(** ** C2: sleep *)

Definition slot_state (k : kernel) (c : nat) : option task_state_t :=
  state <$> task_pool k !! c.

(** [task_sleep ms] called in [k] by the current task [c], at tick
    [T = system_tick_count k]: [c] is not the current task afterwards, it is
    blocked after each of the first [n < ms] ticks, and after tick [T + ms]
    it has left the blocked state (it is ready, or already dispatched). *)
Definition sleeps_until (k : kernel) (c : nat) (ms : Z) : Prop :=
  ∃ k', task_sleep ms k = Some k' ∧ current_task k' ≠ Some c ∧
    (∀ n, Z.of_nat n < ms →
       ∃ kn, run_ticks n k' = Some kn ∧
         system_tick_count kn = system_tick_count k + Z.of_nat n ∧
         slot_state kn c = Some TASK_BLOCKED) ∧
    (∃ kn, run_ticks (Z.to_nat ms) k' = Some kn ∧
       system_tick_count kn = system_tick_count k + ms ∧
       (slot_state kn c = Some TASK_READY ∨
        (slot_state kn c = Some TASK_RUNNING ∧ current_task kn = Some c))).

(** Task A in slot 1 has run for five ticks. *)
Definition a_at_tick_5 : option kernel :=
  kernel_after [CCreate "A" 0x08001000 0 1 512; CStart;
                CTick; CTick; CTick; CTick; CTick].

Definition a_at_tick_5_kernel : kernel := default boot a_at_tick_5.

(** C2 fails as stated for [ms = 0]: task A calls [task_sleep 0] at tick 5.
    It is blocked with [wake_time = 5], and the sweep only runs in the next
    tick: A is blocked at tick 5 = T + 0; the sweep of tick 6 wakes it, and
    the same tick dispatches it. *)
Lemma sleep_zero_wakes_one_tick_late :
  current_task a_at_tick_5_kernel = Some 1%nat ∧
  system_tick_count a_at_tick_5_kernel = 5 ∧
  (k ← task_sleep 0 a_at_tick_5_kernel;
   Some (system_tick_count k, slot_state k 1,
         wake_time <$> task_pool k !! 1%nat))
  = Some (5, Some TASK_BLOCKED, Some 5) ∧
  (k ← task_sleep 0 a_at_tick_5_kernel; k ← scheduler_tick k;
   Some (system_tick_count k, slot_state k 1))
  = Some (6, Some TASK_RUNNING) ∧
  ¬ sleeps_until a_at_tick_5_kernel 1 0.
Proof.
  split; [vm_compute; reflexivity|]. split; [vm_compute; reflexivity|].
  split; [vm_compute; reflexivity|]. split; [vm_compute; reflexivity|].
  intros (k' & E & _ & _ & (kn & En & _ & Hst)).
  change (Z.to_nat 0) with 0%nat in En. simpl in En. injection En as <-.
  vm_compute in E. injection E as <-.
  vm_compute in Hst. destruct Hst as [Hst|[Hst _]]; discriminate.
Qed.

(** The sleeper [c]: blocked with wake tick [w], used, and not current. *)
Definition asleep (w : Z) (c : nat) (k : kernel) : Prop :=
  Inv k ∧ scheduler_running k = true ∧ current_task k ≠ Some c ∧
  ∃ t, task_pool k !! c = Some t ∧ state t = TASK_BLOCKED ∧
       wake_time t = w ∧ task_pool_used k !! c = Some true.

Lemma asleep_current w c k :
  asleep w c k → ∃ c', current_task k = Some c' ∧ c' ≠ c.
Proof.
  intros ((Q & HL & HS) & Hr & Hc & _).
  pose proof (sinv_current _ _ HS) as H5. rewrite Hr in H5.
  destruct H5 as (c' & t & Hc' & _). exists c'. split; [done|]. congruence.
Qed.

(** The sleeper through one tick: [sd] is what the sweep does to it. *)
Lemma asleep_tick_data w c k t :
  asleep w c k → task_pool k !! c = Some t →
  0 ≤ system_tick_count k < 2 ^ 32 - 1 →
  ∃ c' k1 k2 b k' t2 t',
    scheduler_tick k = Some k' ∧ tick_trace k c' k1 k2 b k' ∧
    system_tick_count k' = system_tick_count k + 1 ∧
    scheduler_running k' = true ∧ Inv k' ∧
    task_pool_used k' !! c = Some true ∧
    task_pool k2 !! c = Some t2 ∧
    strip t2 = wake_data true (system_tick_count k + 1) (strip t) ∧
    task_pool k' !! c = Some t' ∧
    ((strip t' = strip t2 ∧
      (current_task k' ≠ Some c ∨ state t2 ≠ TASK_BLOCKED)) ∨
     (state t2 = TASK_READY ∧ current_task k' = Some c ∧
      strip t' = load_data (strip t2))).
Proof.
  intros Has Ht Htick.
  destruct (asleep_current _ _ _ Has) as (c' & Hc' & Hne).
  destruct Has as (HI & Hr & Hcur & t0 & Ht0 & Hst & Hw & Hu).
  assert (t0 = t) as -> by congruence.
  destruct (tick_running_spec k c' HI Hr Hc') as (k1 & k2 & b & k' & E & Htr).
  destruct (tick_trace_globals _ _ _ _ _ _ Htr)
    as (Ht1 & _ & Ht' & _ & Hu1 & Hu' & Hr' & _).
  destruct (tick_trace_data _ _ _ _ _ _ c t Htr Ht)
    as (t2 & t' & Ht2 & Hs2 & Htp & Hcase).
  assert (u32 (system_tick_count k + 1) = system_tick_count k + 1) as Hsmall.
  { unfold u32. apply Z.mod_small. lia. }
  unfold at_slot, sweep_data in Hs2. rewrite decide_False in Hs2 by done.
  rewrite Hu1, Hu, Ht1, Hsmall in Hs2. simpl in Hs2.
  exists c', k1, k2, b, k', t2, t'. split_and!; try done.
  - by rewrite Ht', Hsmall.
  - by rewrite Hr'.
  - apply Htr.
  - by rewrite Hu'.
  - destruct Hcase as [[-> Hsame]|(a & ta & _ & Hac & Hta & Hsta & Hca & Hs')].
    + left. split; [done|]. left. by rewrite Hsame.
    + unfold at_slot in Hs'. rewrite (decide_False (P := c = c')) in Hs' by done.
      destruct (decide (c = a)) as [->|Hca'].
      * right. assert (ta = t2) as -> by congruence. done.
      * left. split; [done|]. left. congruence.
Qed.

Lemma asleep_tick w c k :
  asleep w c k → 0 ≤ system_tick_count k → system_tick_count k + 1 < w →
  w < 2 ^ 32 →
  ∃ k', scheduler_tick k = Some k' ∧ asleep w c k' ∧
        system_tick_count k' = system_tick_count k + 1.
Proof.
  intros Has H0 Hlt Hw.
  pose proof Has as (_ & _ & _ & t & Ht & Hst & Hwt & _).
  destruct (asleep_tick_data w c k t Has Ht)
    as (c' & k1 & k2 & b & k' & t2 & t' & E & _ & Htick & Hr' & HI' & Hu'
        & Ht2 & Hs2 & Ht' & Hcase); [lia|].
  assert (strip t2 = strip t) as Hsame.
  { rewrite Hs2. unfold wake_data, wake_due. simpl. rewrite Hwt.
    rewrite (proj2 (Z.leb_gt _ _)) by lia. by rewrite andb_false_r. }
  assert (state t2 = TASK_BLOCKED) as Hst2.
  { apply (f_equal state) in Hsame. simpl in Hsame. congruence. }
  exists k'. split; [done|]. split; [|done].
  destruct Hcase as [[Hs' [Hcur|?]]|(? & _)]; [|done|congruence].
  split_and!; [done..|]. exists t'. split; [done|].
  rewrite Hsame in Hs'. split_and!; [| |done].
  - apply (f_equal state) in Hs'. simpl in Hs'. congruence.
  - apply (f_equal wake_time) in Hs'. simpl in Hs'. congruence.
Qed.

Lemma asleep_run w c n k :
  asleep w c k → 0 ≤ system_tick_count k →
  system_tick_count k + Z.of_nat n < w → w < 2 ^ 32 →
  ∃ kn, run_ticks n k = Some kn ∧ asleep w c kn ∧
        system_tick_count kn = system_tick_count k + Z.of_nat n.
Proof.
  revert k. induction n as [|n IH]; intros k Has H0 Hlt Hw.
  - exists k. split; [done|]. split; [done|]. lia.
  - destruct (asleep_tick w c k Has) as (k1 & E1 & Has1 & Ht1); [lia..|].
    destruct (IH k1 Has1) as (kn & En & Hasn & Htn); [lia..|].
    exists kn. split; [|split; [done|lia]]. simpl. by rewrite E1.
Qed.

Lemma asleep_wake w c k :
  asleep w c k → 0 ≤ system_tick_count k → system_tick_count k + 1 = w →
  w < 2 ^ 32 →
  ∃ k', scheduler_tick k = Some k' ∧ system_tick_count k' = w ∧
        (slot_state k' c = Some TASK_READY ∨
         (slot_state k' c = Some TASK_RUNNING ∧ current_task k' = Some c)).
Proof.
  intros Has H0 Heq Hw.
  pose proof Has as (_ & _ & _ & t & Ht & Hst & Hwt & _).
  destruct (asleep_tick_data w c k t Has Ht)
    as (c' & k1 & k2 & b & k' & t2 & t' & E & _ & Htick & Hr' & HI' & Hu'
        & Ht2 & Hs2 & Ht' & Hcase); [lia|].
  assert (strip t2 = set_state TASK_READY (set_wake_time 0 (strip t))) as Hwoken.
  { rewrite Hs2. unfold wake_data, wake_due. simpl. rewrite Hwt, Hst.
    rewrite bool_decide_eq_true_2 by done.
    rewrite (proj2 (Z.ltb_lt _ _)) by lia.
    by rewrite (proj2 (Z.leb_le _ _)) by lia. }
  exists k'. split; [done|]. split; [lia|].
  unfold slot_state. rewrite Ht'. simpl.
  destruct Hcase as [[Hs' _]|(_ & Hcur & Hs')].
  - left. rewrite Hwoken in Hs'. apply (f_equal state) in Hs'. simpl in Hs'.
    congruence.
  - right. apply (f_equal state) in Hs'. simpl in Hs'. split; congruence.
Qed.

Lemma run_ticks_snoc n k :
  run_ticks (S n) k = run_ticks n k ≫= scheduler_tick.
Proof.
  revert k. induction n as [|n IH]; intros k.
  - simpl. by destruct (scheduler_tick k).
  - change (run_ticks (S (S n)) k)
      with (scheduler_tick k ≫= run_ticks (S n)).
    change (run_ticks (S n) k) with (scheduler_tick k ≫= run_ticks n).
    destruct (scheduler_tick k) as [k1|]; [|done]. simpl. apply IH.
Qed.

(** C2, amended: a task other than the idle task that calls
    [task_sleep ms] with [ms ≥ 1] at tick [T], where [T + ms] does not
    overflow 32 bits, is not the current task afterwards; one tick is one
    millisecond; it is blocked after every tick before [T + ms], and the
    wake sweep of tick [T + ms] makes it ready (the same tick may already
    dispatch it). *)
Theorem sleep_wakes_at_deadline k c ms :
  Inv k → current_task k = Some c → idle_task k ≠ Some c →
  1 ≤ ms → 0 ≤ system_tick_count k → system_tick_count k + ms < 2 ^ 32 →
  sleeps_until k c ms.
Proof.
  intros HI Hc Hidle Hms H0 Hfit.
  destruct (Inv_current _ _ HI Hc) as (Hr & tc & Htc & Hstc & Huc).
  destruct (task_sleep_spec k c ms HI Hc Hidle)
    as (k' & a & ta & E & HI' & Hac & Hta & Hsta & Hua & Hf & Hd).
  destruct (frame_globals_eq _ _ Hf) as (Hc' & _ & _ & Hr' & Ht' & _ & Hu').
  simpl in Hc', Hr', Ht', Hu'.
  set (w := system_tick_count k + ms).
  assert (u32 (system_tick_count k + ms) = w) as Hw.
  { unfold u32. apply Z.mod_small. lia. }
  assert (asleep w c k') as Has.
  { split; [done|]. split; [congruence|]. split; [congruence|].
    assert (∀ x, data k' !! x =
              (at_slot a load_data x
               ∘ at_slot c (save_data (system_tick_count k)
                            ∘ sleep_data (u32 (system_tick_count k + ms))) x)
                <$> data k !! x) as Hmap.
    { intros x. rewrite Hd, list_alter_alter_eq, !list_lookup_alter.
      unfold at_slot, compose.
      repeat case_decide; simplify_eq; by destruct (data k !! _). }
    destruct (data_map_fwd _ _ _ c tc Hmap Htc) as (tc' & Htc' & Hs).
    unfold at_slot, compose in Hs.
    rewrite decide_False, decide_True in Hs by done. simpl in Hs.
    exists tc'. split; [done|]. rewrite Hw in Hs.
    split_and!; [| |by rewrite Hu'].
    - by apply (f_equal state) in Hs.
    - by apply (f_equal wake_time) in Hs. }
  exists k'. split; [done|]. split; [congruence|]. split.
  - intros n Hn.
    destruct (asleep_run w c n k' Has) as (kn & En & Hasn & Htn);
      [lia|unfold w; lia|unfold w; lia|].
    exists kn. split; [done|]. split; [lia|].
    destruct Hasn as (_ & _ & _ & t & Ht & Hst & _).
    unfold slot_state. by rewrite Ht, <-Hst.
  - assert (Z.to_nat ms = S (Z.to_nat (ms - 1))) as -> by lia.
    rewrite run_ticks_snoc.
    destruct (asleep_run w c (Z.to_nat (ms - 1)) k' Has)
      as (kp & Ep & Hasp & Htp); [lia|unfold w; lia|unfold w; lia|].
    rewrite Ep. simpl.
    destruct (asleep_wake w c kp Hasp) as (kn & En & Htn & Hst);
      [lia|unfold w; lia|unfold w; lia|].
    exists kn. split; [done|]. split; [done|done].
Qed.

Lemma sleep_wakes_at_deadline_witness :
  sleeps_until a_at_tick_5_kernel 1 25.
Proof.
  apply (sleep_wakes_at_deadline a_at_tick_5_kernel 1 25).
  - apply reachable_Inv.
    apply (kernel_after_reachable
             [CCreate "A" 0x08001000 0 1 512; CStart;
              CTick; CTick; CTick; CTick; CTick]).
    + vm_compute. repeat split.
    + vm_compute. reflexivity.
  - vm_compute. reflexivity.
  - vm_compute. discriminate.
  - lia.
  - vm_compute. discriminate.
  - vm_compute. reflexivity.
Defined.

(** ** C6: one running task *)

(** Exactly one slot of the pool is in state [TASK_RUNNING], and it is the
    current task. *)
Definition one_running (k : kernel) : Prop :=
  ∃ c t, current_task k = Some c ∧ task_pool k !! c = Some t ∧
    state t = TASK_RUNNING ∧
    ∀ x t', task_pool k !! x = Some t' → state t' = TASK_RUNNING → x = c.

Lemma Inv_one_running k : Inv k → scheduler_running k = true → one_running k.
Proof.
  intros (Q & HL & HS) Hr.
  pose proof (sinv_current _ _ HS) as H5. rewrite Hr in H5.
  destruct H5 as (c & t & Hc & Ht & Hst). exists c, t. split_and!; [done..|].
  intros x t' Hx Hst'. destruct (sinv_running _ _ HS x t' Hx Hst') as [Hcx _].
  congruence.
Qed.

(** No call stops the scheduler. *)
Lemma do_call_started c k :
  Inv k → call_ok c k → scheduler_running k = true →
  ∃ k', do_call c k = Some k' ∧ Inv k' ∧ scheduler_running k' = true.
Proof.
  intros HI Hok Hr.
  assert (∃ c0, current_task k = Some c0) as (c0 & Hc0).
  { destruct (Inv_one_running k HI Hr) as (c0 & _ & ? & _). by exists c0. }
  destruct c as [name_ f a p ss| | | |ms]; simpl in *.
  - unfold task_create.
    destruct (decide (PRIORITY_LEVELS ≤ p)%nat); [by eauto|].
    destruct (decide (STACK_SIZE < ss)); [by eauto|].
    destruct (find_free_slot k) as [slot|] eqn:Hfind; [|by eauto].
    destruct HI as (Q & HL & HS).
    destruct (task_create_Inv name_ f a p ss k Q slot)
      as (k' & E & HL' & HS' & Hf & _); [done|done|lia|lia|done|].
    unfold task_create in E.
    rewrite !decide_False, Hfind in E by done.
    rewrite E. simpl. exists k'. split; [done|]. split; [by eexists|].
    destruct (frame_globals_eq _ _ Hf) as (_ & _ & _ & -> & _). done.
  - congruence.
  - destruct (tick_running_spec k c0 HI Hr Hc0) as (k1 & k2 & b & k' & E & Htr).
    exists k'. split; [done|]. split; [apply Htr|].
    destruct (tick_trace_globals _ _ _ _ _ _ Htr)
      as (_ & _ & _ & _ & _ & _ & -> & _). done.
  - unfold task_yield. rewrite Hr, Hc0.
    destruct (Inv_current _ _ HI Hc0) as (_ & tc & Htc & _).
    destruct (Inv_update_data k c0 (set_time_slice_remaining 0) tc)
      as (k1 & -> & Hf & HI1 & Hd); [done..|].
    destruct (frame_globals_eq _ _ Hf) as (Hc1 & _ & _ & Hr1 & _).
    simpl.
    destruct (tick_running_spec k1 c0 HI1) as (k2 & k3 & b & k' & E & Htr);
      [congruence..|].
    exists k'. split; [done|]. split; [apply Htr|].
    destruct (tick_trace_globals _ _ _ _ _ _ Htr)
      as (_ & _ & _ & _ & _ & _ & -> & _). congruence.
  - destruct (task_sleep_spec k c0 ms HI Hc0) as (k' & a & ta & E & HI' & _ & _
      & _ & _ & Hf & _); [congruence|].
    exists k'. split; [done|]. split; [done|].
    destruct (frame_globals_eq _ _ Hf) as (_ & _ & _ & -> & _). done.
Qed.

(** Only the idle task exists; the scheduler is started and the idle task,
    which is the current task, calls [task_sleep]. *)
Definition idle_asleep : option kernel := kernel_after [CStart; CSleep 5].

Definition idle_asleep_kernel : kernel := default boot idle_asleep.

(** Outside the contract: the source calls the idle task "always ready" and
    its body only yields.  Were it to call [task_sleep] while no other task
    is ready, [scheduler_get_next_task] would find every queue empty and
    fall back to the idle task itself, [context_switch] would return at
    once, and the current task would be the blocked idle task, with no task
    in state [TASK_RUNNING]. *)
Lemma idle_sleep_leaves_no_running_task :
  idle_asleep = Some idle_asleep_kernel ∧
  scheduler_running idle_asleep_kernel = true ∧
  current_task idle_asleep_kernel = Some 0%nat ∧
  idle_task idle_asleep_kernel = Some 0%nat ∧
  slot_state idle_asleep_kernel 0 = Some TASK_BLOCKED ∧
  state <$> task_pool idle_asleep_kernel
    = TASK_BLOCKED :: replicate 7 TASK_READY ∧
  ¬ one_running idle_asleep_kernel.
Proof.
  split; [vm_compute; reflexivity|]. split; [vm_compute; reflexivity|].
  split; [vm_compute; reflexivity|]. split; [vm_compute; reflexivity|].
  split; [vm_compute; reflexivity|]. split; [vm_compute; reflexivity|].
  intros (c & t & Hc & Ht & Hst & _).
  vm_compute in Hc. injection Hc as <-.
  vm_compute in Ht. injection Ht as <-.
  vm_compute in Hst. discriminate.
Qed.

(** C6: in every kernel reached from [rtos_init] by calls within their
    contract (the idle task never sleeps, [rtos_start] is entered once),
    once the scheduler is started exactly one task is in state
    [TASK_RUNNING] and it is the current task; every further call (tick,
    yield, sleep, task creation) returns, leaves the scheduler started, and
    the same holds after it. *)
Theorem one_running_task k :
  reachable k → scheduler_running k = true →
  one_running k ∧
  ∀ c, call_ok c k →
    ∃ k', do_call c k = Some k' ∧ scheduler_running k' = true ∧
          one_running k'.
Proof.
  intros Hk Hr. pose proof (reachable_Inv k Hk) as HI.
  split; [by apply Inv_one_running|].
  intros c Hok. destruct (do_call_started c k HI Hok Hr) as (k' & E & HI' & Hr').
  exists k'. split; [done|]. split; [done|]. by apply Inv_one_running.
Qed.

Lemma one_running_task_witness :
  one_running abc_kernel ∧
  ∀ c, call_ok c abc_kernel →
    ∃ k', do_call c abc_kernel = Some k' ∧ scheduler_running k' = true ∧
          one_running k'.
Proof.
  apply (one_running_task abc_kernel).
  - apply abc_kernel_reachable.
  - vm_compute. reflexivity.
Defined.

(** ** C7: single queue membership *)

(** No slot is linked twice into a queue, and none into two queues. *)
Definition single_membership (k : kernel) : Prop :=
  (∀ p, NoDup (queue_members k p)) ∧
  (∀ p q x, x ∈ queue_members k p → x ∈ queue_members k q → p = q).

Lemma LInv_single_membership k Q : LInv k Q → single_membership k.
Proof.
  intros HL. split.
  - intros p. rewrite (queue_members_repr k Q p HL).
    by destruct (linv_ring _ _ HL p).
  - intros p q x. rewrite !(queue_members_repr k Q _ HL).
    apply (LInv_disjoint k Q p q x HL).
Qed.

(** Tasks A and B, both of priority 1, are created: queue 1 is [A; B]. *)
Definition ab_ready : option kernel :=
  kernel_after [CCreate "A" 0x08001000 0 1 512; CCreate "B" 0x08002000 0 1 512].

Definition ab_ready_kernel : kernel := default boot ab_ready.

(** Task A, the head of its queue, is enqueued again. *)
Definition ab_requeued_kernel : kernel :=
  default boot (add_task_to_ready_queue 1 ab_ready_kernel).

(** C7 fails as stated in its second half: [add_task_to_ready_queue] does
    not unlink a task that is already linked.  Enqueueing the head A of the
    queue [A; B] again makes A a ring of its own; B still points to A, is
    still ready, but is no longer reached from the head. *)
Lemma enqueue_linked_task_corrupts_queue :
  ab_ready = Some ab_ready_kernel ∧
  queue_members ab_ready_kernel 1 = [1; 2]%nat ∧
  add_task_to_ready_queue 1 ab_ready_kernel = Some ab_requeued_kernel ∧
  queue_members ab_requeued_kernel 1 = [1]%nat ∧
  (λ t, (state t, next t, prev t)) <$> task_pool ab_requeued_kernel !! 2%nat
    = Some (TASK_READY, Some 1%nat, Some 1%nat) ∧
  ¬ well_linked ab_requeued_kernel.
Proof.
  split; [vm_compute; reflexivity|]. split; [vm_compute; reflexivity|].
  split; [vm_compute; reflexivity|]. split; [vm_compute; reflexivity|].
  split; [vm_compute; reflexivity|].
  intros (Q & HL).
  pose proof (queue_members_repr _ Q 1 HL) as HQ. vm_compute in HQ.
  assert (∃ t, task_pool ab_requeued_kernel !! 2%nat = Some t ∧
               priority t = 1%nat ∧ next t = Some 1%nat) as (t & Ht & Hp & Hn).
  { eexists. split; [vm_compute; reflexivity|].
    split; vm_compute; reflexivity. }
  destruct (linv_unlinked _ _ HL 2%nat t Ht) as [Hnone _].
  - rewrite Hp, <-HQ. intros [E|E]%elem_of_cons; [discriminate|].
    by apply elem_of_nil in E.
  - congruence.
Qed.

(** C7, amended: in every kernel reached from [rtos_init] by calls within
    their contract, every slot is linked into at most one ready queue and at
    most once, and the links are well formed; this holds again after every
    further call.  [add_task_to_ready_queue] does not unlink: for a task
    that is in no queue it appends the task at the tail of the queue of its
    priority and leaves the other queues alone. *)
Theorem ready_queue_single_membership k :
  reachable k →
  single_membership k ∧ well_linked k ∧
  (∀ c, call_ok c k →
     ∃ k', do_call c k = Some k' ∧ single_membership k' ∧ well_linked k') ∧
  (∀ x t, task_pool k !! x = Some t → x ∉ queue_members k (priority t) →
     ∃ k', add_task_to_ready_queue x k = Some k' ∧
       single_membership k' ∧ well_linked k' ∧
       queue_members k' (priority t) = queue_members k (priority t) ++ [x] ∧
       ∀ q, q ≠ priority t → queue_members k' q = queue_members k q).
Proof.
  intros Hk. pose proof (reachable_Inv k Hk) as HI.
  pose proof HI as (Q & HL & _).
  split; [by eapply LInv_single_membership|]. split; [by exists Q|]. split.
  - intros c Hok. destruct (do_call_Inv c k HI Hok) as (k' & E & (Q' & HL' & _)).
    exists k'. split; [done|].
    split; [by eapply LInv_single_membership|by exists Q'].
  - intros x t Ht Hx. rewrite (queue_members_repr k Q _ HL) in Hx.
    destruct (add_spec k Q x t HL Ht Hx) as (k' & E & _ & HL' & _).
    exists k'. split; [done|].
    split; [by eapply LInv_single_membership|]. split; [by eexists|]. split.
    + rewrite (queue_members_repr k' _ _ HL'), (queue_members_repr k Q _ HL).
      by rewrite fn_lookup_insert.
    + intros q Hq.
      rewrite (queue_members_repr k' _ _ HL'), (queue_members_repr k Q _ HL).
      by rewrite fn_lookup_insert_ne.
Qed.

Lemma ready_queue_single_membership_witness :
  single_membership abc_kernel ∧ well_linked abc_kernel ∧
  (∀ c, call_ok c abc_kernel →
     ∃ k', do_call c abc_kernel = Some k' ∧ single_membership k' ∧
           well_linked k') ∧
  (∀ x t, task_pool abc_kernel !! x = Some t →
     x ∉ queue_members abc_kernel (priority t) →
     ∃ k', add_task_to_ready_queue x abc_kernel = Some k' ∧
       single_membership k' ∧ well_linked k' ∧
       queue_members k' (priority t)
         = queue_members abc_kernel (priority t) ++ [x] ∧
       ∀ q, q ≠ priority t → queue_members k' q = queue_members abc_kernel q).
Proof.
  apply (ready_queue_single_membership abc_kernel).
  apply abc_kernel_reachable.
Defined.

(** * Further properties of the scheduler *)

(** ** Dispatch order *)

(** The ready queues after a switch: the dispatched task left the head of
    queue [p], whose rest is [r], and the preempted task [c] joined the tail
    of the queue of its priority [pc]. *)
Definition queues_after_switch (Q : nat → list nat) (p : nat) (r : list nat)
    (pc c : nat) (q : nat) : list nat :=
  (if decide (q = p) then r else Q q) ++ (if decide (q = pc) then [c] else []).

Lemma filter_ne_singleton (a c : nat) :
  a ≠ c → filter (λ x, x ≠ a) [c] = [c].
Proof. intros Hac. apply filter_ne_notin. set_solver. Qed.

Lemma filter_ne_self (a : nat) : filter (λ x, x ≠ a) [a] = [].
Proof. by rewrite filter_cons_False by naive_solver. Qed.

Lemma queues_after_switch_eq (Q : nat → list nat) p a r c (tc ta : tcb_t) q :
  Q p = a :: r → a ∉ r → a ≠ c →
  state tc = TASK_RUNNING → priority ta = p →
  queues_after_load (queues_after_save (<[p := r ++ [a]]> Q) c tc) a ta q
  = queues_after_switch Q p r (priority tc) c q.
Proof.
  intros EQ Har Hac Hst Hpa.
  unfold queues_after_load, queues_after_save, queues_after_switch.
  rewrite (decide_True (P := state tc = TASK_RUNNING)) by done. rewrite Hpa.
  destruct (decide (q = p)) as [->|Hqp].
  - rewrite fn_lookup_insert.
    destruct (decide (p = priority tc)) as [Hp|Hp].
    + rewrite <-Hp, !fn_lookup_insert, !filter_app.
      by rewrite filter_ne_notin, filter_ne_self, filter_ne_singleton,
        app_nil_r by done.
    + rewrite fn_lookup_insert_ne, fn_lookup_insert, filter_app by done.
      by rewrite filter_ne_notin, filter_ne_self by done.
  - rewrite fn_lookup_insert_ne by done.
    destruct (decide (q = priority tc)) as [Hq|Hq].
    + rewrite <-Hq, fn_lookup_insert. by rewrite fn_lookup_insert_ne by done.
    + rewrite !fn_lookup_insert_ne, app_nil_r by done. done.
Qed.

(** [reschedule] with a running current task [c]: either every queue is
    empty, [c] is the idle task and nothing happens, or the head [a] of the
    first non-empty queue is dispatched and [c] goes to the tail of the queue
    of its priority. *)
Lemma reschedule_order k c :
  Inv k → scheduler_running k = true → current_task k = Some c →
  ((∀ p, queue_members k p = []) ∧ idle_task k = Some c ∧
   reschedule k = Some k) ∨
  (∃ p a r tc ta k', (p < PRIORITY_LEVELS)%nat ∧
     queue_members k p = a :: r ∧
     (∀ q, (q < p)%nat → queue_members k q = []) ∧
     a ≠ c ∧ task_pool k !! c = Some tc ∧
     task_pool k !! a = Some ta ∧ priority ta = p ∧
     reschedule k = Some k' ∧ Inv k' ∧
     frame_globals (set_current_task (Some a) (incr_context_switches k)) k' ∧
     data k' = alter load_data a
                 (alter (save_data (system_tick_count k)) c (data k)) ∧
     ∀ q, queue_members k' q
          = queues_after_switch (queue_members k) p r (priority tc) c q).
Proof.
  intros HI Hr Hc. destruct (Inv_queue_members k HI) as [HL HS].
  destruct (Inv_current _ _ HI Hc) as (_ & tc & Htc & Hstc & Huc).
  assert (∀ q, c ∉ queue_members k q) as Hcq.
  { intros q Hin. destruct (sinv_member _ _ HS _ _ Hin) as (t & ? & ? & _).
    congruence. }
  destruct (reschedule_spec k k (queue_members k) c TASK_RUNNING HS HL Hr Hc)
    as (k' & E & HI' & Hcase); [done..|by left| |].
  { intros x. case_decide; [|done]. subst.
    by rewrite (sp_Some _ _ _ Htc), Hstc. }
  destruct Hcase
    as [(-> & _ & Hi & Hempty)|(p & a & r & Hp & EQ & Hlow & Hac & Hf & Hd)].
  - left. split_and!; [|done..]. intros p.
    destruct (decide (p < PRIORITY_LEVELS)%nat) as [Hp|Hp]; [by apply Hempty|].
    unfold queue_members. by rewrite decide_False.
  - right.
    destruct (linv_prio _ _ HL p a) as (ta & Hta & Hpta);
      [rewrite EQ; set_solver|].
    exists p, a, r, tc, ta, k'. split_and!; try done.
    destruct (get_next_spec _ _ _ _ _ HL Hp EQ Hlow) as [En HL3].
    destruct (context_switch_spec _ _ c tc a ta HL3)
      as (k'' & Ec & _ & HL'' & _); [done|done|done|..].
    { intros _ Hin. apply fn_insert_rotate_elem in Hin; [|done].
      by eapply Hcq. }
    { rewrite Hpta, fn_lookup_insert. set_solver. }
    assert (k'' = k') as ->.
    { unfold reschedule in E. rewrite En in E. simpl in E.
      change (current_task (set_queue p (head (r ++ [a])) k))
        with (current_task k) in Ec.
      rewrite <-Hc in Ec. congruence. }
    intros q. rewrite (queue_members_repr _ _ q HL'').
    apply queues_after_switch_eq; [done| |done..].
    pose proof (linv_ring _ _ HL p) as (Hnd & _). rewrite EQ in Hnd.
    by apply NoDup_cons in Hnd as [? _].
Qed.

(** The head of the first non-empty queue has the best priority among the
    ready tasks. *)
Lemma first_queue_is_best k p a r :
  Inv k → queue_members k p = a :: r →
  (∀ q, (q < p)%nat → queue_members k q = []) →
  ∃ ta, task_pool k !! a = Some ta ∧ priority ta = p ∧
    task_pool_used k !! a = Some true ∧ state ta = TASK_READY ∧
    ∀ x t, task_pool k !! x = Some t → task_pool_used k !! x = Some true →
      state t = TASK_READY → (p ≤ priority t)%nat.
Proof.
  intros HI EQ Hlow. destruct (Inv_queue_members k HI) as [HL HS].
  destruct (sinv_member _ _ HS p a) as (ta & Hta & Hsta & Hua);
    [rewrite EQ; set_solver|].
  destruct (linv_prio _ _ HL p a) as (ta' & Hta' & Hpta);
    [rewrite EQ; set_solver|].
  assert (ta' = ta) as -> by congruence.
  exists ta. split_and!; [done..|].
  intros x t Ht Hu Hst. pose proof (sinv_ready _ _ HS _ _ Ht Hu Hst) as Hin.
  destruct (decide (p ≤ priority t)%nat) as [|Hlt]; [done|].
  rewrite Hlow in Hin by lia. by apply elem_of_nil in Hin.
Qed.

Lemma queue_members_out_of_range k p :
  ¬ (p < PRIORITY_LEVELS)%nat → queue_members k p = [].
Proof. intros Hp. unfold queue_members. by rewrite decide_False. Qed.

(** X1: [get_highest_priority_ready_task] returns a created task in state
    [TASK_READY] whose priority number is minimal among the ready tasks, and
    it is the task that [scheduler_get_next_task] selects; it returns NULL
    exactly when no created task is ready, and then
    [scheduler_get_next_task] falls back to the idle task. *)
Theorem highest_priority_ready_task_is_best k :
  Inv k →
  ∃ h, get_highest_priority_ready_task k = Some h ∧
    match h with
    | Some a =>
        ∃ ta, task_pool k !! a = Some ta ∧
          task_pool_used k !! a = Some true ∧ state ta = TASK_READY ∧
          (∀ x t, task_pool k !! x = Some t →
             task_pool_used k !! x = Some true → state t = TASK_READY →
             (priority ta ≤ priority t)%nat) ∧
          fst <$> scheduler_get_next_task k = Some (Some a)
    | None =>
        (∀ x t, task_pool k !! x = Some t →
           task_pool_used k !! x = Some true → state t ≠ TASK_READY) ∧
        scheduler_get_next_task k = Some (idle_task k, k)
    end.
Proof.
  intros HI. destruct (Inv_queue_members k HI) as [HL HS].
  destruct (first_nonempty (queue_members k) PRIORITY_LEVELS)
    as [Hempty|(p & a & r & Hp & EQ & Hlow)].
  - exists None. split; [by eapply highest_none|]. split.
    + intros x t Ht Hu Hst. pose proof (sinv_ready _ _ HS _ _ Ht Hu Hst) as Hin.
      rewrite Hempty in Hin by by eapply linv_prio_lt.
      by apply elem_of_nil in Hin.
    + by eapply get_next_idle.
  - exists (Some a). split; [by eapply highest_spec|].
    destruct (first_queue_is_best k p a r HI EQ Hlow)
      as (ta & Hta & Hpta & Hua & Hsta & Hbest).
    exists ta. rewrite Hpta. split_and!; [done..|].
    destruct (get_next_spec _ _ _ _ _ HL Hp EQ Hlow) as [-> _]. done.
Qed.

Lemma highest_priority_ready_task_is_best_witness :
  ∃ h, get_highest_priority_ready_task abc_kernel = Some h ∧
    match h with
    | Some a =>
        ∃ ta, task_pool abc_kernel !! a = Some ta ∧
          task_pool_used abc_kernel !! a = Some true ∧ state ta = TASK_READY ∧
          (∀ x t, task_pool abc_kernel !! x = Some t →
             task_pool_used abc_kernel !! x = Some true →
             state t = TASK_READY → (priority ta ≤ priority t)%nat) ∧
          fst <$> scheduler_get_next_task abc_kernel = Some (Some a)
    | None =>
        (∀ x t, task_pool abc_kernel !! x = Some t →
           task_pool_used abc_kernel !! x = Some true →
           state t ≠ TASK_READY) ∧
        scheduler_get_next_task abc_kernel = Some (idle_task abc_kernel, abc_kernel)
    end.
Proof.
  apply (highest_priority_ready_task_is_best abc_kernel).
  apply reachable_Inv, abc_kernel_reachable.
Defined.

(** Under the invariant the ready queues hold exactly the ready tasks. *)
Lemma Inv_member_iff k p x :
  Inv k →
  x ∈ queue_members k p ↔
  ∃ t, task_pool k !! x = Some t ∧ task_pool_used k !! x = Some true ∧
       state t = TASK_READY ∧ priority t = p.
Proof.
  intros HI. destruct (Inv_queue_members k HI) as [HL HS]. split.
  - intros Hin. destruct (sinv_member _ _ HS _ _ Hin) as (t & Ht & Hst & Hu).
    destruct (linv_prio _ _ HL _ _ Hin) as (t' & Ht' & Hp).
    exists t. split_and!; [done..|congruence].
  - intros (t & Ht & Hu & Hst & <-). by eapply sinv_ready.
Qed.

(** X2: in every kernel reached through the API, a slot is linked into the
    ready queue of priority [p] exactly when it holds a created task in
    state [TASK_READY] of priority [p]; a created task in any other state
    (running, blocked) has null links. *)
Theorem ready_queues_hold_the_ready_tasks k :
  reachable k →
  (∀ p x, x ∈ queue_members k p ↔
     ∃ t, task_pool k !! x = Some t ∧ task_pool_used k !! x = Some true ∧
          state t = TASK_READY ∧ priority t = p) ∧
  (∀ x t, task_pool k !! x = Some t → task_pool_used k !! x = Some true →
     state t ≠ TASK_READY → next t = None ∧ prev t = None).
Proof.
  intros Hk. pose proof (reachable_Inv k Hk) as HI.
  destruct (Inv_queue_members k HI) as [HL HS]. split.
  - intros p x. by apply Inv_member_iff.
  - intros x t Ht Hu Hst. apply (linv_unlinked _ _ HL x t Ht).
    intros Hin. destruct (sinv_member _ _ HS _ _ Hin) as (t' & Ht' & Hst' & _).
    congruence.
Qed.

Lemma ready_queues_hold_the_ready_tasks_witness :
  (∀ p x, x ∈ queue_members abc_kernel p ↔
     ∃ t, task_pool abc_kernel !! x = Some t ∧
          task_pool_used abc_kernel !! x = Some true ∧
          state t = TASK_READY ∧ priority t = p) ∧
  (∀ x t, task_pool abc_kernel !! x = Some t →
     task_pool_used abc_kernel !! x = Some true →
     state t ≠ TASK_READY → next t = None ∧ prev t = None).
Proof.
  apply (ready_queues_hold_the_ready_tasks abc_kernel).
  apply abc_kernel_reachable.
Defined.

(** X3: the dispatch rule of [scheduler_tick].  When the tick decides to
    reschedule, then either every ready queue is empty, the current task is
    the idle task and nothing is switched, or the head [a] of the first
    non-empty queue (after the wake sweep) becomes the current task: no ready
    task has a better priority than [a], [a] leaves the head of its queue,
    the preempted task [c] is appended at the tail of the queue of its own
    priority, the other queues keep their order, and one context switch is
    counted. *)
Theorem scheduler_tick_dispatch_order k c :
  Inv k → scheduler_running k = true → current_task k = Some c →
  ∃ k1 k2 b k',
    decrement_slice c (incr_ticks k) = Some k1 ∧
    wake_sleeping_tasks k1 = Some k2 ∧
    need_reschedule c k2 = Some b ∧
    scheduler_tick k = Some k' ∧
    (b = true →
     ((∀ p, queue_members k2 p = []) ∧ idle_task k = Some c ∧ k' = k2) ∨
     (∃ p a r tc ta, (p < PRIORITY_LEVELS)%nat ∧
        queue_members k2 p = a :: r ∧
        (∀ q, (q < p)%nat → queue_members k2 q = []) ∧
        a ≠ c ∧ task_pool k2 !! c = Some tc ∧
        task_pool k2 !! a = Some ta ∧ priority ta = p ∧
        (∀ x t, task_pool k2 !! x = Some t →
           task_pool_used k2 !! x = Some true → state t = TASK_READY →
           (p ≤ priority t)%nat) ∧
        current_task k' = Some a ∧
        (∀ q, queue_members k' q
              = queues_after_switch (queue_members k2) p r (priority tc) c q) ∧
        total_context_switches (stats k')
        = u32 (total_context_switches (stats k) + 1))).
Proof.
  intros HI Hr Hc.
  destruct (tick_running_spec k c HI Hr Hc) as (k1 & k2 & b & k' & E & Htr).
  pose proof Htr
    as (E1 & Hf1 & HI1 & Hd1 & E2 & Hf2 & HI2 & Hd2 & Eb & E' & HI' & _).
  exists k1, k2, b, k'. split_and!; [done..|]. intros ->.
  destruct (frame_globals_eq _ _ Hf1) as (Hc1 & Hi1 & _ & Hr1 & _ & Hs1 & _).
  destruct (frame_globals_eq _ _ Hf2) as (Hc2 & Hi2 & _ & Hr2 & _ & Hs2 & _).
  simpl in Hc1, Hi1, Hr1, Hs1.
  destruct (reschedule_order k2 c HI2)
    as [(Hempty & Hi & E'')
       |(p & a & r & tc & ta & k'' & Hp & EQ & Hlow & Hac & Htc & Hta & Hpta
         & E'' & _ & Hf & _ & Hq)]; [congruence..| |].
  - left. split_and!; [done|congruence|congruence].
  - right. assert (k'' = k') as -> by congruence.
    exists p, a, r, tc, ta. split_and!; [done..| | | |].
    + intros x t Ht Hu Hst.
      destruct (first_queue_is_best k2 p a r HI2 EQ Hlow)
        as (ta' & _ & _ & _ & _ & Hbest). by eapply Hbest.
    + by destruct (frame_globals_eq _ _ Hf) as (-> & _).
    + done.
    + destruct (frame_globals_eq _ _ Hf) as (_ & _ & _ & _ & _ & -> & _).
      simpl. by rewrite Hs2, Hs1.
Qed.

(** The three tasks after nine ticks: the slice of the current task A runs
    out in the next tick. *)
Definition abc_at_tick_9_calls : list call :=
  [CCreate "A" 0x08001000 0 1 512; CCreate "B" 0x08002000 0 1 512;
   CCreate "C" 0x08003000 0 1 512; CStart] ++ replicate 9 CTick.

Definition abc_at_tick_9_kernel : kernel :=
  default boot (kernel_after abc_at_tick_9_calls).

Lemma abc_at_tick_9_kernel_reachable : reachable abc_at_tick_9_kernel.
Proof.
  apply (kernel_after_reachable abc_at_tick_9_calls).
  - vm_compute. split_and!; done.
  - vm_compute. reflexivity.
Qed.

Lemma scheduler_tick_dispatch_order_witness :
  (k1 ← decrement_slice 1 (incr_ticks abc_at_tick_9_kernel);
   k2 ← wake_sleeping_tasks k1; need_reschedule 1 k2) = Some true ∧
  ∃ k1 k2 b k',
    decrement_slice 1 (incr_ticks abc_at_tick_9_kernel) = Some k1 ∧
    wake_sleeping_tasks k1 = Some k2 ∧
    need_reschedule 1 k2 = Some b ∧
    scheduler_tick abc_at_tick_9_kernel = Some k' ∧
    (b = true →
     ((∀ p, queue_members k2 p = []) ∧
      idle_task abc_at_tick_9_kernel = Some 1%nat ∧ k' = k2) ∨
     (∃ p a r tc ta, (p < PRIORITY_LEVELS)%nat ∧
        queue_members k2 p = a :: r ∧
        (∀ q, (q < p)%nat → queue_members k2 q = []) ∧
        a ≠ 1%nat ∧ task_pool k2 !! 1%nat = Some tc ∧
        task_pool k2 !! a = Some ta ∧ priority ta = p ∧
        (∀ x t, task_pool k2 !! x = Some t →
           task_pool_used k2 !! x = Some true → state t = TASK_READY →
           (p ≤ priority t)%nat) ∧
        current_task k' = Some a ∧
        (∀ q, queue_members k' q
              = queues_after_switch (queue_members k2) p r (priority tc)
                  1%nat q) ∧
        total_context_switches (stats k')
        = u32 (total_context_switches (stats abc_at_tick_9_kernel) + 1))).
Proof.
  split; [vm_compute; reflexivity|].
  apply (scheduler_tick_dispatch_order abc_at_tick_9_kernel 1).
  - apply reachable_Inv, abc_at_tick_9_kernel_reachable.
  - vm_compute. reflexivity.
  - vm_compute. reflexivity.
Defined.

(** The time slice of the current task after the slice update and the wake
    sweep of a tick. *)
Lemma tick_trace_slice k c k1 k2 b k' tc :
  tick_trace k c k1 k2 b k' → Inv k → current_task k = Some c →
  task_pool k !! c = Some tc →
  ∃ tc2, task_pool k2 !! c = Some tc2 ∧ state tc2 = TASK_RUNNING ∧
    priority tc2 = priority tc ∧
    time_slice_remaining tc2
    = if 0 <? time_slice_remaining tc then time_slice_remaining tc - 1
      else time_slice_remaining tc.
Proof.
  intros Htr HI Hc Htc.
  destruct (Inv_current _ _ HI Hc) as (_ & tc0 & Htc0 & Hstc & _).
  assert (tc0 = tc) as -> by congruence.
  destruct (tick_trace_data _ _ _ _ _ _ c tc Htr Htc)
    as (t2 & _ & Ht2 & Hs2 & _).
  exists t2. split; [done|].
  unfold at_slot, sweep_data, wake_data, wake_due in Hs2.
  rewrite decide_True in Hs2 by done.
  assert (state (dec_data (strip tc)) = TASK_RUNNING) as Hst.
  { unfold dec_data.
    destruct (0 <? time_slice_remaining (strip tc)); exact Hstc. }
  rewrite Hst in Hs2. rewrite bool_decide_eq_false_2, !andb_false_l,
    andb_false_r in Hs2 by done.
  split_and!.
  - apply (f_equal state) in Hs2. simpl in Hs2. congruence.
  - apply (f_equal priority) in Hs2. unfold dec_data in Hs2.
    by destruct (0 <? time_slice_remaining (strip tc)).
  - apply (f_equal time_slice_remaining) in Hs2. unfold dec_data in Hs2.
    simpl in Hs2. by destruct (0 <? time_slice_remaining tc).
Qed.

(** The reschedule decision when the slice has run out. *)
Lemma tick_trace_expired k c k1 k2 b k' tc2 :
  tick_trace k c k1 k2 b k' → task_pool k2 !! c = Some tc2 →
  time_slice_remaining tc2 = 0 → b = true.
Proof.
  intros (_ & _ & _ & _ & _ & _ & HI2 & _ & Eb & _) Htc2 Hz.
  destruct (need_reschedule_spec k2 c tc2 HI2 Htc2) as (b' & Eb' & Hiff).
  assert (b' = b) as -> by congruence. apply Hiff. by left.
Qed.

(** X4: [task_yield] by a task other than the idle task always hands the
    processor over.  The slice is set to 0 and one tick is run: after its
    wake sweep the head [a] of the first non-empty ready queue, than which
    no ready task has a better priority, becomes the current task and
    leaves its queue; the yielding task is ready at the tail of the queue of
    its priority; one tick and one context switch are counted.  (The new
    current task may have a worse priority than the yielding one.) *)
Theorem task_yield_hands_over k c :
  Inv k → scheduler_running k = true → current_task k = Some c →
  idle_task k ≠ Some c →
  ∃ k0 k1 k2 k' p a r tc',
    update_tcb c (set_time_slice_remaining 0) k = Some k0 ∧
    decrement_slice c (incr_ticks k0) = Some k1 ∧
    wake_sleeping_tasks k1 = Some k2 ∧
    task_yield k = Some k' ∧ Inv k' ∧
    (p < PRIORITY_LEVELS)%nat ∧ queue_members k2 p = a :: r ∧
    (∀ q, (q < p)%nat → queue_members k2 q = []) ∧
    (∀ x t, task_pool k2 !! x = Some t →
       task_pool_used k2 !! x = Some true → state t = TASK_READY →
       (p ≤ priority t)%nat) ∧
    current_task k' = Some a ∧ a ≠ c ∧
    task_pool k' !! c = Some tc' ∧ state tc' = TASK_READY ∧
    (∀ q, queue_members k' q
          = queues_after_switch (queue_members k2) p r (priority tc') c q) ∧
    last (queue_members k' (priority tc')) = Some c ∧
    system_tick_count k' = u32 (system_tick_count k + 1) ∧
    total_context_switches (stats k')
    = u32 (total_context_switches (stats k) + 1).
Proof.
  intros HI Hr Hc Hidle. unfold task_yield. rewrite Hr, Hc.
  destruct (Inv_current _ _ HI Hc) as (_ & tc & Htc & Hstc & Huc).
  destruct (Inv_update_data k c (set_time_slice_remaining 0) tc)
    as (k0 & E0 & Hf0 & HI0 & Hd0); [done..|].
  rewrite E0. simpl.
  destruct (frame_globals_eq _ _ Hf0) as (Hc0 & Hi0 & _ & Hr0 & Ht0 & Hs0 & _).
  assert (current_task k0 = Some c) as Hcur0 by congruence.
  assert (scheduler_running k0 = true) as Hrun0 by congruence.
  destruct (data_map_fwd _ _ _ c tc (data_alter_map _ _ _ _ Hd0) Htc)
    as (tc0 & Htc0 & Hstrip0).
  unfold at_slot in Hstrip0. rewrite decide_True in Hstrip0 by done.
  assert (time_slice_remaining tc0 = 0) as Hz0.
  { by apply (f_equal time_slice_remaining) in Hstrip0. }
  destruct (tick_running_spec k0 c HI0 Hrun0 Hcur0)
    as (k1 & k2 & b & k' & E & Htr).
  destruct (tick_trace_slice _ _ _ _ _ _ tc0 Htr HI0 Hcur0 Htc0)
    as (tc2 & Htc2 & Hstc2 & Hptc2 & Hz2).
  rewrite Hz0 in Hz2. simpl in Hz2.
  pose proof (tick_trace_expired _ _ _ _ _ _ tc2 Htr Htc2 Hz2) as ->.
  destruct (tick_trace_globals _ _ _ _ _ _ Htr)
    as (_ & _ & Ht' & _ & _ & _ & _ & _ & _).
  pose proof Htr
    as (E1 & Hf1 & _ & _ & E2 & Hf2 & HI2 & _ & _ & E' & HI' & _).
  destruct (frame_globals_eq _ _ Hf1) as (Hc1 & Hi1 & _ & Hr1 & _ & Hs1 & _).
  destruct (frame_globals_eq _ _ Hf2) as (Hc2 & Hi2 & _ & Hr2 & _ & Hs2 & _).
  simpl in Hc1, Hi1, Hr1, Hs1.
  destruct (reschedule_order k2 c HI2)
    as [(_ & Hi & _)
       |(p & a & r & tc2' & ta & k'' & Hp & EQ & Hlow & Hac & Htc2' & Hta
         & Hpta & E'' & _ & Hf & Hd & Hq)]; [congruence..| |].
  { exfalso. apply Hidle. congruence. }
  assert (k'' = k') as -> by congruence.
  assert (tc2' = tc2) as -> by congruence.
  destruct (data_map_fwd _ _ _ c tc2 (data_switch_map _ _ _ _ _ Hd) Htc2)
    as (tc' & Htc' & Hstrip').
  unfold at_slot in Hstrip'.
  rewrite (decide_False (P := c = a)), decide_True in Hstrip' by done.
  simpl in Hstrip'. unfold save_data in Hstrip'.
  rewrite (decide_True (P := state (strip tc2) = TASK_RUNNING)) in Hstrip'
    by done.
  assert (priority tc' = priority tc2) as Hp'.
  { by apply (f_equal priority) in Hstrip'. }
  destruct (first_queue_is_best k2 p a r HI2 EQ Hlow)
    as (ta' & _ & _ & _ & _ & Hbest).
  exists k0, k1, k2, k', p, a, r, tc'.
  split; [done|]. split; [done|]. split; [done|]. split; [done|].
  split; [done|]. split; [done|]. split; [done|]. split; [done|].
  split; [done|]. split.
  { by destruct (frame_globals_eq _ _ Hf) as (-> & _). }
  split; [done|]. split; [done|]. split.
  { by apply (f_equal state) in Hstrip'. }
  split; [by rewrite Hp'|]. split.
  { rewrite Hq, Hp'. unfold queues_after_switch.
    rewrite (decide_True (P := priority tc2 = priority tc2)) by done.
    by rewrite last_snoc. }
  split; [by rewrite Ht', Ht0|].
  destruct (frame_globals_eq _ _ Hf) as (_ & _ & _ & _ & _ & -> & _).
  simpl. by rewrite Hs2, Hs1, Hs0.
Qed.

Lemma task_yield_hands_over_witness :
  ∃ k0 k1 k2 k' p a r tc',
    update_tcb 1 (set_time_slice_remaining 0) abc_kernel = Some k0 ∧
    decrement_slice 1 (incr_ticks k0) = Some k1 ∧
    wake_sleeping_tasks k1 = Some k2 ∧
    task_yield abc_kernel = Some k' ∧ Inv k' ∧
    (p < PRIORITY_LEVELS)%nat ∧ queue_members k2 p = a :: r ∧
    (∀ q, (q < p)%nat → queue_members k2 q = []) ∧
    (∀ x t, task_pool k2 !! x = Some t →
       task_pool_used k2 !! x = Some true → state t = TASK_READY →
       (p ≤ priority t)%nat) ∧
    current_task k' = Some a ∧ a ≠ 1%nat ∧
    task_pool k' !! 1%nat = Some tc' ∧ state tc' = TASK_READY ∧
    (∀ q, queue_members k' q
          = queues_after_switch (queue_members k2) p r (priority tc')
              1%nat q) ∧
    last (queue_members k' (priority tc')) = Some 1%nat ∧
    system_tick_count k' = u32 (system_tick_count abc_kernel + 1) ∧
    total_context_switches (stats k')
    = u32 (total_context_switches (stats abc_kernel) + 1).
Proof.
  apply (task_yield_hands_over abc_kernel 1).
  - apply reachable_Inv, abc_kernel_reachable.
  - vm_compute. reflexivity.
  - vm_compute. reflexivity.
  - vm_compute. discriminate.
Defined.

(** X5: [rtos_start] on a stopped scheduler marks it running and dispatches
    the head [a] of the first non-empty ready queue: no ready task has a
    better priority, [a] is running with a full time slice and has left its
    queue, every other queue is as before; one context switch is counted and
    the tick counter is untouched. *)
Theorem rtos_start_dispatches_best k :
  Inv k → scheduler_running k = false →
  ∃ p a r k' ta', (p < PRIORITY_LEVELS)%nat ∧
    queue_members k p = a :: r ∧
    (∀ q, (q < p)%nat → queue_members k q = []) ∧
    (∀ x t, task_pool k !! x = Some t →
       task_pool_used k !! x = Some true → state t = TASK_READY →
       (p ≤ priority t)%nat) ∧
    rtos_start k = Some k' ∧ scheduler_running k' = true ∧
    current_task k' = Some a ∧ task_pool k' !! a = Some ta' ∧
    state ta' = TASK_RUNNING ∧ time_slice_remaining ta' = TIME_SLICE_MS ∧
    priority ta' = p ∧
    (∀ q, queue_members k' q = if decide (q = p) then r else queue_members k q) ∧
    total_context_switches (stats k')
    = u32 (total_context_switches (stats k) + 1) ∧
    system_tick_count k' = system_tick_count k.
Proof.
  intros HI Hr. destruct (Inv_queue_members k HI) as [HL HS].
  destruct (rtos_start_spec k HI Hr)
    as (k' & a0 & ta0 & E & HI' & Hta0 & Hsta0 & Hua0 & Hf & Hd).
  destruct (first_nonempty (queue_members k) PRIORITY_LEVELS)
    as [Hempty|(p & a & r & Hp & EQ & Hlow)].
  { exfalso. pose proof (sinv_ready _ _ HS _ _ Hta0 Hua0 Hsta0) as Hin.
    rewrite Hempty in Hin by by eapply linv_prio_lt.
    by apply elem_of_nil in Hin. }
  destruct (first_queue_is_best k p a r HI EQ Hlow)
    as (ta & Hta & Hpta & Hua & Hsta & Hbest).
  assert (LInv (set_scheduler_running true k) (queue_members k)) as HL0
    by by apply (LInv_globals k).
  destruct (get_next_spec _ _ _ _ _ HL0 Hp EQ Hlow) as [En HL3].
  destruct (context_switch_start_spec _ _ a ta HL3)
    as (k'' & Ec & Hf'' & HL'' & _); [done| |].
  { rewrite Hpta, fn_lookup_insert. set_solver. }
  assert (k'' = k') as ->.
  { unfold rtos_start in E. rewrite En in E. simpl in E. congruence. }
  destruct (frame_globals_eq _ _ Hf'') as (Hc' & _ & _ & Hr' & Ht' & Hs' & _).
  destruct (data_map_fwd _ _ _ a ta (data_alter_map _ _ _ _ Hd) Hta)
    as (ta' & Hta' & Hstrip).
  unfold at_slot in Hstrip.
  assert (a0 = a) as ->.
  { destruct (frame_globals_eq _ _ Hf) as (Hc0 & _). simpl in Hc0, Hc'.
    congruence. }
  rewrite decide_True in Hstrip by done.
  exists p, a, r, k', ta'. split_and!; [done..| | | | | |by rewrite Hs'|done].
  - done.
  - by apply (f_equal state) in Hstrip.
  - by apply (f_equal time_slice_remaining) in Hstrip.
  - apply (f_equal priority) in Hstrip. simpl in Hstrip. congruence.
  - intros q. rewrite (queue_members_repr _ _ q HL'').
    unfold queues_after_load. rewrite Hpta.
    pose proof (linv_ring _ _ HL p) as (Hnd & _). rewrite EQ in Hnd.
    apply NoDup_cons in Hnd as [Har _].
    destruct (decide (q = p)) as [->|Hq].
    + rewrite !fn_lookup_insert, filter_app.
      by rewrite filter_ne_notin, filter_ne_self, app_nil_r.
    + by rewrite !fn_lookup_insert_ne.
Qed.

Lemma rtos_start_dispatches_best_witness :
  ∃ p a r k' ta', (p < PRIORITY_LEVELS)%nat ∧
    queue_members one_task_kernel p = a :: r ∧
    (∀ q, (q < p)%nat → queue_members one_task_kernel q = []) ∧
    (∀ x t, task_pool one_task_kernel !! x = Some t →
       task_pool_used one_task_kernel !! x = Some true →
       state t = TASK_READY → (p ≤ priority t)%nat) ∧
    rtos_start one_task_kernel = Some k' ∧ scheduler_running k' = true ∧
    current_task k' = Some a ∧ task_pool k' !! a = Some ta' ∧
    state ta' = TASK_RUNNING ∧ time_slice_remaining ta' = TIME_SLICE_MS ∧
    priority ta' = p ∧
    (∀ q, queue_members k' q
          = if decide (q = p) then r else queue_members one_task_kernel q) ∧
    total_context_switches (stats k')
    = u32 (total_context_switches (stats one_task_kernel) + 1) ∧
    system_tick_count k' = system_tick_count one_task_kernel.
Proof.
  apply (rtos_start_dispatches_best one_task_kernel).
  - apply reachable_Inv, one_task_kernel_reachable.
  - vm_compute. reflexivity.
Defined.

(** ** Enqueue and dequeue *)

(** X6: enqueueing a task that is in no queue and dequeueing it again
    restores every ready queue, with well-formed links; all that remains is
    that the task is marked [TASK_READY]. *)
Theorem enqueue_then_dequeue_restores_queues k x t :
  well_linked k → task_pool k !! x = Some t →
  x ∉ queue_members k (priority t) →
  ∃ k1 k2, add_task_to_ready_queue x k = Some k1 ∧
    queue_members k1 (priority t) = queue_members k (priority t) ++ [x] ∧
    remove_task_from_ready_queue x k1 = Some k2 ∧
    (∀ q, queue_members k2 q = queue_members k q) ∧
    well_linked k2 ∧
    data k2 = alter (set_state TASK_READY) x (data k).
Proof.
  intros (Q & HL) Ht Hx. rewrite (queue_members_repr k Q _ HL) in Hx.
  destruct (add_spec k Q x t HL Ht Hx) as (k1 & E1 & _ & HL1 & Hd1).
  destruct (data_map_fwd _ _ _ x t (data_alter_map _ _ _ _ Hd1) Ht)
    as (t1 & Ht1 & Hs1).
  unfold at_slot in Hs1. rewrite decide_True in Hs1 by done.
  assert (priority t1 = priority t) as Hp1.
  { by apply (f_equal priority) in Hs1. }
  destruct (remove_spec k1 _ x t1 HL1 Ht1) as (k2 & E2 & _ & HL2 & Hd2).
  { rewrite Hp1, fn_lookup_insert. set_solver. }
  exists k1, k2. split_and!; [done| |done| |by eexists|congruence].
  - by rewrite (queue_members_repr k1 _ _ HL1), (queue_members_repr k Q _ HL),
      fn_lookup_insert.
  - intros q.
    rewrite (queue_members_repr k2 _ _ HL2), (queue_members_repr k Q _ HL), Hp1.
    destruct (decide (q = priority t)) as [->|Hq].
    + rewrite !fn_lookup_insert, filter_app.
      by rewrite filter_ne_notin, filter_ne_self, app_nil_r.
    + by rewrite !fn_lookup_insert_ne.
Qed.

Lemma enqueue_then_dequeue_restores_queues_witness :
  ∃ t, task_pool abc_kernel !! 1%nat = Some t ∧
  ∃ k1 k2, add_task_to_ready_queue 1 abc_kernel = Some k1 ∧
    queue_members k1 (priority t) = queue_members abc_kernel (priority t) ++ [1%nat] ∧
    remove_task_from_ready_queue 1 k1 = Some k2 ∧
    (∀ q, queue_members k2 q = queue_members abc_kernel q) ∧
    well_linked k2 ∧
    data k2 = alter (set_state TASK_READY) 1%nat (data abc_kernel).
Proof.
  eexists. split; [vm_compute; reflexivity|].
  apply (enqueue_then_dequeue_restores_queues abc_kernel 1).
  - destruct (reachable_Inv _ abc_kernel_reachable) as (Q & HL & _).
    by exists Q.
  - vm_compute. reflexivity.
  - apply (bool_decide_unpack _). vm_compute. exact I.
Defined.

(** X7: dequeueing a queued task and enqueueing it again moves it to the
    tail of its queue: the other members keep their order, the other queues
    are untouched and no field but the links changes. *)
Theorem dequeue_then_enqueue_moves_to_tail k x t :
  well_linked k → task_pool k !! x = Some t → state t = TASK_READY →
  x ∈ queue_members k (priority t) →
  ∃ k1 k2, remove_task_from_ready_queue x k = Some k1 ∧
    queue_members k1 (priority t)
    = filter (λ y, y ≠ x) (queue_members k (priority t)) ∧
    add_task_to_ready_queue x k1 = Some k2 ∧
    queue_members k2 (priority t)
    = filter (λ y, y ≠ x) (queue_members k (priority t)) ++ [x] ∧
    (∀ q, q ≠ priority t → queue_members k2 q = queue_members k q) ∧
    well_linked k2 ∧ data k2 = data k.
Proof.
  intros (Q & HL) Ht Hst Hx. rewrite (queue_members_repr k Q _ HL) in Hx.
  destruct (remove_spec k Q x t HL Ht Hx) as (k1 & E1 & _ & HL1 & Hd1).
  assert (∀ y, data k1 !! y = id <$> data k !! y) as Hmap.
  { intros y. rewrite Hd1. by destruct (data k !! y). }
  destruct (data_map_fwd _ _ _ x t (λ y, Hmap y) Ht) as (t1 & Ht1 & Hs1).
  simpl in Hs1.
  assert (priority t1 = priority t) as Hp1.
  { by apply (f_equal priority) in Hs1. }
  destruct (add_spec k1 _ x t1 HL1 Ht1) as (k2 & E2 & _ & HL2 & Hd2).
  { rewrite Hp1, fn_lookup_insert. intros [? _]%list_elem_of_filter.
    done. }
  exists k1, k2. split_and!; [done| |done| | |by eexists|].
  - by rewrite (queue_members_repr k1 _ _ HL1), (queue_members_repr k Q _ HL),
      fn_lookup_insert.
  - rewrite (queue_members_repr k2 _ _ HL2), (queue_members_repr k Q _ HL), Hp1.
    by rewrite !fn_lookup_insert.
  - intros q Hq.
    rewrite (queue_members_repr k2 _ _ HL2), (queue_members_repr k Q _ HL), Hp1.
    by rewrite !fn_lookup_insert_ne.
  - rewrite Hd2, Hd1. apply list_eq. intros y. rewrite list_lookup_alter.
    destruct (decide (x = y)) as [<-|]; [|done].
    rewrite (data_lookup _ _ _ Ht). simpl.
    f_equal. unfold strip. destruct t. simpl in *. by subst.
Qed.

Lemma dequeue_then_enqueue_moves_to_tail_witness :
  ∃ t, task_pool abc_kernel !! 2%nat = Some t ∧
  ∃ k1 k2, remove_task_from_ready_queue 2 abc_kernel = Some k1 ∧
    queue_members k1 (priority t)
    = filter (λ y, y ≠ 2%nat) (queue_members abc_kernel (priority t)) ∧
    add_task_to_ready_queue 2 k1 = Some k2 ∧
    queue_members k2 (priority t)
    = filter (λ y, y ≠ 2%nat) (queue_members abc_kernel (priority t))
      ++ [2%nat] ∧
    (∀ q, q ≠ priority t → queue_members k2 q = queue_members abc_kernel q) ∧
    well_linked k2 ∧ data k2 = data abc_kernel.
Proof.
  eexists. split; [vm_compute; reflexivity|].
  apply (dequeue_then_enqueue_moves_to_tail abc_kernel 2).
  - destruct (reachable_Inv _ abc_kernel_reachable) as (Q & HL & _).
    by exists Q.
  - vm_compute. reflexivity.
  - vm_compute. reflexivity.
  - apply (bool_decide_unpack _). vm_compute. exact I.
Defined.

(** ** Initialisation *)

(** X8: [rtos_init] empties the registry, the queues and the statistics and
    creates the idle task in slot 0, at the lowest priority, as the only
    member of the last ready queue.  It reports -1 only when the id counter
    is 0, the failure value of [task_create]; it does not reset the id
    counter, the tick counter, the current task or the running flag. *)
Theorem rtos_init_creates_idle_task k :
  ∃ r k' t0, rtos_init k = Some (r, k') ∧
    r = (if decide (next_task_id k = 0) then -1 else 0) ∧
    task_pool_used k' = true :: replicate (MAX_TASKS - 1) false ∧
    task_pool k' !! 0%nat = Some t0 ∧
    task_id t0 = next_task_id k ∧ name t0 = "IDLE"%string ∧
    priority t0 = (PRIORITY_LEVELS - 1)%nat ∧ state t0 = TASK_READY ∧
    task_function t0 = idle_task_function ∧
    (∀ q, queue_members k' q
          = if decide (q = (PRIORITY_LEVELS - 1)%nat) then [0%nat] else []) ∧
    well_linked k' ∧
    stats k' = mk_stats 0 0 0 1 0 ∧
    idle_task k'
    = (if decide (next_task_id k = 0) then idle_task k else Some 0%nat) ∧
    next_task_id k' = u32 (next_task_id k + 1) ∧
    system_tick_count k' = system_tick_count k ∧
    current_task k' = current_task k ∧
    scheduler_running k' = scheduler_running k.
Proof.
  unfold rtos_init.
  set (k1 := set_stats _ _).
  assert (task_pool k1 = replicate MAX_TASKS zero_tcb) as Epool by done.
  assert (task_pool_used k1 = replicate MAX_TASKS false) as Eused by done.
  assert (ready_queues k1 = replicate PRIORITY_LEVELS None) as Erq by done.
  assert (LInv k1 (λ _, [])) as HL1.
  { constructor; rewrite ?Epool, ?Eused, ?Erq.
    - by rewrite length_replicate.
    - by rewrite length_replicate.
    - intros p Hp. by apply lookup_replicate_2.
    - intros _. apply ring_nil.
    - intros p x Hx. set_solver.
    - intros x t [-> _]%lookup_replicate. simpl. unfold PRIORITY_LEVELS. lia.
    - by intros x t [-> _]%lookup_replicate _. }
  destruct (task_create_ok "IDLE" idle_task_function 0 (PRIORITY_LEVELS - 1)
              STACK_SIZE k1 (λ _, []) 0%nat)
    as (k2 & E & HL2 & Hf & Hd); [done|set_solver|unfold PRIORITY_LEVELS; lia
                                  |done|done|].
  rewrite E. simpl. change (next_task_id k1) with (next_task_id k).
  destruct (frame_globals_eq _ _ Hf)
    as (Hc' & Hi' & Hn' & Hr' & Ht' & Hs' & Hused).
  simpl in Hc', Hi', Hn', Hr', Ht'.
  assert (task_pool_used k2 = <[0%nat := true]> (replicate MAX_TASKS false))
    as Hu' by exact Hused.
  clear Hused.
  assert (stats k2 = mk_stats 0 0 0 1 0) as Hstats by exact Hs'.
  clear Hs'.
  assert (∃ t0, task_pool k2 !! 0%nat = Some t0 ∧
                strip t0 = init_tcb k1 0 "IDLE" idle_task_function 0
                             (PRIORITY_LEVELS - 1) STACK_SIZE)
    as (t0 & Ht0 & Hs0).
  { assert (data k2 !! 0%nat = Some (init_tcb k1 0 "IDLE" idle_task_function 0
                                       (PRIORITY_LEVELS - 1) STACK_SIZE)) as Hx
      by by rewrite Hd.
    unfold data in Hx. rewrite list_lookup_fmap in Hx.
    destruct (task_pool k2 !! 0%nat) as [t0|]; simplify_eq/=. eauto. }
  assert (task_get_info (next_task_id k) k2 = Some 0%nat) as Hinfo.
  { unfold task_get_info. apply fmap_Some. exists (0%nat, (true, t0)).
    split; [|done]. apply list_find_Some. split_and!.
    - apply lookup_take_Some. split; [|unfold MAX_TASKS; lia].
      apply lookup_zip_with_Some. exists true, t0. split_and!; [done| |done].
      by rewrite Hu'.
    - done.
    - simpl. by apply (f_equal task_id) in Hs0.
    - intros j y _ Hj. lia. }
  assert (∀ q, queue_members k2 q
               = if decide (q = (PRIORITY_LEVELS - 1)%nat) then [0%nat] else [])
    as Hq.
  { intros q. rewrite (queue_members_repr k2 _ q HL2).
    destruct (decide (q = (PRIORITY_LEVELS - 1)%nat)) as [->|Hq].
    - by rewrite fn_lookup_insert.
    - by rewrite fn_lookup_insert_ne. }
  assert (well_linked k2) as Hwl by by eexists.
  destruct (decide (next_task_id k = 0)) as [Hz|Hnz].
  - exists (-1), k2, t0. split_and!; try done.
    + by apply (f_equal task_id) in Hs0.
    + by apply (f_equal name) in Hs0.
    + by apply (f_equal priority) in Hs0.
    + by apply (f_equal state) in Hs0.
    + by apply (f_equal task_function) in Hs0.
  - rewrite Hinfo.
    exists 0, (set_idle_task (Some 0%nat) k2), t0. split_and!; try done.
    + by apply (f_equal task_id) in Hs0.
    + by apply (f_equal name) in Hs0.
    + by apply (f_equal priority) in Hs0.
    + by apply (f_equal state) in Hs0.
    + by apply (f_equal task_function) in Hs0.
    + destruct Hwl as (Q & HL). exists Q. by apply (LInv_globals k2).
Qed.

(** ** The wake sweep *)

(** A created task that is blocked with a wake tick that has come. *)
Definition due (k : kernel) (x : nat) (t : tcb_t) : Prop :=
  task_pool_used k !! x = Some true ∧ state t = TASK_BLOCKED ∧
  0 < wake_time t ∧ wake_time t ≤ system_tick_count k.

Lemma due_wake_due k x t :
  due k x t ↔
  default false (task_pool_used k !! x)
  && wake_due (system_tick_count k) (strip t) = true.
Proof.
  unfold due, wake_due. simpl.
  rewrite !andb_true_iff, bool_decide_eq_true, Z.ltb_lt, Z.leb_le.
  destruct (task_pool_used k !! x) as [[]|]; simpl; naive_solver.
Qed.

(** X9: [wake_sleeping_tasks] wakes exactly the due tasks: a created task
    that is blocked with [0 < wake_time <= system_tick_count] becomes ready
    with [wake_time = 0] and joins the ready queue of its priority; no other
    field of it and no other task changes, the queues keep their former
    members, and the current task, the counters and the registry are
    untouched. *)
Theorem wake_sleeping_tasks_wakes_the_due k :
  Inv k →
  ∃ k', wake_sleeping_tasks k = Some k' ∧ Inv k' ∧
    current_task k' = current_task k ∧
    system_tick_count k' = system_tick_count k ∧ stats k' = stats k ∧
    task_pool_used k' = task_pool_used k ∧
    (∀ x t, task_pool k !! x = Some t →
       ∃ t', task_pool k' !! x = Some t' ∧
         (due k x t →
          strip t' = set_state TASK_READY (set_wake_time 0 (strip t))) ∧
         (¬ due k x t → strip t' = strip t)) ∧
    (∀ p y, y ∈ queue_members k' p ↔
       y ∈ queue_members k p ∨
       ∃ t, task_pool k !! y = Some t ∧ priority t = p ∧ due k y t).
Proof.
  intros HI.
  destruct (wake_sleeping_tasks_spec k HI) as (k' & E & Hf & HI' & Hd).
  destruct (frame_globals_eq _ _ Hf) as (Hc & _ & _ & _ & Ht & Hs & Hu).
  assert (∀ x t, task_pool k !! x = Some t →
            ∃ t', task_pool k' !! x = Some t' ∧
              (due k x t →
               strip t' = set_state TASK_READY (set_wake_time 0 (strip t))) ∧
              (¬ due k x t → strip t' = strip t)) as Hdata.
  { intros x t Hx. destruct (data_map_fwd _ _ _ x t Hd Hx) as (t' & Ht' & Hst).
    exists t'. split; [done|]. unfold sweep_data, wake_data in Hst.
    split; intros Hdue; rewrite due_wake_due in Hdue.
    - by rewrite Hdue in Hst.
    - apply not_true_is_false in Hdue. by rewrite Hdue in Hst. }
  exists k'. split_and!; [done..|].
  intros p y. rewrite !Inv_member_iff by done. split.
  - intros (t' & Ht' & Hu' & Hst' & Hp').
    destruct (data_map_bwd _ _ _ y t' Hd Ht') as (t & Hy & _).
    destruct (Hdata y t Hy) as (t'' & Ht'' & Hdue & Hnot).
    assert (t'' = t') as -> by congruence.
    destruct (decide (due k y t)) as [Hyes|Hno].
    + right. exists t. split_and!; [done| |done].
      apply Hdue in Hyes. apply (f_equal priority) in Hyes. simpl in Hyes.
      congruence.
    + left. apply Hnot in Hno. exists t. split_and!; [done|congruence|..].
      * apply (f_equal state) in Hno. simpl in Hno. congruence.
      * apply (f_equal priority) in Hno. simpl in Hno. congruence.
  - intros [(t & Hy & Huy & Hst & Hp)|(t & Hy & Hp & Hdue)].
    + destruct (Hdata y t Hy) as (t' & Ht' & _ & Hnot).
      assert (¬ due k y t) as Hno by (intros (_ & ? & _); congruence).
      apply Hnot in Hno. exists t'. split_and!; [done|congruence|..].
      * apply (f_equal state) in Hno. simpl in Hno. congruence.
      * apply (f_equal priority) in Hno. simpl in Hno. congruence.
    + destruct (Hdata y t Hy) as (t' & Ht' & Hyes & _).
      pose proof Hdue as (Huy & _). apply Hyes in Hdue.
      exists t'. split_and!; [done|congruence|..].
      * by apply (f_equal state) in Hdue.
      * apply (f_equal priority) in Hdue. simpl in Hdue. congruence.
Qed.

(** ** What a call leaves alone *)

(** The fields of a TCB that are written by [task_create] only. *)
Definition identity (t : tcb_t)
  : Z * string * Z * list Z * nat * Z * Z * Z * Z :=
  (task_id t, name t, stack_pointer t, registers t, priority t,
   stack_base t, stack_size t, task_function t, task_parameter t).

Definition slice_ok (t : tcb_t) : Prop :=
  0 ≤ time_slice_remaining t ≤ TIME_SLICE_MS.

(** [t'] is a later version of the task [t]. *)
Definition evolves (t t' : tcb_t) : Prop :=
  identity t' = identity t ∧ (slice_ok t → slice_ok t').

Lemma evolves_refl t : evolves t t.
Proof. by split. Qed.

Lemma evolves_trans t1 t2 t3 : evolves t1 t2 → evolves t2 t3 → evolves t1 t3.
Proof. intros [E1 H1] [E2 H2]. split; [congruence|auto]. Qed.

Lemma evolves_strip t t' : evolves (strip t) (strip t') ↔ evolves t t'.
Proof. done. Qed.

Lemma evolves_dec_data d : evolves d (dec_data d).
Proof.
  unfold dec_data. destruct (0 <? time_slice_remaining d) eqn:Hpos;
    [|apply evolves_refl].
  split; [done|]. unfold slice_ok.
  change (time_slice_remaining (set_time_slice_remaining _ d))
    with (time_slice_remaining d - 1).
  apply Z.ltb_lt in Hpos. lia.
Qed.

Lemma evolves_wake_data u now d : evolves d (wake_data u now d).
Proof. unfold wake_data. by destruct (u && wake_due now d). Qed.

Lemma evolves_save_data now d : evolves d (save_data now d).
Proof. unfold save_data. by case_decide. Qed.

Lemma evolves_load_data d : evolves d (load_data d).
Proof.
  split; [done|]. intros _. unfold slice_ok.
  change (time_slice_remaining (load_data d)) with TIME_SLICE_MS.
  unfold TIME_SLICE_MS. lia.
Qed.

Lemma evolves_sleep_data w d : evolves d (sleep_data w d).
Proof. done. Qed.

Lemma evolves_at_slot i f x d :
  (∀ d, evolves d (f d)) → evolves d (at_slot i f x d).
Proof. intros Hf. unfold at_slot. case_decide; [apply Hf|apply evolves_refl]. Qed.

(** A step that creates no task: the registry, the idle task and the
    counters of created, deleted and idle time are as before, every TCB keeps
    its identity, and the two tick counters move together. *)
Record quiet_step (k k' : kernel) : Prop := mk_quiet_step {
  qs_used : task_pool_used k' = task_pool_used k;
  qs_next_id : next_task_id k' = next_task_id k;
  qs_idle : idle_task k' = idle_task k;
  qs_created : tasks_created (stats k') = tasks_created (stats k);
  qs_deleted : tasks_deleted (stats k') = tasks_deleted (stats k);
  qs_idle_time : idle_time (stats k') = idle_time (stats k);
  qs_uptime : total_ticks (stats k) = system_tick_count k ∧
              0 ≤ system_tick_count k < 2 ^ 32 →
              total_ticks (stats k') = system_tick_count k' ∧
              0 ≤ system_tick_count k' < 2 ^ 32;
  qs_tasks : ∀ x t, task_pool k !! x = Some t →
             ∃ t', task_pool k' !! x = Some t' ∧ evolves t t'
}.

Lemma quiet_step_refl k : quiet_step k k.
Proof. constructor; try done. intros x t Ht. exists t. by split. Qed.

Lemma quiet_step_trans k1 k2 k3 :
  quiet_step k1 k2 → quiet_step k2 k3 → quiet_step k1 k3.
Proof.
  intros [A1 A2 A3 A4 A5 A6 A7 A8] [B1 B2 B3 B4 B5 B6 B7 B8].
  constructor; try congruence.
  - auto.
  - intros x t Ht. destruct (A8 x t Ht) as (t2 & Ht2 & He2).
    destruct (B8 x t2 Ht2) as (t3 & Ht3 & He3). exists t3. split; [done|].
    by eapply evolves_trans.
Qed.

(** A step that only rewrites task data, by [g], and the links. *)
Lemma quiet_step_data k k' (g : nat → tcb_t → tcb_t) :
  frame_globals k k' →
  (∀ x, data k' !! x = g x <$> data k !! x) →
  (∀ x d, evolves d (g x d)) →
  quiet_step k k'.
Proof.
  intros Hf Hd Hg.
  destruct (frame_globals_eq _ _ Hf) as (_ & Hi & Hn & _ & Ht & Hs & Hu).
  constructor; try congruence.
  intros x t Hx. destruct (data_map_fwd _ _ _ x t Hd Hx) as (t' & Ht' & Hst).
  exists t'. split; [done|]. change (evolves (strip t) (strip t')).
  rewrite Hst. apply Hg.
Qed.

Lemma quiet_step_incr_ticks k : quiet_step k (incr_ticks k).
Proof.
  constructor; try done.
  - simpl. intros [-> _]. split; [done|]. unfold u32.
    apply Z.mod_pos_bound. done.
  - intros x t Ht. exists t. split; [done|apply evolves_refl].
Qed.

(** The switch part of an operation: the head [a] is loaded after [c] was
    saved. *)
Lemma quiet_step_switch k k' a c now :
  frame_globals (set_current_task (Some a) (incr_context_switches k)) k' →
  data k' = alter load_data a (alter (save_data now) c (data k)) →
  quiet_step k k'.
Proof.
  intros Hf Hd.
  apply (quiet_step_trans _
           (set_current_task (Some a) (incr_context_switches k))).
  { constructor; try done. intros x t Ht. exists t.
    split; [done|apply evolves_refl]. }
  apply (quiet_step_data _ _
           (λ x, at_slot a load_data x ∘ at_slot c (save_data now) x));
    [done| |].
  - by apply data_switch_map.
  - intros x d. simpl.
    eapply evolves_trans; apply evolves_at_slot;
      auto using evolves_load_data, evolves_save_data.
Qed.

Lemma quiet_step_tick_trace k c k1 k2 b k' :
  tick_trace k c k1 k2 b k' → quiet_step k k'.
Proof.
  intros (E1 & Hf1 & HI1 & Hd1 & E2 & Hf2 & HI2 & Hd2 & Eb & E' & HI' & Hcase).
  apply (quiet_step_trans _ (incr_ticks k)); [apply quiet_step_incr_ticks|].
  apply (quiet_step_trans _ k1).
  { apply (quiet_step_data _ _ (at_slot c dec_data)); [done| |].
    - by apply data_alter_map.
    - intros x d. apply evolves_at_slot, evolves_dec_data. }
  apply (quiet_step_trans _ k2).
  { apply (quiet_step_data _ _ (sweep_data k1)); [done..|].
    intros x d. apply evolves_wake_data. }
  destruct Hcase as [->|(a & ta & _ & _ & _ & _ & _ & Hf' & Hd')].
  - apply quiet_step_refl.
  - by eapply quiet_step_switch.
Qed.

Lemma quiet_step_tick k k' :
  Inv k → scheduler_tick k = Some k' → quiet_step k k'.
Proof.
  intros HI E.
  destruct (scheduler_running k) eqn:Hr, (current_task k) as [c|] eqn:Hc.
  - destruct (tick_running_spec k c HI Hr Hc) as (k1 & k2 & b & k'' & E' & Htr).
    assert (k'' = k') as -> by congruence.
    by eapply quiet_step_tick_trace.
  - rewrite scheduler_tick_idle in E by by right.
    injection E as <-. apply quiet_step_incr_ticks.
  - rewrite scheduler_tick_idle in E by by left.
    injection E as <-. apply quiet_step_incr_ticks.
  - rewrite scheduler_tick_idle in E by by left.
    injection E as <-. apply quiet_step_incr_ticks.
Qed.

Lemma quiet_step_yield k k' :
  Inv k → task_yield k = Some k' → quiet_step k k'.
Proof.
  intros HI. unfold task_yield.
  destruct (scheduler_running k) eqn:Hr;
    [|intros [= <-]; apply quiet_step_refl].
  destruct (current_task k) as [c|] eqn:Hc;
    [|intros [= <-]; apply quiet_step_refl].
  destruct (Inv_current _ _ HI Hc) as (_ & tc & Htc & _).
  destruct (Inv_update_data k c (set_time_slice_remaining 0) tc)
    as (k0 & -> & Hf0 & HI0 & Hd0); [done..|].
  simpl. intros E. apply (quiet_step_trans _ k0).
  - apply (quiet_step_data _ _ (at_slot c (set_time_slice_remaining 0)));
      [done| |].
    + by apply data_alter_map.
    + intros x d. apply evolves_at_slot. intros d'. split; [done|].
      intros _. unfold slice_ok.
      change (time_slice_remaining (set_time_slice_remaining 0 d')) with 0.
      unfold TIME_SLICE_MS. lia.
  - by apply quiet_step_tick.
Qed.

Lemma quiet_step_sleep k k' ms :
  Inv k → current_task k ≠ idle_task k → task_sleep ms k = Some k' →
  quiet_step k k'.
Proof.
  intros HI Hok E. destruct (current_task k) as [c|] eqn:Hc.
  - destruct (task_sleep_spec k c ms HI Hc)
      as (k'' & a & ta & E' & _ & _ & _ & _ & _ & Hf & Hd); [congruence|].
    assert (k'' = k') as -> by congruence.
    apply (quiet_step_trans _
             (set_current_task (Some a) (incr_context_switches k))).
    { constructor; try done. intros x t Ht. exists t.
      split; [done|apply evolves_refl]. }
    apply (quiet_step_data _ _
             (λ x, at_slot a load_data x
                   ∘ at_slot c (save_data (system_tick_count k)) x
                   ∘ at_slot c (sleep_data (u32 (system_tick_count k + ms))) x));
      [done| |].
    + intros x. change (data (set_current_task (Some a)
                                (incr_context_switches k))) with (data k).
      rewrite Hd, !list_lookup_alter. unfold at_slot, compose.
      repeat case_decide; simplify_eq; by destruct (data k !! _).
    + intros x d. simpl.
      eapply evolves_trans; [|apply evolves_at_slot, evolves_load_data].
      eapply evolves_trans; apply evolves_at_slot;
        auto using evolves_sleep_data, evolves_save_data.
  - unfold task_sleep in E. rewrite Hc in E.
    destruct (scheduler_running k); injection E as <-; apply quiet_step_refl.
Qed.

Lemma quiet_step_start k k' :
  Inv k → scheduler_running k = false → rtos_start k = Some k' →
  quiet_step k k'.
Proof.
  intros HI Hr E.
  destruct (rtos_start_spec k HI Hr)
    as (k'' & a & ta & E' & _ & _ & _ & _ & Hf & Hd).
  assert (k'' = k') as -> by congruence.
  apply (quiet_step_trans _
           (set_current_task (Some a)
              (incr_context_switches (set_scheduler_running true k)))).
  { constructor; try done. intros x t Ht. exists t.
    split; [done|apply evolves_refl]. }
  apply (quiet_step_data _ _ (at_slot a load_data)); [done| |].
  - by apply data_alter_map.
  - intros x d. apply evolves_at_slot, evolves_load_data.
Qed.

(** A step that creates the task [slot]. *)
Record create_step (k k' : kernel) (slot : nat) (t : tcb_t) : Prop :=
  mk_create_step {
  cs_slot : find_free_slot k = Some slot;
  cs_used : task_pool_used k' = <[slot := true]> (task_pool_used k);
  cs_next_id : next_task_id k' = u32 (next_task_id k + 1);
  cs_idle : idle_task k' = idle_task k;
  cs_created : tasks_created (stats k') = u32 (tasks_created (stats k) + 1);
  cs_deleted : tasks_deleted (stats k') = tasks_deleted (stats k);
  cs_idle_time : idle_time (stats k') = idle_time (stats k);
  cs_total_ticks : total_ticks (stats k') = total_ticks (stats k);
  cs_tick : system_tick_count k' = system_tick_count k;
  cs_current : current_task k' = current_task k;
  cs_running : scheduler_running k' = scheduler_running k;
  cs_new : task_pool k' !! slot = Some t;
  cs_tasks : ∀ x t0, x ≠ slot → task_pool k !! x = Some t0 →
             ∃ t', task_pool k' !! x = Some t' ∧ strip t' = strip t0
}.

Lemma task_create_step name_ f a p ss k id k' :
  Inv k → task_create name_ f a p ss k = Some (id, k') →
  (id = 0 ∧ k' = k ∧
   ((PRIORITY_LEVELS ≤ p)%nat ∨ STACK_SIZE < ss ∨ find_free_slot k = None)) ∨
  (∃ slot t, id = next_task_id k ∧
     (p < PRIORITY_LEVELS)%nat ∧ ss ≤ STACK_SIZE ∧
     create_step k k' slot t ∧ Inv k' ∧
     strip t = init_tcb k slot name_ f a p ss).
Proof.
  intros HI E. unfold task_create in E.
  destruct (decide (PRIORITY_LEVELS ≤ p)%nat) as [Hp|Hp].
  { left. injection E as <- <-. auto. }
  destruct (decide (STACK_SIZE < ss)) as [Hss|Hss].
  { left. injection E as <- <-. auto. }
  destruct (find_free_slot k) as [slot|] eqn:Hfind.
  2: { left. injection E as <- <-. auto. }
  right. destruct HI as (Q & HL & HS).
  destruct (task_create_Inv name_ f a p ss k Q slot)
    as (k'' & E' & HL' & HS' & Hf & Hd); [done|done|lia|lia|done|].
  unfold task_create in E'. rewrite !decide_False, Hfind in E' by done.
  assert (id = next_task_id k ∧ k'' = k') as [-> ->]
    by (split; congruence).
  destruct (frame_globals_eq _ _ Hf) as (Hc & Hi & Hn & Hr & Ht & Hs & Hu).
  simpl in Hc, Hi, Hn, Hr, Ht, Hu.
  assert (slot < length (task_pool k))%nat as Hlt.
  { apply find_free_slot_Some in Hfind as (Hlt & _).
    rewrite (linv_pool_len _ _ HL). done. }
  assert (∃ t, task_pool k' !! slot = Some t ∧
               strip t = init_tcb k slot name_ f a p ss) as (t & Hnew & Hst).
  { assert (data k' !! slot = Some (init_tcb k slot name_ f a p ss)) as Hx.
    { rewrite Hd. apply list_lookup_insert_eq. unfold data.
      by rewrite length_fmap. }
    unfold data in Hx. rewrite list_lookup_fmap in Hx.
    destruct (task_pool k' !! slot) as [t|]; [|done].
    exists t. split; [done|]. simpl in Hx. congruence. }
  exists slot, t.
  split_and!; [done|lia|lia| |by exists (<[p:=Q p ++ [slot]]> Q)|done].
  constructor; try done.
  - by rewrite Hs.
  - by rewrite Hs.
  - by rewrite Hs.
  - by rewrite Hs.
  - intros x t0 Hx Hx0.
    assert (data k' !! x = Some (strip t0)) as Hdx.
    { rewrite Hd, list_lookup_insert_ne by done. by apply data_lookup. }
    unfold data in Hdx. rewrite list_lookup_fmap in Hdx.
    destruct (task_pool k' !! x) as [t'|]; [|done].
    exists t'. split; [done|]. simpl in Hdx. congruence.
Qed.

(** Every call is a quiet step or creates one task. *)
Lemma do_call_step c k k' :
  Inv k → call_ok c k → do_call c k = Some k' →
  quiet_step k k' ∨ ∃ slot t, create_step k k' slot t ∧ task_id t = next_task_id k ∧
                        time_slice_remaining t = TIME_SLICE_MS.
Proof.
  intros HI Hok E. destruct c as [name_ f a p ss| | | |ms]; simpl in *.
  - destruct (task_create name_ f a p ss k) as [[id k'']|] eqn:Ec; [|done].
    simpl in E. injection E as ->.
    destruct (task_create_step _ _ _ _ _ _ _ _ HI Ec)
      as [(_ & -> & _)|(slot & t & _ & _ & _ & Hcs & _ & Hst)].
    + left. apply quiet_step_refl.
    + right. exists slot, t. split; [done|].
      split.
      * by apply (f_equal task_id) in Hst.
      * by apply (f_equal time_slice_remaining) in Hst.
  - left. by apply quiet_step_start.
  - left. by apply quiet_step_tick.
  - left. by apply quiet_step_yield.
  - left. by eapply quiet_step_sleep.
Qed.

(** ** The task registry *)

(** [n] tasks were created: they occupy the slots [0 .. n-1], the task in
    slot [x] has the id [x + 1], and the statistics agree. *)
Record registry (k : kernel) (n : nat) : Prop := mk_registry {
  reg_n : (1 ≤ n ≤ MAX_TASKS)%nat;
  reg_used : task_pool_used k
             = replicate n true ++ replicate (MAX_TASKS - n) false;
  reg_next : next_task_id k = Z.of_nat n + 1;
  reg_ids : ∀ x t, task_pool k !! x = Some t → (x < n)%nat →
            task_id t = Z.of_nat x + 1;
  reg_created : tasks_created (stats k) = Z.of_nat n;
  reg_deleted : tasks_deleted (stats k) = 0;
  reg_idle_time : idle_time (stats k) = 0;
  reg_uptime : total_ticks (stats k) = system_tick_count k ∧
               0 ≤ system_tick_count k < 2 ^ 32;
  reg_idle : idle_task k = Some 0%nat;
  reg_slice : ∀ x t, task_pool k !! x = Some t → slice_ok t
}.

Lemma registry_used k n x :
  registry k n → task_pool_used k !! x = Some true ↔ (x < n)%nat.
Proof.
  intros Hreg. rewrite (reg_used _ _ Hreg). split.
  - intros Hx. destruct (decide (x < n)%nat) as [|Hge]; [done|].
    rewrite lookup_app_r in Hx by (rewrite length_replicate; lia).
    by apply lookup_replicate in Hx as [? _].
  - intros Hlt. rewrite lookup_app_l by (rewrite length_replicate; lia).
    by apply lookup_replicate_2.
Qed.

Lemma registry_free k n x :
  registry k n →
  task_pool_used k !! x = Some false ↔ (n ≤ x < MAX_TASKS)%nat.
Proof.
  intros Hreg. pose proof (reg_n _ _ Hreg). rewrite (reg_used _ _ Hreg). split.
  - intros Hx. destruct (decide (x < n)%nat) as [Hlt|Hge].
    + rewrite lookup_app_l in Hx by (rewrite length_replicate; lia).
      by apply lookup_replicate in Hx as [? _].
    + rewrite lookup_app_r in Hx by (rewrite length_replicate; lia).
      apply lookup_replicate in Hx as [_ Hx]. rewrite length_replicate in Hx.
      lia.
  - intros Hx. rewrite lookup_app_r by (rewrite length_replicate; lia).
    apply lookup_replicate_2. rewrite length_replicate. lia.
Qed.

Lemma registry_find_free_slot k n slot :
  registry k n → find_free_slot k = Some slot → slot = n ∧ (n < MAX_TASKS)%nat.
Proof.
  intros Hreg (Hlt & Hfree & Hlow)%find_free_slot_Some.
  apply (registry_free k n) in Hfree as [Hge _]; [|done].
  destruct (decide (slot = n)) as [->|Hne]; [done|]. exfalso.
  apply (Hlow n); [lia|]. apply (registry_free k n); [done|lia].
Qed.

Lemma registry_init : registry init_kernel 1.
Proof.
  constructor.
  - unfold MAX_TASKS. lia.
  - vm_compute. reflexivity.
  - vm_compute. reflexivity.
  - intros x t Hx Hlt. assert (x = 0%nat) as -> by lia.
    vm_compute in Hx. injection Hx as <-. reflexivity.
  - vm_compute. reflexivity.
  - vm_compute. reflexivity.
  - vm_compute. reflexivity.
  - split; [vm_compute; reflexivity|]. vm_compute. split; [discriminate|done].
  - vm_compute. reflexivity.
  - intros x t Hx.
    do 8 (destruct x as [|x];
          [vm_compute in Hx; injection Hx as <-; vm_compute;
           split; discriminate|]).
    vm_compute in Hx. discriminate.
Qed.

Lemma registry_quiet_step k k' n :
  Inv k → Inv k' → registry k n → quiet_step k k' → registry k' n.
Proof.
  intros HI HI' [R1 R2 R3 R4 R5 R6 R7 R8 R9 R10] [Q1 Q2 Q3 Q4 Q5 Q6 Q7 Q8].
  assert (∀ x t', task_pool k' !! x = Some t' →
            ∃ t, task_pool k !! x = Some t ∧ evolves t t') as Hbwd.
  { intros x t' Hx. apply lookup_lt_Some in Hx as Hlt.
    rewrite (Inv_pool_len _ HI'), <-(Inv_pool_len _ HI) in Hlt.
    apply lookup_lt_is_Some in Hlt as [t Ht].
    destruct (Q8 x t Ht) as (t'' & Ht'' & He). exists t.
    split; [done|congruence]. }
  constructor; try congruence.
  - intros x t' Hx Hlt. destruct (Hbwd x t' Hx) as (t & Ht & [He _]).
    apply (f_equal (λ i, i.1.1.1.1.1.1.1.1)) in He. simpl in He.
    rewrite He. by eapply R4.
  - auto.
  - intros x t' Hx. destruct (Hbwd x t' Hx) as (t & Ht & [_ Hs]).
    apply Hs. by eapply R10.
Qed.

Lemma registry_create_step k k' n slot t :
  Inv k → Inv k' → registry k n → create_step k k' slot t →
  task_id t = next_task_id k → time_slice_remaining t = TIME_SLICE_MS →
  slot = n ∧ registry k' (S n).
Proof.
  intros HI HI' Hreg Hcs Hid Hts.
  destruct (registry_find_free_slot k n slot Hreg (cs_slot _ _ _ _ Hcs))
    as [-> Hn].
  split; [done|].
  destruct Hreg as [R1 R2 R3 R4 R5 R6 R7 R8 R9 R10].
  destruct Hcs as [C1 C2 C3 C4 C5 C6 C7 C8 C9 C10 C11 C12 C13].
  assert (∀ x t', x ≠ n → task_pool k' !! x = Some t' →
            ∃ t0, task_pool k !! x = Some t0 ∧ strip t' = strip t0) as Hbwd.
  { intros x t' Hne Hx. apply lookup_lt_Some in Hx as Hlt.
    rewrite (Inv_pool_len _ HI'), <-(Inv_pool_len _ HI) in Hlt.
    apply lookup_lt_is_Some in Hlt as [t0 Ht0].
    destruct (C13 x t0 Hne Ht0) as (t'' & Ht'' & He). exists t0.
    split; [done|congruence]. }
  unfold MAX_TASKS in *. constructor.
  - unfold MAX_TASKS. lia.
  - rewrite C2, R2.
    rewrite insert_app_r_alt by (rewrite length_replicate; lia).
    rewrite length_replicate, Nat.sub_diag.
    replace (8 - n)%nat with (S (8 - S n)) by lia.
    rewrite (replicate_S_end n), <-app_assoc. done.
  - rewrite C3, R3. unfold u32. rewrite Z.mod_small by lia. lia.
  - intros x t' Hx Hlt. destruct (decide (x = n)) as [->|Hne].
    + assert (t' = t) as -> by congruence. rewrite Hid, R3. done.
    + destruct (Hbwd x t' Hne Hx) as (t0 & Ht0 & He).
      apply (f_equal task_id) in He. simpl in He. rewrite He.
      apply (R4 x t0 Ht0). lia.
  - rewrite C5, R5. unfold u32. rewrite Z.mod_small by lia. lia.
  - congruence.
  - congruence.
  - rewrite C8, C9. done.
  - congruence.
  - intros x t' Hx. destruct (decide (x = n)) as [->|Hne].
    + assert (t' = t) as -> by congruence. unfold slice_ok. rewrite Hts.
      unfold TIME_SLICE_MS. lia.
    + destruct (Hbwd x t' Hne Hx) as (t0 & Ht0 & He).
      apply (f_equal time_slice_remaining) in He. simpl in He.
      unfold slice_ok. rewrite He. by apply (R10 x t0).
Qed.

Lemma reachable_registry k : reachable k → ∃ n, registry k n.
Proof.
  induction 1 as [k E|k c k' Hk [n IH] Hok E].
  - exists 1%nat. rewrite rtos_init_boot in E. injection E as <-.
    apply registry_init.
  - pose proof (reachable_Inv k Hk) as HI.
    assert (Inv k') as HI'.
    { destruct (do_call_Inv c k HI Hok) as (k'' & E' & HI'). congruence. }
    destruct (do_call_step c k k' HI Hok E)
      as [Hq|(slot & t & Hcs & Hid & Hts)].
    + exists n. apply (registry_quiet_step k k' n HI HI' IH Hq).
    + exists (S n).
      by destruct (registry_create_step k k' n slot t HI HI' IH Hcs Hid Hts).
Qed.

(** [task_get_info] on a kernel with a consistent registry. *)
Lemma registry_get_info k n id :
  registry k n → length (task_pool k) = MAX_TASKS →
  task_get_info id k
  = if decide (1 ≤ id ≤ Z.of_nat n) then Some (Z.to_nat (id - 1)) else None.
Proof.
  intros Hreg Hlen. pose proof (reg_n _ _ Hreg) as Hn.
  unfold task_get_info. case_decide as Hid.
  - set (x := Z.to_nat (id - 1)).
    assert (x < n)%nat as Hx by lia.
    assert (x < length (task_pool k))%nat as Hlt by lia.
    apply lookup_lt_is_Some in Hlt as [t Ht].
    apply fmap_Some. exists (x, (true, t)). split; [|done].
    apply list_find_Some. split_and!.
    + apply lookup_take_Some. split; [|lia].
      apply lookup_zip_with_Some. exists true, t. split_and!; [done| |done].
      by apply (registry_used k n).
    + done.
    + simpl. rewrite (reg_ids _ _ Hreg x t Ht Hx). lia.
    + intros j [u tj] [Hj _]%lookup_take_Some Hjx [Hu Hidj]. simpl in *.
      apply lookup_zip_with_Some in Hj as (u' & tj' & [= -> ->] & Huj & Htj).
      rewrite (reg_ids _ _ Hreg j tj' Htj) in Hidj by lia. lia.
  - apply fmap_None. apply list_find_None. apply Forall_forall.
    intros [u t] Hin [Hu Hidt]. simpl in *. subst u.
    apply elem_of_take in Hin as (j & Hj & _).
    apply lookup_zip_with_Some in Hj as (u' & t' & [= <- <-] & Huj & Htj).
    apply (registry_used k n) in Huj; [|done].
    rewrite (reg_ids _ _ Hreg j t Htj Huj) in Hidt. lia.
Qed.

Lemma filter_true_replicate n m :
  filter (λ b : bool, b = true) (replicate n true ++ replicate m false)
  = replicate n true.
Proof.
  rewrite filter_app.
  assert (filter (λ b : bool, b = true) (replicate m false) = []) as ->.
  { induction m as [|m IH]; [done|]. simpl.
    rewrite filter_cons_False by done. exact IH. }
  rewrite app_nil_r. induction n as [|n IH]; [done|]. simpl.
  rewrite filter_cons_True by done. by rewrite IH.
Qed.

(** X10: task ids are handed out consecutively and never reused.  In every
    kernel reached through the API some [n] tasks exist, with
    [1 <= n <= MAX_TASKS]; they occupy the slots [0 .. n-1], the task in slot
    [x] has the id [x + 1], and the id counter is [n + 1]: it never wraps, so
    that 0, the failure value of [task_create], is never the id of a task.
    [task_create] runs out of slots exactly when [MAX_TASKS] tasks exist. *)
Theorem task_ids_are_consecutive k :
  reachable k →
  ∃ n, (1 ≤ n ≤ MAX_TASKS)%nat ∧
    task_pool_used k = replicate n true ++ replicate (MAX_TASKS - n) false ∧
    next_task_id k = Z.of_nat n + 1 ∧ next_task_id k ≠ 0 ∧
    (∀ x t, task_pool k !! x = Some t → task_pool_used k !! x = Some true →
       task_id t = Z.of_nat x + 1) ∧
    (find_free_slot k = None ↔ n = MAX_TASKS).
Proof.
  intros Hk. destruct (reachable_registry k Hk) as (n & Hreg).
  pose proof (reg_n _ _ Hreg) as Hn.
  exists n. split; [done|]. split; [by apply (reg_used k n)|].
  split; [by apply (reg_next k n)|]. split_and!.
  - rewrite (reg_next _ _ Hreg). lia.
  - intros x t Ht Hu. apply (reg_ids _ _ Hreg x t Ht).
    by apply (registry_used k n).
  - split.
    + intros Hnone. destruct (decide (n = MAX_TASKS)) as [|Hne]; [done|].
      assert (find_free_slot k = Some n) as Hsome; [|congruence].
      apply find_free_slot_Some. split_and!; [lia| |].
      * apply (registry_free k n); [done|lia].
      * intros j Hj Hfree. apply (registry_free k n) in Hfree; [lia|done].
    + intros ->. destruct (find_free_slot k) as [slot|] eqn:Hfind; [|done].
      destruct (registry_find_free_slot k _ slot Hreg Hfind). lia.
Qed.

Lemma task_ids_are_consecutive_witness :
  ∃ n, (1 ≤ n ≤ MAX_TASKS)%nat ∧
    task_pool_used abc_kernel
    = replicate n true ++ replicate (MAX_TASKS - n) false ∧
    next_task_id abc_kernel = Z.of_nat n + 1 ∧ next_task_id abc_kernel ≠ 0 ∧
    (∀ x t, task_pool abc_kernel !! x = Some t →
       task_pool_used abc_kernel !! x = Some true →
       task_id t = Z.of_nat x + 1) ∧
    (find_free_slot abc_kernel = None ↔ n = MAX_TASKS).
Proof.
  apply (task_ids_are_consecutive abc_kernel). apply abc_kernel_reachable.
Defined.

(** X11: [task_get_info] returns the one created task that has the given
    id, and NULL exactly when no created task has it. *)
Theorem task_get_info_finds_the_task k id :
  reachable k →
  match task_get_info id k with
  | Some x =>
      ∃ t, task_pool k !! x = Some t ∧ task_pool_used k !! x = Some true ∧
        task_id t = id ∧
        ∀ y t', task_pool k !! y = Some t' →
          task_pool_used k !! y = Some true → task_id t' = id → y = x
  | None =>
      ∀ y t', task_pool k !! y = Some t' →
        task_pool_used k !! y = Some true → task_id t' ≠ id
  end.
Proof.
  intros Hk. destruct (reachable_registry k Hk) as (n & Hreg).
  pose proof (reg_n _ _ Hreg) as Hn.
  pose proof (Inv_pool_len _ (reachable_Inv k Hk)) as Hlen.
  rewrite (registry_get_info k n id Hreg Hlen). case_decide as Hid.
  - set (x := Z.to_nat (id - 1)).
    assert (x < n)%nat as Hx by lia.
    assert (x < length (task_pool k))%nat as Hlt by lia.
    apply lookup_lt_is_Some in Hlt as [t Ht]. exists t.
    split_and!; [done|by apply (registry_used k n)| |].
    + rewrite (reg_ids _ _ Hreg x t Ht Hx). lia.
    + intros y t' Hy Huy Hidy. apply (registry_used k n) in Huy; [|done].
      rewrite (reg_ids _ _ Hreg y t' Hy Huy) in Hidy. lia.
  - intros y t' Hy Huy Hidy. apply (registry_used k n) in Huy; [|done].
    rewrite (reg_ids _ _ Hreg y t' Hy Huy) in Hidy. lia.
Qed.

Lemma task_get_info_finds_the_task_witness :
  match task_get_info 3 abc_kernel with
  | Some x =>
      ∃ t, task_pool abc_kernel !! x = Some t ∧
        task_pool_used abc_kernel !! x = Some true ∧ task_id t = 3 ∧
        ∀ y t', task_pool abc_kernel !! y = Some t' →
          task_pool_used abc_kernel !! y = Some true → task_id t' = 3 → y = x
  | None =>
      ∀ y t', task_pool abc_kernel !! y = Some t' →
        task_pool_used abc_kernel !! y = Some true → task_id t' ≠ 3
  end.
Proof.
  apply (task_get_info_finds_the_task abc_kernel 3).
  apply abc_kernel_reachable.
Defined.

(** X12: creation and lookup.  On a kernel reached through the API
    [task_create] returns 0 only when it refuses to create the task (bad
    priority, oversized stack or a full pool), and then nothing changes.
    Otherwise the id is fresh and not 0, [task_get_info] with that id finds
    the new task, which carries the requested name, priority, entry point,
    parameter and stack size, and the lookup of every other id is as
    before. *)
Theorem task_create_then_get_info name_ f a p ss k id k' :
  reachable k → task_create name_ f a p ss k = Some (id, k') →
  (id = 0 ∧ k' = k ∧
   ((PRIORITY_LEVELS ≤ p)%nat ∨ STACK_SIZE < ss ∨ find_free_slot k = None)) ∨
  (id ≠ 0 ∧ task_get_info id k = None ∧
   ∃ slot t, task_get_info id k' = Some slot ∧
     task_pool k' !! slot = Some t ∧ task_pool_used k' !! slot = Some true ∧
     task_id t = id ∧ name t = String.substring 0 15 name_ ∧
     priority t = p ∧ state t = TASK_READY ∧ task_function t = f ∧
     task_parameter t = a ∧ stack_size t = ss ∧
     ∀ id', id' ≠ id → task_get_info id' k' = task_get_info id' k).
Proof.
  intros Hk E. pose proof (reachable_Inv k Hk) as HI.
  destruct (reachable_registry k Hk) as (n & Hreg).
  pose proof (reg_n _ _ Hreg) as Hn.
  destruct (task_create_step _ _ _ _ _ _ _ _ HI E)
    as [?|(slot & t & -> & Hp & Hss & Hcs & HI' & Hst)]; [by left|].
  right.
  assert (task_id t = next_task_id k) as Hid
    by by apply (f_equal task_id) in Hst.
  assert (time_slice_remaining t = TIME_SLICE_MS) as Hts
    by by apply (f_equal time_slice_remaining) in Hst.
  destruct (registry_create_step k k' n slot t HI HI' Hreg Hcs Hid Hts)
    as [-> Hreg'].
  rewrite (reg_next _ _ Hreg).
  rewrite (registry_get_info k n _ Hreg (Inv_pool_len _ HI)).
  rewrite (registry_get_info k' (S n) _ Hreg' (Inv_pool_len _ HI')).
  rewrite decide_False, decide_True by lia.
  split; [lia|]. split; [done|]. exists n, t. split_and!.
  - f_equal. lia.
  - by apply (cs_new _ _ _ _ Hcs).
  - apply (registry_used k' (S n)); [done|lia].
  - by rewrite Hid, (reg_next _ _ Hreg).
  - by apply (f_equal name) in Hst.
  - by apply (f_equal priority) in Hst.
  - by apply (f_equal state) in Hst.
  - by apply (f_equal task_function) in Hst.
  - by apply (f_equal task_parameter) in Hst.
  - by apply (f_equal stack_size) in Hst.
  - intros id' Hne.
    rewrite (registry_get_info k n _ Hreg (Inv_pool_len _ HI)).
    rewrite (registry_get_info k' (S n) _ Hreg' (Inv_pool_len _ HI')).
    repeat case_decide; try done; lia.
Qed.

Lemma task_create_then_get_info_witness :
  (3 = 0 ∧ ab_ready_kernel = one_task_kernel ∧
   ((PRIORITY_LEVELS ≤ 1)%nat ∨ STACK_SIZE < 512 ∨
    find_free_slot one_task_kernel = None)) ∨
  (3 ≠ 0 ∧ task_get_info 3 one_task_kernel = None ∧
   ∃ slot t, task_get_info 3 ab_ready_kernel = Some slot ∧
     task_pool ab_ready_kernel !! slot = Some t ∧
     task_pool_used ab_ready_kernel !! slot = Some true ∧
     task_id t = 3 ∧ name t = String.substring 0 15 "B" ∧
     priority t = 1%nat ∧ state t = TASK_READY ∧
     task_function t = 0x08002000 ∧ task_parameter t = 0 ∧
     stack_size t = 512 ∧
     ∀ id', id' ≠ 3 →
       task_get_info id' ab_ready_kernel = task_get_info id' one_task_kernel).
Proof.
  apply (task_create_then_get_info "B" 0x08002000 0 1 512 one_task_kernel 3
           ab_ready_kernel).
  - apply one_task_kernel_reachable.
  - vm_compute. reflexivity.
Defined.

(** X13: [task_get_current_id] returns 0 exactly while the scheduler has not
    been started; once it is started it returns the id of the current task,
    which is not 0, and [task_get_info] maps that id back to the current
    task. *)
Theorem task_get_current_id_names_the_current_task k :
  reachable k →
  match current_task k with
  | None => scheduler_running k = false ∧ task_get_current_id k = Some 0
  | Some c =>
      scheduler_running k = true ∧
      ∃ id, task_get_current_id k = Some id ∧ id ≠ 0 ∧
            task_get_info id k = Some c
  end.
Proof.
  intros Hk. pose proof (reachable_Inv k Hk) as HI.
  destruct (reachable_registry k Hk) as (n & Hreg).
  pose proof (reg_n _ _ Hreg) as Hn.
  destruct (current_task k) as [c|] eqn:Hc.
  - destruct (Inv_current _ _ HI Hc) as (Hr & tc & Htc & _ & Huc).
    split; [done|]. apply (registry_used k n) in Huc; [|done].
    exists (Z.of_nat c + 1). unfold task_get_current_id. rewrite Hc, Htc.
    simpl. rewrite (reg_ids _ _ Hreg c tc Htc Huc).
    split; [done|]. split; [lia|].
    rewrite (registry_get_info k n _ Hreg (Inv_pool_len _ HI)).
    rewrite decide_True by lia. f_equal. lia.
  - split; [|by unfold task_get_current_id; rewrite Hc].
    destruct HI as (Q & _ & HS). pose proof (sinv_current _ _ HS) as H5.
    destruct (scheduler_running k); [|done].
    destruct H5 as (c & _ & ? & _). congruence.
Qed.

Lemma task_get_current_id_names_the_current_task_witness :
  match current_task abc_kernel with
  | None =>
      scheduler_running abc_kernel = false ∧
      task_get_current_id abc_kernel = Some 0
  | Some c =>
      scheduler_running abc_kernel = true ∧
      ∃ id, task_get_current_id abc_kernel = Some id ∧ id ≠ 0 ∧
            task_get_info id abc_kernel = Some c
  end.
Proof.
  apply (task_get_current_id_names_the_current_task abc_kernel).
  apply abc_kernel_reachable.
Defined.

(** X14: the statistics of a kernel reached through the API.  The tick
    statistic and the uptime are one number; [tasks_created] counts the used
    slots and no task is ever deleted; nothing in the scheduler adds to
    [idle_time] (only the body of the idle task does, which the simulated
    scheduler never runs), so [get_cpu_utilization] reports 100 percent
    after the first tick, also while only the idle task is dispatched. *)
Theorem statistics_of_reachable_kernel k :
  reachable k →
  total_ticks (stats k) = get_system_uptime k ∧
  0 ≤ get_system_uptime k < 2 ^ 32 ∧
  idle_time (stats k) = 0 ∧ tasks_deleted (stats k) = 0 ∧
  tasks_created (stats k)
  = Z.of_nat (length (filter (λ b : bool, b = true) (task_pool_used k))) ∧
  (total_ticks (stats k) * 100 < 2 ^ 32 →
   get_cpu_utilization k = if decide (total_ticks (stats k) = 0) then 0 else 100).
Proof.
  intros Hk. destruct (reachable_registry k Hk) as (n & Hreg).
  destruct (reg_uptime _ _ Hreg) as [Hup Hrange].
  pose proof (reg_idle_time _ _ Hreg) as Hidle.
  unfold get_system_uptime.
  split_and!; [done|lia|lia|done|by apply (reg_deleted k n)| |].
  - rewrite (reg_used _ _ Hreg), filter_true_replicate, length_replicate.
    by apply (reg_created k n).
  - intros Hfit. rewrite get_cpu_utilization_exact by (rewrite Hidle; lia).
    case_decide as Hz; [done|]. rewrite Hidle, Z.sub_0_r, Z.mul_comm.
    apply Z.div_mul. done.
Qed.

Lemma statistics_of_reachable_kernel_witness :
  total_ticks (stats abc_kernel) = get_system_uptime abc_kernel ∧
  0 ≤ get_system_uptime abc_kernel < 2 ^ 32 ∧
  idle_time (stats abc_kernel) = 0 ∧ tasks_deleted (stats abc_kernel) = 0 ∧
  tasks_created (stats abc_kernel)
  = Z.of_nat (length (filter (λ b : bool, b = true)
                        (task_pool_used abc_kernel))) ∧
  (total_ticks (stats abc_kernel) * 100 < 2 ^ 32 →
   get_cpu_utilization abc_kernel
   = if decide (total_ticks (stats abc_kernel) = 0) then 0 else 100).
Proof.
  apply (statistics_of_reachable_kernel abc_kernel).
  apply abc_kernel_reachable.
Defined.

(** The kernel one tick after the three tasks were started. *)
Definition abc_after_tick : kernel :=
  default boot (do_call CTick abc_kernel).

(** X15: no call changes what [task_create] wrote into a TCB: the id, the
    name, the priority, the stack base and size, the entry point and its
    parameter of every created task stay as they are, and so do the saved
    registers and the saved stack pointer, which the simulated context
    switch never writes; a created task stays created. *)
Theorem calls_preserve_task_identity c k k' :
  reachable k → call_ok c k → do_call c k = Some k' →
  ∀ x t, task_pool k !! x = Some t → task_pool_used k !! x = Some true →
    ∃ t', task_pool k' !! x = Some t' ∧
      task_pool_used k' !! x = Some true ∧ identity t' = identity t.
Proof.
  intros Hk Hok E x t Ht Hu. pose proof (reachable_Inv k Hk) as HI.
  destruct (do_call_step c k k' HI Hok E) as [Hq|(slot & t0 & Hcs & _)].
  - destruct (qs_tasks _ _ Hq x t Ht) as (t' & Ht' & [He _]).
    exists t'. split_and!; [done| |done]. by rewrite (qs_used _ _ Hq).
  - pose proof (cs_slot _ _ _ _ Hcs) as (_ & Hfree & _)%find_free_slot_Some.
    assert (x ≠ slot) as Hne by (intros ->; congruence).
    destruct (cs_tasks _ _ _ _ Hcs x t Hne Ht) as (t' & Ht' & Hst).
    exists t'. split_and!; [done| |].
    + rewrite (cs_used _ _ _ _ Hcs), list_lookup_insert_ne by done. done.
    + change (identity (strip t') = identity (strip t)). by rewrite Hst.
Qed.

Lemma calls_preserve_task_identity_witness :
  ∃ t', task_pool abc_after_tick !! 2%nat = Some t' ∧
    task_pool_used abc_after_tick !! 2%nat = Some true ∧
    identity t' = identity (default zero_tcb (task_pool abc_kernel !! 2%nat)).
Proof.
  apply (calls_preserve_task_identity CTick abc_kernel abc_after_tick).
  - apply abc_kernel_reachable.
  - exact I.
  - vm_compute. reflexivity.
  - vm_compute. reflexivity.
  - vm_compute. reflexivity.
Defined.

(** X16: the time slice stays in range.  In every kernel reached through
    the API the remaining time slice of every task is between 0 and
    [TIME_SLICE_MS]: the unsigned counter is never decremented below 0. *)
Theorem time_slice_stays_in_range k :
  reachable k →
  ∀ x t, task_pool k !! x = Some t →
    0 ≤ time_slice_remaining t ≤ TIME_SLICE_MS.
Proof.
  intros Hk x t Ht. destruct (reachable_registry k Hk) as (n & Hreg).
  by apply (reg_slice _ _ Hreg x t).
Qed.

Lemma time_slice_stays_in_range_witness :
  0 ≤ time_slice_remaining (default zero_tcb (task_pool abc_kernel !! 1%nat))
    ≤ TIME_SLICE_MS.
Proof.
  apply (time_slice_stays_in_range abc_kernel abc_kernel_reachable 1%nat).
  vm_compute. reflexivity.
Defined.

(** ** Over several ticks *)

(** Task A in slot 1, at priority 1, is the current task at tick 0. *)
Definition a_started_calls : list call :=
  [CCreate "A" 0x08001000 0 1 512; CStart].

Definition a_started_kernel : kernel :=
  default boot (kernel_after a_started_calls).

Lemma a_started_kernel_reachable : reachable a_started_kernel.
Proof.
  apply (kernel_after_reachable a_started_calls).
  - vm_compute. repeat split.
  - vm_compute. reflexivity.
Qed.

(** Task A sleeps for one tick; the tick counter is then advanced, as
    [scheduler_tick] does before its wake sweep. *)
Definition a_due_kernel : kernel :=
  incr_ticks (default boot (kernel_after (a_started_calls ++ [CSleep 1]))).

Lemma a_due_kernel_Inv : Inv a_due_kernel.
Proof.
  apply Inv_incr_ticks, reachable_Inv.
  apply (kernel_after_reachable (a_started_calls ++ [CSleep 1])).
  - vm_compute. split_and!; done.
  - vm_compute. reflexivity.
Qed.

Lemma wake_sleeping_tasks_wakes_the_due_witness :
  ∃ k', wake_sleeping_tasks a_due_kernel = Some k' ∧ Inv k' ∧
    current_task k' = current_task a_due_kernel ∧
    system_tick_count k' = system_tick_count a_due_kernel ∧
    stats k' = stats a_due_kernel ∧
    task_pool_used k' = task_pool_used a_due_kernel ∧
    (∀ x t, task_pool a_due_kernel !! x = Some t →
       ∃ t', task_pool k' !! x = Some t' ∧
         (due a_due_kernel x t →
          strip t' = set_state TASK_READY (set_wake_time 0 (strip t))) ∧
         (¬ due a_due_kernel x t → strip t' = strip t)) ∧
    (∀ p y, y ∈ queue_members k' p ↔
       y ∈ queue_members a_due_kernel p ∨
       ∃ t, task_pool a_due_kernel !! y = Some t ∧ priority t = p ∧
            due a_due_kernel y t).
Proof.
  apply (wake_sleeping_tasks_wakes_the_due a_due_kernel).
  apply a_due_kernel_Inv.
Defined.

(** One tick with a current task [c] that is not the idle task: either [c]
    is switched out, or it stays current with its slice decremented by
    one, and then the slice has not run out. *)
Lemma tick_keeps_or_switches k c t :
  Inv k → scheduler_running k = true → current_task k = Some c →
  idle_task k ≠ Some c → task_pool k !! c = Some t →
  0 ≤ time_slice_remaining t →
  ∃ k', scheduler_tick k = Some k' ∧ Inv k' ∧ scheduler_running k' = true ∧
    idle_task k' = idle_task k ∧
    (current_task k' ≠ Some c ∨
     (current_task k' = Some c ∧ 1 < time_slice_remaining t ∧
      ∃ t', task_pool k' !! c = Some t' ∧
            time_slice_remaining t' = time_slice_remaining t - 1)).
Proof.
  intros HI Hr Hc Hidle Ht Hnn.
  destruct (tick_running_spec k c HI Hr Hc) as (k1 & k2 & b & k' & E & Htr).
  destruct (tick_trace_globals _ _ _ _ _ _ Htr)
    as (_ & _ & _ & _ & _ & _ & Hr' & Hi' & _).
  pose proof Htr
    as (_ & Hf1 & _ & _ & _ & Hf2 & HI2 & _ & Eb & E' & HI' & _).
  destruct (frame_globals_eq _ _ Hf1) as (Hc1 & Hi1 & _ & Hr1 & _).
  destruct (frame_globals_eq _ _ Hf2) as (Hc2 & Hi2 & _ & Hr2 & _).
  simpl in Hc1, Hi1, Hr1.
  destruct (tick_trace_slice _ _ _ _ _ _ t Htr HI Hc Ht)
    as (tc2 & Htc2 & _ & _ & Hs2).
  exists k'. split_and!; [done|done|congruence|done|].
  destruct b.
  - left. destruct (reschedule_order k2 c HI2)
      as [(_ & Hi & _)|(p & a & r & tc & ta & k'' & _ & _ & _ & Hac & _ & _ & _
                        & E'' & _ & Hf & _)]; [congruence..| |].
    + exfalso. apply Hidle. congruence.
    + assert (k'' = k') as -> by congruence.
      destruct (frame_globals_eq _ _ Hf) as (-> & _). simpl. congruence.
  - right. injection E' as <-. split; [congruence|].
    assert (time_slice_remaining tc2 ≠ 0) as Hnz.
    { intros Hz.
      by pose proof (tick_trace_expired _ _ _ _ _ _ tc2 Htr Htc2 Hz). }
    destruct (0 <? time_slice_remaining t) eqn:Hpos.
    + apply Z.ltb_lt in Hpos. split; [lia|]. by exists tc2.
    + apply Z.ltb_ge in Hpos. lia.
Qed.

(** The current task, when it is not the idle task, is switched out within
    its remaining time slice. *)
Lemma slice_runs_out s : ∀ k c t,
  Inv k → scheduler_running k = true → current_task k = Some c →
  idle_task k ≠ Some c → task_pool k !! c = Some t →
  time_slice_remaining t = Z.of_nat s →
  ∃ n kn, (1 ≤ n ≤ Nat.max 1 s)%nat ∧ run_ticks n k = Some kn ∧ Inv kn ∧
          current_task kn ≠ Some c.
Proof.
  induction s as [|s IH]; intros k c t HI Hr Hc Hidle Ht Hs.
  - destruct (tick_keeps_or_switches k c t HI Hr Hc Hidle Ht)
      as (k' & E & HI' & _ & _ & [Hne|(_ & Hlt & _)]); [lia| |lia].
    exists 1%nat, k'. split_and!; [lia|lia| |done..].
    simpl. by rewrite E.
  - destruct (tick_keeps_or_switches k c t HI Hr Hc Hidle Ht)
      as (k' & E & HI' & Hr' & Hi' & [Hne|(Hc' & Hlt & t' & Ht' & Hs')]);
      [lia| |].
    + exists 1%nat, k'. split_and!; [lia|lia| |done..].
      simpl. by rewrite E.
    + destruct (IH k' c t' HI' Hr' Hc') as (n & kn & Hn & En & HIn & Hcn);
        [congruence|done|lia|].
      exists (S n), kn. split_and!; [lia|lia| |done..].
      simpl. by rewrite E.
Qed.

(** X17: bounded time slice.  In a kernel reached through the API, a
    current task other than the idle task does not stay current for more
    than its remaining time slice, hence never for more than
    [TIME_SLICE_MS] ticks in a row: after at most that many ticks another
    task is the current one, even when no other task has its priority. *)
Theorem current_task_is_switched_out_within_its_slice k c t :
  reachable k → current_task k = Some c → idle_task k ≠ Some c →
  task_pool k !! c = Some t →
  ∃ n kn, (1 ≤ n)%nat ∧
    Z.of_nat n ≤ Z.max 1 (time_slice_remaining t) ∧
    Z.of_nat n ≤ TIME_SLICE_MS ∧
    run_ticks n k = Some kn ∧ current_task kn ≠ Some c.
Proof.
  intros Hk Hc Hidle Ht. pose proof (reachable_Inv k Hk) as HI.
  destruct (reachable_registry k Hk) as (m & Hreg).
  pose proof (reg_slice _ _ Hreg c t Ht) as [Hlo Hhi].
  destruct (Inv_current _ _ HI Hc) as (Hr & _).
  destruct (slice_runs_out (Z.to_nat (time_slice_remaining t)) k c t)
    as (n & kn & Hn & En & _ & Hcn); [done..|lia|].
  exists n, kn. unfold TIME_SLICE_MS in *. split_and!; [lia|lia|lia|done..].
Qed.

Lemma current_task_is_switched_out_within_its_slice_witness :
  ∃ t, task_pool abc_kernel !! 1%nat = Some t ∧
  ∃ n kn, (1 ≤ n)%nat ∧
    Z.of_nat n ≤ Z.max 1 (time_slice_remaining t) ∧
    Z.of_nat n ≤ TIME_SLICE_MS ∧
    run_ticks n abc_kernel = Some kn ∧ current_task kn ≠ Some 1%nat.
Proof.
  eexists. split; [vm_compute; reflexivity|].
  apply (current_task_is_switched_out_within_its_slice abc_kernel 1).
  - apply abc_kernel_reachable.
  - vm_compute. reflexivity.
  - vm_compute. discriminate.
  - vm_compute. reflexivity.
Defined.

(** A task that is blocked with [wake_time = 0] stays so over a tick. *)
Lemma asleep_zero_tick c k :
  asleep 0 c k → ∃ k', scheduler_tick k = Some k' ∧ asleep 0 c k'.
Proof.
  intros Has.
  destruct (asleep_current _ _ _ Has) as (c' & Hc' & Hne).
  destruct Has as (HI & Hr & Hcur & t & Ht & Hst & Hw & Hu).
  destruct (tick_running_spec k c' HI Hr Hc') as (k1 & k2 & b & k' & E & Htr).
  destruct (tick_trace_globals _ _ _ _ _ _ Htr)
    as (_ & _ & _ & _ & _ & Hu' & Hr' & _).
  destruct (tick_trace_data _ _ _ _ _ _ c t Htr Ht)
    as (t2 & t' & Ht2 & Hs2 & Ht' & Hcase).
  unfold at_slot, sweep_data, wake_data, wake_due in Hs2.
  rewrite decide_False in Hs2 by done. simpl in Hs2. rewrite Hw in Hs2.
  change (0 <? 0) with false in Hs2.
  rewrite andb_false_r, andb_false_l, andb_false_r in Hs2.
  assert (state t2 = TASK_BLOCKED) as Hst2.
  { apply (f_equal state) in Hs2. simpl in Hs2. congruence. }
  assert (strip t' = strip t2 ∧ current_task k' ≠ Some c) as [Hs' Hcur'].
  { destruct Hcase as [[-> Hsame]|(a & ta & _ & _ & Hta & Hsta & Hca & Hs')].
    - split; [done|congruence].
    - assert (a ≠ c) as Hac by (intros ->; congruence).
      unfold at_slot in Hs'.
      rewrite (decide_False (P := c = a)), (decide_False (P := c = c')) in Hs'
        by done.
      split; [done|congruence]. }
  exists k'. split; [done|].
  split; [apply Htr|]. split; [congruence|]. split; [done|].
  exists t'. split_and!; [done| | |congruence].
  - apply (f_equal state) in Hs'. simpl in Hs'. congruence.
  - rewrite Hs2 in Hs'. apply (f_equal wake_time) in Hs'. simpl in Hs'.
    congruence.
Qed.

Lemma asleep_zero_run c n : ∀ k,
  asleep 0 c k → ∃ kn, run_ticks n k = Some kn ∧ asleep 0 c kn.
Proof.
  induction n as [|n IH]; intros k Has; [by exists k|].
  destruct (asleep_zero_tick c k Has) as (k1 & E1 & Has1).
  destruct (IH k1 Has1) as (kn & En & Hasn). exists kn. split; [|done].
  simpl. by rewrite E1.
Qed.

(** X18: the wake tick 0 means "not sleeping".  When the wake tick
    [system_tick_count + ms] of a [task_sleep] call is 0 modulo 2^32 (as for
    [ms = 0] at tick 0, or when the sum wraps around to 0), the wake sweep
    never wakes the task: it is blocked after every number of ticks. *)
Theorem sleep_until_tick_zero_never_wakes k c ms :
  Inv k → current_task k = Some c → idle_task k ≠ Some c →
  u32 (system_tick_count k + ms) = 0 →
  ∃ k', task_sleep ms k = Some k' ∧
    ∀ n, ∃ kn, run_ticks n k' = Some kn ∧
      slot_state kn c = Some TASK_BLOCKED ∧ current_task kn ≠ Some c.
Proof.
  intros HI Hc Hidle Hz.
  destruct (Inv_current _ _ HI Hc) as (Hr & tc & Htc & Hstc & Huc).
  destruct (task_sleep_spec k c ms HI Hc Hidle)
    as (k' & a & ta & E & HI' & Hac & Hta & Hsta & Hua & Hf & Hd).
  destruct (frame_globals_eq _ _ Hf) as (Hc' & _ & _ & Hr' & Ht' & _ & Hu').
  simpl in Hc', Hr', Ht', Hu'.
  assert (asleep 0 c k') as Has.
  { split; [done|]. split; [congruence|]. split; [congruence|].
    assert (∀ x, data k' !! x =
              (at_slot a load_data x
               ∘ at_slot c (save_data (system_tick_count k)
                            ∘ sleep_data (u32 (system_tick_count k + ms))) x)
                <$> data k !! x) as Hmap.
    { intros x. rewrite Hd, list_alter_alter_eq, !list_lookup_alter.
      unfold at_slot, compose.
      repeat case_decide; simplify_eq; by destruct (data k !! _). }
    destruct (data_map_fwd _ _ _ c tc Hmap Htc) as (tc' & Htc' & Hs).
    unfold at_slot, compose in Hs.
    rewrite decide_False, decide_True in Hs by done. simpl in Hs.
    exists tc'. split; [done|]. rewrite Hz in Hs.
    split_and!; [| |by rewrite Hu'].
    - by apply (f_equal state) in Hs.
    - by apply (f_equal wake_time) in Hs. }
  exists k'. split; [done|]. intros n.
  destruct (asleep_zero_run c n k' Has) as (kn & En & Hasn).
  exists kn. split; [done|].
  destruct Hasn as (_ & _ & Hcn & t & Ht & Hst & _).
  split; [|done]. unfold slot_state. by rewrite Ht, <-Hst.
Qed.

Lemma sleep_until_tick_zero_never_wakes_witness :
  ∃ k', task_sleep 0 a_started_kernel = Some k' ∧
    ∀ n, ∃ kn, run_ticks n k' = Some kn ∧
      slot_state kn 1 = Some TASK_BLOCKED ∧ current_task kn ≠ Some 1%nat.
Proof.
  apply (sleep_until_tick_zero_never_wakes a_started_kernel 1 0).
  - apply reachable_Inv, a_started_kernel_reachable.
  - vm_compute. reflexivity.
  - vm_compute. discriminate.
  - vm_compute. reflexivity.
Defined.

(** ** The idle task *)

Definition incr_idle_time (k : kernel) : kernel :=
  let s := stats k in
  set_stats (mk_stats (total_context_switches s) (total_ticks s)
               (u32 (idle_time s + 1)) (tasks_created s) (tasks_deleted s)) k.

(** One pass of the loop of [idle_task_function]: count the idle time,
    busy-wait, yield. *)
Definition idle_task_pass (k : kernel) : option kernel :=
  task_yield (incr_idle_time k).

(** A ready task other than the current one is still ready after the slice
    update and the wake sweep of a tick. *)
Lemma tick_trace_ready k c k1 k2 b k' x t :
  tick_trace k c k1 k2 b k' → x ≠ c →
  task_pool k !! x = Some t → state t = TASK_READY →
  ∃ t2, task_pool k2 !! x = Some t2 ∧ state t2 = TASK_READY ∧
        priority t2 = priority t.
Proof.
  intros Htr Hne Ht Hst.
  destruct (tick_trace_data _ _ _ _ _ _ x t Htr Ht) as (t2 & _ & Ht2 & Hs2 & _).
  exists t2. split; [done|].
  unfold at_slot, sweep_data, wake_data, wake_due in Hs2.
  rewrite decide_False in Hs2 by done. simpl in Hs2. rewrite Hst in Hs2.
  rewrite bool_decide_eq_false_2, !andb_false_l, andb_false_r in Hs2 by done.
  split.
  - apply (f_equal state) in Hs2. simpl in Hs2. congruence.
  - by apply (f_equal priority) in Hs2.
Qed.

(** Task A, the only task besides the idle task, has used up its slice: the
    idle task is the current task and A is ready. *)
Definition a_preempted_calls : list call :=
  [CCreate "A" 0x08001000 0 1 512; CStart] ++ replicate 10 CTick.

Definition a_preempted_kernel : kernel :=
  default boot (kernel_after a_preempted_calls).

Lemma a_preempted_kernel_reachable : reachable a_preempted_kernel.
Proof.
  apply (kernel_after_reachable a_preempted_calls).
  - vm_compute. split_and!; done.
  - vm_compute. reflexivity.
Qed.

(** X19: one pass of the idle loop, with the idle task current, adds one to
    [idle_time] and yields: the slice is set to 0 and one tick is run.
    After the wake sweep of that tick either no ready queue has a member,
    and the idle task stays the current task, or the head of the first
    non-empty queue is dispatched: it is running and current, and the idle
    task is ready.  In particular, whenever some created task is ready
    before the pass, the idle task is not the current task after it. *)
Theorem idle_task_pass_yields k i :
  Inv k → scheduler_running k = true → current_task k = Some i →
  idle_task k = Some i →
  ∃ k0 k1 k2 k',
    update_tcb i (set_time_slice_remaining 0) (incr_idle_time k) = Some k0 ∧
    decrement_slice i (incr_ticks k0) = Some k1 ∧
    wake_sleeping_tasks k1 = Some k2 ∧
    idle_task_pass k = Some k' ∧ Inv k' ∧
    idle_time (stats k') = u32 (idle_time (stats k) + 1) ∧
    system_tick_count k' = u32 (system_tick_count k + 1) ∧
    (((∀ p, queue_members k2 p = []) ∧ k' = k2 ∧ current_task k' = Some i) ∨
     (∃ p a r ta ti, (p < PRIORITY_LEVELS)%nat ∧
        queue_members k2 p = a :: r ∧
        (∀ q, (q < p)%nat → queue_members k2 q = []) ∧
        a ≠ i ∧ current_task k' = Some a ∧
        task_pool k' !! a = Some ta ∧ state ta = TASK_RUNNING ∧
        task_pool k' !! i = Some ti ∧ state ti = TASK_READY)) ∧
    ((∃ x t, task_pool k !! x = Some t ∧ task_pool_used k !! x = Some true ∧
             state t = TASK_READY) →
     current_task k' ≠ Some i).
Proof.
  intros HI Hr Hc Hidle.
  assert (Inv (incr_idle_time k)) as HIi by by apply (Inv_globals k).
  unfold idle_task_pass, task_yield.
  change (scheduler_running (incr_idle_time k)) with (scheduler_running k).
  change (current_task (incr_idle_time k)) with (current_task k).
  rewrite Hr, Hc.
  destruct (Inv_current _ _ HI Hc) as (_ & tc & Htc & Hstc & Huc).
  destruct (Inv_update_data (incr_idle_time k) i (set_time_slice_remaining 0) tc)
    as (k0 & E0 & Hf0 & HI0 & Hd0); [done..|].
  rewrite E0. simpl.
  destruct (frame_globals_eq _ _ Hf0) as (Hc0 & Hi0 & _ & Hr0 & Ht0 & Hs0 & Hu0).
  simpl in Hc0, Hi0, Hr0, Ht0, Hu0.
  assert (current_task k0 = Some i) as Hcur0 by congruence.
  assert (scheduler_running k0 = true) as Hrun0 by congruence.
  assert (∀ x, data k0 !! x
               = at_slot i (set_time_slice_remaining 0) x <$> data k !! x)
    as Hmap0 by by apply data_alter_map.
  destruct (data_map_fwd _ _ _ i tc Hmap0 Htc) as (tc0 & Htc0 & Hstrip0).
  unfold at_slot in Hstrip0. rewrite decide_True in Hstrip0 by done.
  assert (time_slice_remaining tc0 = 0) as Hz0.
  { by apply (f_equal time_slice_remaining) in Hstrip0. }
  destruct (tick_running_spec k0 i HI0 Hrun0 Hcur0)
    as (k1 & k2 & b & k' & E & Htr).
  destruct (tick_trace_slice _ _ _ _ _ _ tc0 Htr HI0 Hcur0 Htc0)
    as (tc2 & Htc2 & Hstc2 & Hptc2 & Hz2).
  rewrite Hz0 in Hz2. simpl in Hz2.
  pose proof (tick_trace_expired _ _ _ _ _ _ tc2 Htr Htc2 Hz2) as ->.
  destruct (tick_trace_globals _ _ _ _ _ _ Htr)
    as (_ & _ & Ht' & _ & _ & Hu1 & _ & _ & _).
  pose proof Htr
    as (E1 & Hf1 & _ & _ & E2 & Hf2 & HI2 & _ & _ & E' & HI' & _).
  destruct (frame_globals_eq _ _ Hf1) as (Hc1 & Hi1 & _ & Hr1 & _ & Hs1 & Hu1').
  destruct (frame_globals_eq _ _ Hf2) as (Hc2 & Hi2 & _ & Hr2 & _ & Hs2 & Hu2).
  simpl in Hc1, Hi1, Hr1, Hs1, Hu1'.
  assert (idle_time (stats k2) = u32 (idle_time (stats k) + 1)) as Hidle2.
  { rewrite Hs2, Hs1, Hs0. done. }
  assert ((∃ x t, task_pool k !! x = Some t ∧
                  task_pool_used k !! x = Some true ∧ state t = TASK_READY) →
          ∃ p x, x ∈ queue_members k2 p) as Hready.
  { intros (x & t & Hx & Hux & Hstx).
    assert (x ≠ i) as Hxi by (intros ->; congruence).
    destruct (data_map_fwd _ _ _ x t Hmap0 Hx) as (t0 & Hx0 & Hstrip).
    unfold at_slot in Hstrip. rewrite decide_False in Hstrip by done.
    assert (state t0 = TASK_READY) as Hst0.
    { apply (f_equal state) in Hstrip. simpl in Hstrip. congruence. }
    destruct (tick_trace_ready _ _ _ _ _ _ x t0 Htr Hxi Hx0 Hst0)
      as (t2 & Hx2 & Hst2 & _).
    exists (priority t2), x. apply Inv_member_iff; [done|].
    exists t2. split_and!; [done| |done..]. congruence. }
  exists k0, k1, k2, k'.
  split; [done|]. split; [done|]. split; [done|]. split; [done|].
  split; [done|].
  destruct (reschedule_order k2 i HI2)
    as [(Hempty & _ & E'')
       |(p & a & r & tc2' & ta & k'' & Hp & EQ & Hlow & Hac & Htc2' & Hta
         & Hpta & E'' & _ & Hf & Hd & Hq)]; [congruence..| |].
  - assert (k' = k2) as -> by congruence.
    split; [done|]. split; [by rewrite Ht', Ht0|]. split.
    + left. split; [done|]. split; [done|]. congruence.
    + intros Hex. destruct (Hready Hex) as (p & x & Hin).
      rewrite Hempty in Hin. by apply elem_of_nil in Hin.
  - assert (k'' = k') as -> by congruence.
    assert (tc2' = tc2) as -> by congruence.
    destruct (frame_globals_eq _ _ Hf) as (Hc' & _ & _ & _ & _ & Hs' & _).
    simpl in Hc'.
    split; [by rewrite Hs'; simpl|]. split; [by rewrite Ht', Ht0|].
    split; [|intros _; congruence].
    right.
    destruct (data_map_fwd _ _ _ a ta (data_switch_map _ _ _ _ _ Hd) Hta)
      as (ta' & Hta' & Hsa).
    destruct (data_map_fwd _ _ _ i tc2 (data_switch_map _ _ _ _ _ Hd) Htc2)
      as (ti & Hti & Hsi).
    unfold at_slot in Hsa, Hsi.
    rewrite (decide_True (P := a = a)) in Hsa by done.
    rewrite (decide_False (P := i = a)), decide_True in Hsi by done.
    simpl in Hsi. unfold save_data in Hsi.
    rewrite (decide_True (P := state (strip tc2) = TASK_RUNNING)) in Hsi
      by done.
    exists p, a, r, ta', ti. split_and!; [done..| |done|].
    + by apply (f_equal state) in Hsa.
    + by apply (f_equal state) in Hsi.
Qed.

Lemma idle_task_pass_yields_witness :
  (∃ x t, task_pool a_preempted_kernel !! x = Some t ∧
          task_pool_used a_preempted_kernel !! x = Some true ∧
          state t = TASK_READY) ∧
  ∃ k0 k1 k2 k',
    update_tcb 0 (set_time_slice_remaining 0)
      (incr_idle_time a_preempted_kernel) = Some k0 ∧
    decrement_slice 0 (incr_ticks k0) = Some k1 ∧
    wake_sleeping_tasks k1 = Some k2 ∧
    idle_task_pass a_preempted_kernel = Some k' ∧ Inv k' ∧
    idle_time (stats k') = u32 (idle_time (stats a_preempted_kernel) + 1) ∧
    system_tick_count k' = u32 (system_tick_count a_preempted_kernel + 1) ∧
    (((∀ p, queue_members k2 p = []) ∧ k' = k2 ∧
      current_task k' = Some 0%nat) ∨
     (∃ p a r ta ti, (p < PRIORITY_LEVELS)%nat ∧
        queue_members k2 p = a :: r ∧
        (∀ q, (q < p)%nat → queue_members k2 q = []) ∧
        a ≠ 0%nat ∧ current_task k' = Some a ∧
        task_pool k' !! a = Some ta ∧ state ta = TASK_RUNNING ∧
        task_pool k' !! 0%nat = Some ti ∧ state ti = TASK_READY)) ∧
    ((∃ x t, task_pool a_preempted_kernel !! x = Some t ∧
             task_pool_used a_preempted_kernel !! x = Some true ∧
             state t = TASK_READY) →
     current_task k' ≠ Some 0%nat).
Proof.
  split.
  - exists 1%nat. eexists. split; [vm_compute; reflexivity|].
    split; vm_compute; reflexivity.
  - apply (idle_task_pass_yields a_preempted_kernel 0).
    + apply reachable_Inv, a_preempted_kernel_reachable.
    + vm_compute. reflexivity.
    + vm_compute. reflexivity.
    + vm_compute. reflexivity.
Defined.

(** ** CPU utilization *)

(** A kernel whose statistics show 1000 ticks, 250 of them idle. *)
Definition quarter_idle_kernel : kernel :=
  set_stats (mk_stats 0 1000 250 0 0) boot.

(** X20: as long as [idle_time <= total_ticks] and the product
    [busy_time * 100] fits in 32 bits, [get_cpu_utilization] is the
    percentage of busy ticks rounded down: a number between 0 and 100 that
    the cast to [uint8_t] does not truncate, and 0 when no tick was
    counted. *)
Theorem get_cpu_utilization_is_the_floor_percentage k :
  0 ≤ idle_time (stats k) ≤ total_ticks (stats k) →
  (total_ticks (stats k) - idle_time (stats k)) * 100 < 2 ^ 32 →
  0 ≤ get_cpu_utilization k ≤ 100 ∧
  (total_ticks (stats k) = 0 → get_cpu_utilization k = 0) ∧
  (total_ticks (stats k) ≠ 0 →
   get_cpu_utilization k * total_ticks (stats k)
   ≤ (total_ticks (stats k) - idle_time (stats k)) * 100
   < (get_cpu_utilization k + 1) * total_ticks (stats k)).
Proof.
  intros Hle Hfit. rewrite get_cpu_utilization_exact by done.
  set (T := total_ticks (stats k)) in *. set (I := idle_time (stats k)) in *.
  case_decide as Hz.
  - split; [lia|]. split; [done|]. intros Hnz. done.
  - assert (0 < T) as Hpos by lia.
    pose proof (Z.div_mod ((T - I) * 100) T Hz) as Hdm.
    pose proof (Z.mod_pos_bound ((T - I) * 100) T Hpos) as Hmod.
    assert (0 ≤ (T - I) * 100 / T) as Hq0 by (apply Z.div_pos; lia).
    assert ((T - I) * 100 / T ≤ 100) as Hq100.
    { apply Z.div_le_upper_bound; [done|]. nia. }
    split; [lia|]. split; [done|]. intros _. nia.
Qed.

Lemma get_cpu_utilization_is_the_floor_percentage_witness :
  0 ≤ get_cpu_utilization quarter_idle_kernel ≤ 100 ∧
  (total_ticks (stats quarter_idle_kernel) = 0 →
   get_cpu_utilization quarter_idle_kernel = 0) ∧
  (total_ticks (stats quarter_idle_kernel) ≠ 0 →
   get_cpu_utilization quarter_idle_kernel
   * total_ticks (stats quarter_idle_kernel)
   ≤ (total_ticks (stats quarter_idle_kernel)
      - idle_time (stats quarter_idle_kernel)) * 100
   < (get_cpu_utilization quarter_idle_kernel + 1)
     * total_ticks (stats quarter_idle_kernel)).
Proof.
  apply (get_cpu_utilization_is_the_floor_percentage quarter_idle_kernel).
  - vm_compute. split; discriminate.
  - vm_compute. reflexivity.
Defined.

(** ** C5: the id counter across initialisations *)

(** [rtos_init] called [n] times in a row. *)
Fixpoint rtos_init_times (n : nat) (k : kernel) : option kernel :=
  match n with
  | O => Some k
  | S n' => '(_, k) ← rtos_init k; rtos_init_times n' k
  end.

(** [rtos_init] does not reset the id counter: it advances it by the id of
    the idle task. *)
Lemma rtos_init_registry k :
  next_task_id k ≠ 0 →
  ∃ k', rtos_init k = Some (0, k') ∧
    next_task_id k' = u32 (next_task_id k + 1) ∧
    task_pool_used k' = true :: replicate (MAX_TASKS - 1) false.
Proof.
  intros Hid. unfold rtos_init.
  set (k1 := set_stats _ _).
  assert (task_pool k1 = replicate MAX_TASKS zero_tcb) as Epool by done.
  assert (task_pool_used k1 = replicate MAX_TASKS false) as Eused by done.
  assert (ready_queues k1 = replicate PRIORITY_LEVELS None) as Erq by done.
  assert (LInv k1 (λ _, [])) as HL1.
  { constructor; rewrite ?Epool, ?Eused, ?Erq.
    - by rewrite length_replicate.
    - by rewrite length_replicate.
    - intros p Hp. by apply lookup_replicate_2.
    - intros _. apply ring_nil.
    - intros p x Hx. set_solver.
    - intros x t [-> _]%lookup_replicate. simpl. unfold PRIORITY_LEVELS. lia.
    - by intros x t [-> _]%lookup_replicate _. }
  destruct (task_create_ok "IDLE" idle_task_function 0 (PRIORITY_LEVELS - 1)
              STACK_SIZE k1 (λ _, []) 0%nat)
    as (k2 & E & _ & Hf & _); [done|set_solver|unfold PRIORITY_LEVELS; lia
                               |done|done|].
  rewrite E. simpl. change (next_task_id k1) with (next_task_id k).
  rewrite decide_False by done.
  destruct (frame_globals_eq _ _ Hf) as (_ & _ & Hn & _ & _ & _ & Hu).
  eexists. split; [reflexivity|]. split; [exact Hn|exact Hu].
Qed.

(** [rtos_init] on a stopped scheduler whose id counter is not 0. *)
Lemma rtos_init_fresh k :
  next_task_id k ≠ 0 → scheduler_running k = false → current_task k = None →
  ∃ k', rtos_init k = Some (0, k') ∧ Inv k' ∧
    scheduler_running k' = false ∧ current_task k' = None ∧
    next_task_id k' = u32 (next_task_id k + 1) ∧
    task_pool_used k' = true :: replicate (MAX_TASKS - 1) false.
Proof.
  intros Hid Hr Hc.
  destruct (rtos_init_spec k Hid Hr Hc) as (k' & E & HI' & Hr' & _).
  destruct (rtos_init_registry k Hid) as (k'' & E' & Hn & Hu).
  assert (k'' = k') as -> by congruence.
  exists k'. split; [done|]. split; [done|]. split; [done|].
  split; [|done].
  destruct HI' as (Q & _ & HS). pose proof (sinv_current _ _ HS) as H5.
  by rewrite Hr' in H5.
Qed.

Lemma rtos_init_times_S n k r k1 :
  rtos_init k = Some (r, k1) →
  rtos_init_times (S n) k = rtos_init_times n k1.
Proof.
  intros E. cbn [rtos_init_times]. rewrite E. reflexivity.
Qed.

Lemma rtos_init_times_counter n : ∀ k,
  scheduler_running k = false → current_task k = None →
  0 < next_task_id k → next_task_id k + Z.of_nat (S n) ≤ 2 ^ 32 →
  ∃ k', rtos_init_times (S n) k = Some k' ∧ Inv k' ∧
    next_task_id k' = u32 (next_task_id k + Z.of_nat (S n)) ∧
    task_pool_used k' = true :: replicate (MAX_TASKS - 1) false.
Proof.
  induction n as [|n IH]; intros k Hr Hc Hpos Hfit.
  - destruct (rtos_init_fresh k) as (k' & E & HI' & _ & _ & Hn & Hu).
    + lia.
    + exact Hr.
    + exact Hc.
    + exists k'. split.
      * by rewrite (rtos_init_times_S 0 k 0 k' E).
      * split; [exact HI'|]. split; [exact Hn|exact Hu].
  - destruct (rtos_init_fresh k) as (k1 & E & _ & Hr1 & Hc1 & Hn1 & _).
    + lia.
    + exact Hr.
    + exact Hc.
    + assert (next_task_id k1 = next_task_id k + 1) as Hn1'.
      { rewrite Hn1. unfold u32. apply Z.mod_small. lia. }
      destruct (IH k1 Hr1 Hc1) as (k' & E' & HI' & Hn' & Hu').
      * lia.
      * lia.
      * exists k'. split.
        -- rewrite (rtos_init_times_S (S n) k 0 k1 E). exact E'.
        -- split; [exact HI'|]. split; [|exact Hu'].
           rewrite Hn', Hn1'. f_equal. lia.
Qed.

(** After [n = 2^32 - 1] initialisations the id counter is 0, and a
    [task_create] with valid arguments and a free slot creates the task and
    returns 0. *)
Lemma task_create_after_id_wrap n :
  Z.of_nat n = 2 ^ 32 - 1 →
  ∃ k k' t, rtos_init_times n boot = Some k ∧ Inv k ∧
    next_task_id k = 0 ∧ find_free_slot k = Some 1%nat ∧
    task_create "A" 0x08001000 0 1 512 k = Some (0, k') ∧
    task_pool_used k !! 1%nat = Some false ∧
    task_pool_used k' !! 1%nat = Some true ∧
    task_pool k' !! 1%nat = Some t ∧ task_id t = 0 ∧
    state t = TASK_READY ∧ priority t = 1%nat ∧
    last (queue_members k' 1) = Some 1%nat ∧
    tasks_created (stats k') = u32 (tasks_created (stats k) + 1).
Proof.
  intros Hn. destruct n as [|n]; [done|].
  destruct (rtos_init_times_counter n boot) as (k & E & HI & Hnext & Hu);
    [done|done|done|rewrite Hn; done|].
  assert (next_task_id k = 0) as Hz.
  { rewrite Hnext, Hn. reflexivity. }
  assert (find_free_slot k = Some 1%nat) as Hfind.
  { unfold find_free_slot. rewrite Hu. reflexivity. }
  pose proof HI as (Q & HL & HS).
  destruct (task_create_Inv "A" 0x08001000 0 1 512 k Q 1)
    as (k' & Ec & HL' & HS' & Hf & Hd);
    [done|done|unfold PRIORITY_LEVELS; lia|done|done|].
  rewrite Hz in Ec.
  destruct (task_create_step _ _ _ _ _ _ _ _ HI Ec)
    as [(_ & _ & [Hp|[Hs|Hnone]])|(slot & t & _ & _ & _ & Hcs & HI' & Hst)].
  { unfold PRIORITY_LEVELS in Hp. lia. }
  { done. }
  { congruence. }
  assert (slot = 1%nat) as ->.
  { pose proof (cs_slot _ _ _ _ Hcs). congruence. }
  exists k, k', t. split_and!; [done..| | | | | | | |].
  - rewrite Hu. reflexivity.
  - rewrite (cs_used _ _ _ _ Hcs), Hu. reflexivity.
  - by apply (cs_new _ _ _ _ Hcs).
  - apply (f_equal task_id) in Hst. simpl in Hst. congruence.
  - by apply (f_equal state) in Hst.
  - by apply (f_equal priority) in Hst.
  - rewrite (queue_members_repr k' _ 1 HL'), fn_lookup_insert.
    by rewrite last_snoc.
  - by apply (cs_created _ _ _ _ Hcs).
Qed.

(** C5, as the code behaves: [rtos_init] does not reset the id counter, so
    after 2^32 - 1 initialisations (each of which creates the idle task) the
    counter has wrapped around to 0.  A [task_create] with a valid priority
    and stack size and a free slot then succeeds, the task is created in
    slot 1, ready and last in its queue, with [tasks_created] incremented,
    and yet the call returns 0, the failure value. *)
Theorem task_create_returns_0_after_id_wrap :
  ∃ k k' t, rtos_init_times (Z.to_nat (2 ^ 32 - 1)) boot = Some k ∧ Inv k ∧
    next_task_id k = 0 ∧ find_free_slot k = Some 1%nat ∧
    task_create "A" 0x08001000 0 1 512 k = Some (0, k') ∧
    task_pool_used k !! 1%nat = Some false ∧
    task_pool_used k' !! 1%nat = Some true ∧
    task_pool k' !! 1%nat = Some t ∧ task_id t = 0 ∧
    state t = TASK_READY ∧ priority t = 1%nat ∧
    last (queue_members k' 1) = Some 1%nat ∧
    tasks_created (stats k') = u32 (tasks_created (stats k) + 1).
Proof.
  apply task_create_after_id_wrap. apply Z2Nat.id. discriminate.
Qed.
